(** * SecureShare: share access control and download accounting

    A shallow embedding of [server/storage.ts] (the [MemStorage] and
    [DatabaseStorage] classes) and of the public access and download
    handlers of [server/routes.ts], with the properties of the access
    control and download accounting logic stated and proved over it. *)

From Stdlib Require Import ZArith NArith Lia List Ascii String Bool.
From stdpp Require Import base option list gmap.
Import ListNotations.

Local Open Scope Z_scope.

(** ** JavaScript values

    A JS string is a sequence of UTF-16 code units.  Dates are epoch
    milliseconds.  [null] and [undefined] are [None]. *)

Abbreviation jsstring := (list N) (only parsing).

Definition js (s : string) : jsstring :=
  map N_of_ascii (list_ascii_of_string s).

(** Truthiness, as used by [if (x && ...)]: a nullable number is truthy
    when present and non-zero, a nullable string when present and
    non-empty, a nullable [Date] object when present. *)

Definition truthy_num (x : option Z) : bool :=
  match x with
  | Some n => negb (n =? 0)
  | None => false
  end.

Definition truthy_str (x : option jsstring) : bool :=
  match x with
  | Some (_ :: _) => true
  | _ => false
  end.

Definition truthy_date (x : option Z) : bool :=
  match x with
  | Some _ => true
  | None => false
  end.

(** [x || ''] on a nullable string. *)
Definition or_empty (x : option jsstring) : jsstring :=
  match x with
  | Some (c :: s) => c :: s
  | _ => []
  end.

Definition str_eqb (a b : jsstring) : bool := bool_decide (a = b).

(** ** [btoa]

    The runtime's [btoa] throws [InvalidCharacterError] when a code unit
    is above 255 and otherwise returns the padded base64 encoding of the
    bytes.  A throw is [None]. *)

Module Base64.

Definition alphabet : jsstring :=
  js "ABCDEFGHIJKLMNOPQRSTUVWXYZabcdefghijklmnopqrstuvwxyz0123456789+/".

Definition pad : N := 61%N.

Definition digit (i : N) : N := nth (N.to_nat i) alphabet pad.

(** Position of a code unit in the alphabet (64 when it is not there). *)
Fixpoint index_from (i : N) (l : list N) (c : N) : N :=
  match l with
  | [] => i
  | x :: l' => if (x =? c)%N then i else index_from (N.succ i) l' c
  end.

Definition index_of (c : N) : N := index_from 0%N alphabet c.

Fixpoint encode (l : list N) : list N :=
  match l with
  | [] => []
  | [a] =>
      [digit (a / 4); digit ((a mod 4) * 16); pad; pad]%N
  | [a; b] =>
      [digit (a / 4); digit ((a mod 4) * 16 + b / 16);
       digit ((b mod 16) * 4); pad]%N
  | a :: b :: c :: rest =>
      (digit (a / 4) :: digit ((a mod 4) * 16 + b / 16)
       :: digit ((b mod 16) * 4 + c / 64) :: digit (c mod 64)
       :: encode rest)%N
  end.

(** The sixty-four sextet values. *)
Definition sextets : list N := map N.of_nat (seq 0 64).

Definition latin1 (s : jsstring) : bool := forallb (fun c => (c <=? 255)%N) s.

Definition btoa (s : jsstring) : option jsstring :=
  if latin1 s then Some (encode s) else None.

End Base64.

(** ** [MemStorage] password helpers *)

Module MemPassword.

Definition salt : jsstring := js "salt".

(** [hashPassword(password) { return btoa(password + 'salt'); }] *)
Definition hashPassword (password : jsstring) : option jsstring :=
  Base64.btoa (password ++ salt).

(** [validatePassword(password, hash) { return this.hashPassword(password) === hash; }]
    There is no [try]: a throw of [btoa] propagates. *)
Definition validatePassword (password hash : jsstring) : option bool :=
  match hashPassword password with
  | Some h => Some (str_eqb h hash)
  | None => None
  end.

End MemPassword.

(** ** The bcrypt library

    [bcrypt] is an external package.  [hashSync] draws a random salt,
    passed here as an argument; [compareSync] may throw ([None]).  The
    request's password is untyped in the handlers, so the data argument
    may be [undefined]. *)

Record Bcrypt : Type := {
  hashSync : jsstring -> Z -> jsstring -> jsstring;
  compareSync : option jsstring -> jsstring -> option bool
}.

(** ** [DatabaseStorage] password helpers *)

Module DbPassword.
Section WithBcrypt.
Context (bcrypt : Bcrypt).

(** [hashPassword(password) { return bcrypt.hashSync(password, 10); }] *)
Definition hashPassword (password salt : jsstring) : jsstring :=
  hashSync bcrypt password 10 salt.

(** [try { return bcrypt.compareSync(password, hash); } catch (error) { return false; }] *)
Definition validatePassword (password : option jsstring) (hash : jsstring) : bool :=
  match compareSync bcrypt password hash with
  | Some b => b
  | None => false
  end.

(** [hashFilePassword(password) { return bcrypt.hashSync(password, 12); }] *)
Definition hashFilePassword (password salt : jsstring) : jsstring :=
  hashSync bcrypt password 12 salt.

Definition validateFilePassword (password : option jsstring) (hash : jsstring) : bool :=
  match compareSync bcrypt password hash with
  | Some b => b
  | None => false
  end.

End WithBcrypt.
End DbPassword.

(** ** Rows

    The row types [File], [SharedLink] and [DownloadLog] that
    [shared/schema.ts] infers from the tables [files], [shared_links]
    and [download_logs].  In each table [id] is the primary key.

    [share_token] is [not null], so every row of the table has a string
    there.  An object held by [MemStorage] can have [undefined] in its
    place ([None]): [updateSharedLink] spreads its argument over the
    stored object, and a [Partial<InsertSharedLink>] may carry the key
    with the value [undefined]. *)

Record File : Type := mkFile {
  file_id : jsstring;
  userId : jsstring;
  originalName : jsstring;
  fileSize : Z;
  fileType : jsstring;
  storagePath : jsstring;
  shareCode : option jsstring;
  isPublic : bool;
  isLocked : bool;
  downloadLimit : option Z;
  downloadCount : Z;
  expiresAt : option Z;
  createdAt : Z;
  updatedAt : Z
}.

Record SharedLink : Type := mkLink {
  link_id : jsstring;
  link_fileId : jsstring;
  linkType : jsstring;
  shareToken : option jsstring;
  recipientEmail : option jsstring;
  passwordHash : option jsstring;
  link_expiresAt : option Z;
  link_downloadLimit : option Z;
  link_downloadCount : Z;
  isActive : bool;
  link_createdAt : Z
}.

Inductive DownloadMethod : Type :=
| ByCode | ByLink | ByPublicLink | BySharedLink.

Record InsertDownloadLog : Type := mkInsertLog {
  log_fileId : jsstring;
  sharedLinkId : option jsstring;
  downloadMethod : DownloadMethod;
  downloaderIp : option jsstring;
  downloaderUserAgent : option jsstring
}.

Record DownloadLog : Type := mkLog {
  log_id : jsstring;
  log_entry : InsertDownloadLog;
  downloadedAt : Z
}.

(** [Partial<InsertFile>]: an absent key is [None]; a key present with
    [null] (or [undefined]) is [Some None] for the nullable columns. *)
Record FileUpdate : Type := mkFileUpdate {
  u_userId : option jsstring;
  u_originalName : option jsstring;
  u_fileSize : option Z;
  u_fileType : option jsstring;
  u_storagePath : option jsstring;
  u_shareCode : option (option jsstring);
  u_isPublic : option bool;
  u_isLocked : option bool;
  u_downloadLimit : option (option Z);
  u_downloadCount : option Z;
  u_expiresAt : option (option Z)
}.

Definition no_update : FileUpdate :=
  mkFileUpdate None None None None None None None None None None None.

(** [{ downloadCount: n }] *)
Definition set_downloadCount (n : Z) : FileUpdate :=
  mkFileUpdate None None None None None None None None None (Some n) None.

(** [{ shareCode: c }] *)
Definition set_shareCode (c : option jsstring) : FileUpdate :=
  mkFileUpdate None None None None None (Some c) None None None None None.

(** The spread [{ ...existing, ...fileUpdate }]. *)
Definition apply_file_update (existing : File) (u : FileUpdate) : File :=
  {| file_id := file_id existing;
     userId := default (userId existing) (u_userId u);
     originalName := default (originalName existing) (u_originalName u);
     fileSize := default (fileSize existing) (u_fileSize u);
     fileType := default (fileType existing) (u_fileType u);
     storagePath := default (storagePath existing) (u_storagePath u);
     shareCode := default (shareCode existing) (u_shareCode u);
     isPublic := default (isPublic existing) (u_isPublic u);
     isLocked := default (isLocked existing) (u_isLocked u);
     downloadLimit := default (downloadLimit existing) (u_downloadLimit u);
     downloadCount := default (downloadCount existing) (u_downloadCount u);
     expiresAt := default (expiresAt existing) (u_expiresAt u);
     createdAt := createdAt existing;
     updatedAt := updatedAt existing |}.

Definition touch (now : Z) (f : File) : File :=
  {| file_id := file_id f; userId := userId f; originalName := originalName f;
     fileSize := fileSize f; fileType := fileType f; storagePath := storagePath f;
     shareCode := shareCode f; isPublic := isPublic f; isLocked := isLocked f;
     downloadLimit := downloadLimit f; downloadCount := downloadCount f;
     expiresAt := expiresAt f; createdAt := createdAt f; updatedAt := now |}.

(** [{ downloadCount: n }] on a shared link row. *)
Definition link_with_count (n : Z) (l : SharedLink) : SharedLink :=
  {| link_id := link_id l; link_fileId := link_fileId l; linkType := linkType l;
     shareToken := shareToken l; recipientEmail := recipientEmail l;
     passwordHash := passwordHash l; link_expiresAt := link_expiresAt l;
     link_downloadLimit := link_downloadLimit l; link_downloadCount := n;
     isActive := isActive l; link_createdAt := link_createdAt l |}.

(** [Partial<{ downloadCount: number; isActive: boolean }>], the argument
    of the [updateSharedLink] that [DatabaseStorage] ends up with (the
    later of its two definitions). *)
Record LinkUpdate : Type := mkLinkUpdate {
  lu_downloadCount : option Z;
  lu_isActive : option bool
}.

Definition apply_link_update (l : SharedLink) (u : LinkUpdate) : SharedLink :=
  {| link_id := link_id l; link_fileId := link_fileId l; linkType := linkType l;
     shareToken := shareToken l; recipientEmail := recipientEmail l;
     passwordHash := passwordHash l; link_expiresAt := link_expiresAt l;
     link_downloadLimit := link_downloadLimit l;
     link_downloadCount := default (link_downloadCount l) (lu_downloadCount u);
     isActive := default (isActive l) (lu_isActive u);
     link_createdAt := link_createdAt l |}.

(** ** [DatabaseStorage]

    The three tables the access handlers touch, as lists of rows.
    [select ... where ... limit 1] returns the first matching row;
    [update ... where id = ...] rewrites every row with that id.

    The operations are given for the calls the database accepts.  The
    [id] columns are [uuid] and the counters [integer]: a lookup by a
    string that is no uuid and an update of a counter past the 32-bit
    range throw.  The handlers below look rows up by an id read from a
    row; where an id comes from a request ([Account]) or a counter can
    leave the range ([overflows]) the throw is modelled there. *)

Module Db.

Record Store : Type := mkStore {
  files : list File;
  sharedLinks : list SharedLink;
  downloadLogs : list InsertDownloadLog
}.

Definition has_id (id : jsstring) (f : File) : bool := str_eqb (file_id f) id.

Definition has_code (code : jsstring) (f : File) : bool :=
  match shareCode f with
  | Some c => str_eqb c code
  | None => false
  end.

Definition has_token (token : jsstring) (l : SharedLink) : bool :=
  match shareToken l with
  | Some t => str_eqb t token
  | None => false
  end.

Definition has_link_id (id : jsstring) (l : SharedLink) : bool :=
  str_eqb (link_id l) id.

Definition getFile (id : jsstring) (s : Store) : option File :=
  find (has_id id) (files s).

Definition getFileByShareCode (code : jsstring) (s : Store) : option File :=
  find (has_code code) (files s).

Definition getSharedLink (token : jsstring) (s : Store) : option SharedLink :=
  find (has_token token) (sharedLinks s).

Definition updateFile (id : jsstring) (u : FileUpdate) (s : Store) : Store :=
  {| files := map (fun f => if has_id id f then apply_file_update f u else f) (files s);
     sharedLinks := sharedLinks s;
     downloadLogs := downloadLogs s |}.

Definition updateSharedLink (id : jsstring) (u : LinkUpdate) (s : Store) : Store :=
  {| files := files s;
     sharedLinks :=
       map (fun l => if has_link_id id l then apply_link_update l u else l)
           (sharedLinks s);
     downloadLogs := downloadLogs s |}.

Definition createDownloadLog (l : InsertDownloadLog) (s : Store) : Store :=
  {| files := files s;
     sharedLinks := sharedLinks s;
     downloadLogs := downloadLogs s ++ [l] |}.

End Db.

(** ** Handlers

    A handler is the sequence of its awaited storage calls; what happens
    between two awaits is synchronous.  Every handler body sits in a
    [try] whose [catch] answers 500, so a storage call that throws ends
    the handler there. *)

Inductive StorageOp : Type -> Type :=
| GetFileByShareCode (code : jsstring) : StorageOp (option File)
| GetFile (id : jsstring) : StorageOp (option File)
| GetSharedLink (token : jsstring) : StorageOp (option SharedLink)
| CreateDownloadLog (l : InsertDownloadLog) : StorageOp unit
| UpdateFile (id : jsstring) (u : FileUpdate) : StorageOp unit
| UpdateSharedLink (id : jsstring) (u : LinkUpdate) : StorageOp unit.

Definition exec {A} (op : StorageOp A) (s : Db.Store) : A * Db.Store :=
  match op in StorageOp T return T * Db.Store with
  | GetFileByShareCode code => (Db.getFileByShareCode code s, s)
  | GetFile id => (Db.getFile id s, s)
  | GetSharedLink token => (Db.getSharedLink token s, s)
  | CreateDownloadLog l => (tt, Db.createDownloadLog l s)
  | UpdateFile id u => (tt, Db.updateFile id u s)
  | UpdateSharedLink id u => (tt, Db.updateSharedLink id u s)
  end.

Inductive ErrorMsg : Type :=
| FileNotFound            (* 'File not found' *)
| FileHasExpired          (* 'File has expired' *)
| DownloadLimitExceeded   (* 'Download limit exceeded' *)
| ShareLinkNotFound       (* 'Share link not found' *)
| ShareLinkHasExpired     (* 'Share link has expired' *)
| SharedLinkNotFound      (* 'Shared link not found' *)
| SharedLinkInactive      (* 'Shared link is inactive' *)
| SharedLinkHasExpired    (* 'Shared link has expired' *)
| InvalidPassword         (* 'Invalid password' *)
| PasswordRequired        (* 'Password required' *)
| NotPubliclyAccessible   (* 'File is not publicly accessible' *)
| FileNotFoundOnServer    (* 'File not found on server' *)
| Thrown.                 (* error.message of a caught exception *)

Inductive Response : Type :=
| Json (status : Z) (error : ErrorMsg)
| FileInfo (f : File)
| SharedInfo (f : File) (l : SharedLink)
| Download (path name : jsstring)
| SendFile (path name type : jsstring).

Inductive Handler : Type :=
| Respond (r : Response)
| Await {A : Type} (op : StorageOp A) (k : A -> Handler).

Notation "'let*' x := 'await' op 'in' k" := (Await op (fun x => k))
  (at level 10, x name, op at level 99, k at level 200, only parsing).
Notation "'await' op ;; k" := (Await op (fun _ => k))
  (at level 10, op at level 99, k at level 200, only parsing).

(** [new Date() > d], after the truthiness test on [d]. *)
Definition past (now : Z) (expiry : option Z) : bool :=
  truthy_date expiry && match expiry with Some t => now >? t | None => false end.

(** [limit && count >= limit] *)
Definition limit_hit (limit : option Z) (count : Z) : bool :=
  truthy_num limit && match limit with Some l => count >=? l | None => false end.

(** [!password] *)
Definition missing (password : option jsstring) : bool :=
  negb (truthy_str password).

(** What a request carries besides its route parameter. *)
Record Request : Type := mkRequest {
  password : option jsstring;
  ip : option jsstring;
  remoteAddress : option jsstring;
  userAgent : option jsstring
}.

(** The clock and the disk a request sees: [new Date()] and
    [fs.existsSync] of the stored path under the working directory. *)
Record Env : Type := mkEnv {
  now : Z;
  existsSync : jsstring -> bool
}.

(** [x || null] on a header value. *)
Definition or_null (x : option jsstring) : option jsstring :=
  if truthy_str x then x else None.

(** [x || y] *)
Definition or_else (x y : option jsstring) : option jsstring :=
  if truthy_str x then x else y.

Module Routes.
Section Handlers.
Context (bcrypt : Bcrypt).

(** [GET /api/download/code/:shareCode] *)
Definition download_code (env : Env) (code : jsstring) (req : Request) : Handler :=
  let* file := await GetFileByShareCode code in
  match file with
  | None => Respond (Json 404 FileNotFound)
  | Some file =>
      if past (now env) (expiresAt file) then Respond (Json 410 FileHasExpired)
      else if limit_hit (downloadLimit file) (downloadCount file)
      then Respond (Json 429 DownloadLimitExceeded)
      else
        await CreateDownloadLog
          {| log_fileId := file_id file; sharedLinkId := None;
             downloadMethod := ByCode; downloaderIp := ip req;
             downloaderUserAgent := or_null (userAgent req) |} ;;
        await UpdateFile (file_id file) (set_downloadCount (downloadCount file + 1)) ;;
        Respond (Download (storagePath file) (originalName file))
  end.

(** [POST /api/download/link/:token] *)
Definition download_link (env : Env) (token : jsstring) (req : Request) : Handler :=
  let* link := await GetSharedLink token in
  match link with
  | None => Respond (Json 404 ShareLinkNotFound)
  | Some link =>
      if negb (isActive link) then Respond (Json 404 ShareLinkNotFound)
      else if truthy_str (passwordHash link)
              && negb (DbPassword.validatePassword bcrypt (password req)
                         (or_empty (passwordHash link)))
      then Respond (Json 401 InvalidPassword)
      else if past (now env) (link_expiresAt link)
      then Respond (Json 410 ShareLinkHasExpired)
      else if limit_hit (link_downloadLimit link) (link_downloadCount link)
      then Respond (Json 429 DownloadLimitExceeded)
      else
        let* file := await GetFile (link_fileId link) in
        match file with
        | None => Respond (Json 404 FileNotFound)
        | Some file =>
            await CreateDownloadLog
              {| log_fileId := file_id file; sharedLinkId := Some (link_id link);
                 downloadMethod := ByLink; downloaderIp := ip req;
                 downloaderUserAgent := or_null (userAgent req) |} ;;
            await UpdateSharedLink (link_id link)
              (mkLinkUpdate (Some (link_downloadCount link + 1)) None) ;;
            await UpdateFile (file_id file) (set_downloadCount (downloadCount file + 1)) ;;
            Respond (Download (storagePath file) (originalName file))
        end
  end.

(** [GET /api/public/file/:shareCode] *)
Definition public_file (env : Env) (code : jsstring) (req : Request) : Handler :=
  let* file := await GetFileByShareCode code in
  match file with
  | None => Respond (Json 404 FileNotFound)
  | Some file =>
      if negb (isPublic file) then Respond (Json 403 NotPubliclyAccessible)
      else if isLocked file && missing (password req)
      then Respond (Json 401 PasswordRequired)
      else if isLocked file && negb (missing (password req))
              && negb (DbPassword.validatePassword bcrypt (password req)
                         (or_empty (shareCode file)))
      then Respond (Json 401 InvalidPassword)
      else if past (now env) (expiresAt file) then Respond (Json 410 FileHasExpired)
      else if limit_hit (downloadLimit file) (downloadCount file)
      then Respond (Json 410 DownloadLimitExceeded)
      else Respond (FileInfo file)
  end.

(** [GET /api/public/download/:shareCode] *)
Definition public_download (env : Env) (code : jsstring) (req : Request) : Handler :=
  let* file := await GetFileByShareCode code in
  match file with
  | None => Respond (Json 404 FileNotFound)
  | Some file =>
      if negb (isPublic file) then Respond (Json 403 NotPubliclyAccessible)
      else if isLocked file && missing (password req)
      then Respond (Json 401 PasswordRequired)
      else if isLocked file
              && negb (DbPassword.validatePassword bcrypt (password req)
                         (or_empty (shareCode file)))
      then Respond (Json 401 InvalidPassword)
      else if past (now env) (expiresAt file) then Respond (Json 410 FileHasExpired)
      else if limit_hit (downloadLimit file) (downloadCount file)
      then Respond (Json 410 DownloadLimitExceeded)
      else if negb (existsSync env (storagePath file))
      then Respond (Json 404 FileNotFoundOnServer)
      else
        await UpdateFile (file_id file) (set_downloadCount (downloadCount file + 1)) ;;
        await CreateDownloadLog
          {| log_fileId := file_id file; sharedLinkId := None;
             downloadMethod := ByPublicLink;
             downloaderIp := or_else (ip req) (remoteAddress req);
             downloaderUserAgent := userAgent req |} ;;
        Respond (SendFile (storagePath file) (originalName file) (fileType file))
  end.

(** [GET /api/shared/:token] *)
Definition shared_info (env : Env) (token : jsstring) (req : Request) : Handler :=
  let* sharedLink := await GetSharedLink token in
  match sharedLink with
  | None => Respond (Json 404 SharedLinkNotFound)
  | Some sharedLink =>
      if negb (isActive sharedLink) then Respond (Json 410 SharedLinkInactive)
      else if past (now env) (link_expiresAt sharedLink)
      then Respond (Json 410 SharedLinkHasExpired)
      else if limit_hit (link_downloadLimit sharedLink) (link_downloadCount sharedLink)
      then Respond (Json 410 DownloadLimitExceeded)
      else if truthy_str (passwordHash sharedLink) && missing (password req)
      then Respond (Json 401 PasswordRequired)
      else if truthy_str (passwordHash sharedLink)
              && negb (DbPassword.validatePassword bcrypt (password req)
                         (or_empty (passwordHash sharedLink)))
      then Respond (Json 401 InvalidPassword)
      else
        let* file := await GetFile (link_fileId sharedLink) in
        match file with
        | None => Respond (Json 404 FileNotFound)
        | Some file => Respond (SharedInfo file sharedLink)
        end
  end.

(** [POST /api/download/shared/:token] *)
Definition download_shared (env : Env) (token : jsstring) (req : Request) : Handler :=
  let* sharedLink := await GetSharedLink token in
  match sharedLink with
  | None => Respond (Json 404 SharedLinkNotFound)
  | Some sharedLink =>
      if negb (isActive sharedLink) then Respond (Json 404 SharedLinkNotFound)
      else if past (now env) (link_expiresAt sharedLink)
      then Respond (Json 410 SharedLinkHasExpired)
      else if limit_hit (link_downloadLimit sharedLink) (link_downloadCount sharedLink)
      then Respond (Json 410 DownloadLimitExceeded)
      else if truthy_str (passwordHash sharedLink) && missing (password req)
      then Respond (Json 401 PasswordRequired)
      else if truthy_str (passwordHash sharedLink)
              && negb (DbPassword.validateFilePassword bcrypt (password req)
                         (or_empty (passwordHash sharedLink)))
      then Respond (Json 401 InvalidPassword)
      else
        let* file := await GetFile (link_fileId sharedLink) in
        match file with
        | None => Respond (Json 404 FileNotFound)
        | Some file =>
            if negb (existsSync env (storagePath file))
            then Respond (Json 404 FileNotFoundOnServer)
            else
              await UpdateSharedLink (link_id sharedLink)
                (mkLinkUpdate (Some (link_downloadCount sharedLink + 1)) None) ;;
              await CreateDownloadLog
                {| log_fileId := file_id file; sharedLinkId := Some (link_id sharedLink);
                   downloadMethod := BySharedLink;
                   downloaderIp := or_else (ip req) (remoteAddress req);
                   downloaderUserAgent := userAgent req |} ;;
              Respond (SendFile (storagePath file) (originalName file) (fileType file))
        end
  end.

End Handlers.
End Routes.

(** ** Running handlers *)

(** One request served alone, no storage call failing. *)
Fixpoint run (h : Handler) (s : Db.Store) : Response * Db.Store :=
  match h with
  | Respond r => (r, s)
  | Await op k => let (a, s') := exec op s in run (k a) s'
  end.

(** One request served alone; the n-th flag says whether the n-th
    storage call throws (none does once the flags run out). *)
Fixpoint run_faulty (faults : list bool) (h : Handler) (s : Db.Store)
  : Response * Db.Store :=
  match h with
  | Respond r => (r, s)
  | Await op k =>
      match faults with
      | true :: _ => (Json 500 Thrown, s)
      | false :: rest => let (a, s') := exec op s in run_faulty rest (k a) s'
      | [] => let (a, s') := exec op s in run_faulty [] (k a) s'
      end
  end.

(** Requests served one after the other. *)
Fixpoint sequential (hs : list Handler) (s : Db.Store) : list Response * Db.Store :=
  match hs with
  | [] => ([], s)
  | h :: rest =>
      let (r, s1) := run h s in
      let (rs, s2) := sequential rest s1 in
      (r :: rs, s2)
  end.

(** One awaited call of one request. *)
Definition step (fault : bool) (h : Handler) (s : Db.Store) : Handler * Db.Store :=
  match h with
  | Respond r => (Respond r, s)
  | Await op k =>
      if fault then (Respond (Json 500 Thrown), s)
      else let (a, s') := exec op s in (k a, s')
  end.

(** Requests in flight together: the event loop resumes one of them at
    each await, in the order the schedule gives. *)
Fixpoint interleave (schedule : list (nat * bool)) (pool : list Handler) (s : Db.Store)
  : list Handler * Db.Store :=
  match schedule with
  | [] => (pool, s)
  | (i, fault) :: rest =>
      match pool !! i with
      | Some h =>
          let (h', s') := step fault h s in
          interleave rest (<[i := h']> pool) s'
      | None => interleave rest pool s
      end
  end.

Definition answer (h : Handler) : option Response :=
  match h with
  | Respond r => Some r
  | Await _ _ => None
  end.

(** The handler lets the request through: it ends in [res.download] or
    [res.sendFile]. *)
Definition serves (r : Response) : bool :=
  match r with
  | Download _ _ | SendFile _ _ _ => true
  | _ => false
  end.

(** The file reaches the client: [res.download] and [res.sendFile] send
    the bytes of a path that is on disk; for a path that is not, Express
    answers with the error itself, after the handler has returned. *)
Definition delivers (env : Env) (r : Response) : bool :=
  match r with
  | Download path _ | SendFile path _ _ => existsSync env path
  | _ => false
  end.

Definition is_expired (r : Response) : bool :=
  match r with
  | Json 410 FileHasExpired | Json 410 ShareLinkHasExpired
  | Json 410 SharedLinkHasExpired => true
  | _ => false
  end.

Definition is_limit_reached (r : Response) : bool :=
  match r with
  | Json _ DownloadLimitExceeded => true
  | _ => false
  end.

Definition is_password_denial (r : Response) : bool :=
  match r with
  | Json 401 PasswordRequired | Json 401 InvalidPassword => true
  | _ => false
  end.

(** ** [MemStorage]

    The five JS [Map]s of the class.  [crypto.randomUUID()] and
    [new Date()] are arguments of the operations that call them.  The
    columns that [InsertFile] leaves optional and [createFile] copies as
    they come ([isPublic], [isLocked], [downloadCount]) are given. *)

Module Mem.

Record InsertFile : Type := mkInsertFile {
  i_userId : jsstring;
  i_originalName : jsstring;
  i_fileSize : Z;
  i_fileType : jsstring;
  i_storagePath : jsstring;
  i_shareCode : option jsstring;
  i_isPublic : bool;
  i_isLocked : bool;
  i_downloadLimit : option Z;
  i_downloadCount : Z;
  i_expiresAt : option Z
}.

Record State : Type := mkState {
  files : gmap jsstring File;
  sharedLinks : gmap jsstring SharedLink;
  downloadLogs : gmap jsstring DownloadLog;
  shareCodeToFileId : gmap jsstring jsstring;
  shareTokenToLinkId : gmap jsstring jsstring
}.

(** The constructor. *)
Definition empty : State := mkState ∅ ∅ ∅ ∅ ∅.

Definition with_files (fs : gmap jsstring File) (idx : gmap jsstring jsstring)
    (st : State) : State :=
  {| files := fs; sharedLinks := sharedLinks st; downloadLogs := downloadLogs st;
     shareCodeToFileId := idx; shareTokenToLinkId := shareTokenToLinkId st |}.

(** [Map.delete(key)] for a key read from a stored object; no entry is
    ever set under [undefined]. *)
Definition forget (key : option jsstring) (m : gmap jsstring jsstring)
  : gmap jsstring jsstring :=
  match key with
  | Some k => delete k m
  | None => m
  end.

Definition getFile (id : jsstring) (st : State) : option File := files st !! id.

Definition getFileByShareCode (code : jsstring) (st : State) : option File :=
  match shareCodeToFileId st !! code with
  | Some (c :: fileId) => files st !! (c :: fileId)
  | _ => None                               (* if (!fileId) return undefined *)
  end.

Definition createFile (id : jsstring) (now : Z) (insertFile : InsertFile) (st : State)
  : File * State :=
  let file :=
    {| file_id := id;
       userId := i_userId insertFile;
       originalName := i_originalName insertFile;
       fileSize := i_fileSize insertFile;
       fileType := i_fileType insertFile;
       storagePath := i_storagePath insertFile;
       shareCode := i_shareCode insertFile;
       isPublic := i_isPublic insertFile;
       isLocked := i_isLocked insertFile;
       downloadLimit := i_downloadLimit insertFile;
       downloadCount := i_downloadCount insertFile;
       expiresAt := i_expiresAt insertFile;
       createdAt := now;
       updatedAt := now |} in
  let fs := <[id := file]> (files st) in
  let idx :=
    if truthy_str (shareCode file)
    then <[or_empty (shareCode file) := id]> (shareCodeToFileId st)
    else shareCodeToFileId st in
  (file, with_files fs idx st).

(** [fileUpdate.shareCode !== existing.shareCode], for a truthy
    [existing.shareCode]: an absent or null key differs from any string. *)
Definition code_differs (u : FileUpdate) (existing : File) : bool :=
  match u_shareCode u with
  | Some (Some c) => negb (str_eqb c (or_empty (shareCode existing)))
  | _ => true
  end.

Definition updateFile (id : jsstring) (fileUpdate : FileUpdate) (now : Z) (st : State)
  : option File * State :=
  match files st !! id with
  | None => (None, st)
  | Some existing =>
      let idx1 :=
        if truthy_str (shareCode existing) && code_differs fileUpdate existing
        then delete (or_empty (shareCode existing)) (shareCodeToFileId st)
        else shareCodeToFileId st in
      let updated := touch now (apply_file_update existing fileUpdate) in
      let idx2 :=
        if truthy_str (shareCode updated)
        then <[or_empty (shareCode updated) := id]> idx1
        else idx1 in
      (Some updated, with_files (<[id := updated]> (files st)) idx2 st)
  end.

Definition deleteFile (id : jsstring) (st : State) : bool * State :=
  match files st !! id with
  | None => (false, st)
  | Some file =>
      let idx :=
        if truthy_str (shareCode file)
        then delete (or_empty (shareCode file)) (shareCodeToFileId st)
        else shareCodeToFileId st in
      let linksToDelete :=
        filter (fun l => link_fileId l = id) (map snd (map_to_list (sharedLinks st))) in
      let links :=
        foldr (fun l m => delete (link_id l) m) (sharedLinks st) linksToDelete in
      let tokens :=
        foldr (fun l m => forget (shareToken l) m) (shareTokenToLinkId st) linksToDelete in
      let logsToDelete :=
        filter (fun l => log_fileId (log_entry l) = id)
               (map snd (map_to_list (downloadLogs st))) in
      let logs := foldr (fun l m => delete (log_id l) m) (downloadLogs st) logsToDelete in
      (true,
       {| files := delete id (files st); sharedLinks := links; downloadLogs := logs;
          shareCodeToFileId := idx; shareTokenToLinkId := tokens |})
  end.

(** A call of one of the three file operations. *)
Inductive Call : Type :=
| CreateFile (id : jsstring) (now : Z) (insertFile : InsertFile)
| UpdateFile (id : jsstring) (fileUpdate : FileUpdate) (now : Z)
| DeleteFile (id : jsstring).

Definition call (c : Call) (st : State) : State :=
  match c with
  | CreateFile id now insertFile => snd (createFile id now insertFile st)
  | UpdateFile id fileUpdate now => snd (updateFile id fileUpdate now st)
  | DeleteFile id => snd (deleteFile id st)
  end.

Fixpoint calls (cs : list Call) (st : State) : State :=
  match cs with
  | [] => st
  | c :: rest => calls rest (call c st)
  end.

(** [randomUUID] returns an id that no stored file has. *)
Definition fresh_uuid (c : Call) (st : State) : bool :=
  match c with
  | CreateFile id _ _ =>
      match files st !! id with
      | None => true
      | Some _ => false
      end
  | _ => true
  end.

Fixpoint fresh_uuids (cs : list Call) (st : State) : bool :=
  match cs with
  | [] => true
  | c :: rest => fresh_uuid c st && fresh_uuids rest (call c st)
  end.


(** *** Shared links and download logs *)

Record InsertSharedLink : Type := mkInsertSharedLink {
  i_fileId : jsstring;
  i_linkType : jsstring;
  i_shareToken : jsstring;
  i_recipientEmail : option jsstring;
  i_passwordHash : option jsstring;
  i_link_expiresAt : option Z;
  i_link_downloadLimit : option Z;
  i_link_downloadCount : Z;
  i_isActive : bool
}.

(** [Partial<InsertSharedLink>]: an absent key is [None].  For
    [shareToken] a key that is present holds a string or [undefined]
    ([Some None]); for the other columns that are not nullable a key
    holding [undefined] is not modelled. *)
Record SharedLinkUpdate : Type := mkSharedLinkUpdate {
  p_fileId : option jsstring;
  p_linkType : option jsstring;
  p_shareToken : option (option jsstring);
  p_recipientEmail : option (option jsstring);
  p_passwordHash : option (option jsstring);
  p_expiresAt : option (option Z);
  p_downloadLimit : option (option Z);
  p_downloadCount : option Z;
  p_isActive : option bool
}.

(** [{ shareToken: t }] *)
Definition set_shareToken (t : option jsstring) : SharedLinkUpdate :=
  mkSharedLinkUpdate None None (Some t) None None None None None None.

(** [linkUpdate.shareToken]: [undefined] when the key is absent. *)
Definition read_shareToken (u : SharedLinkUpdate) : option jsstring :=
  match p_shareToken u with
  | Some t => t
  | None => None
  end.

(** The spread [{ ...existing, ...linkUpdate }]. *)
Definition apply_update (existing : SharedLink) (u : SharedLinkUpdate) : SharedLink :=
  {| link_id := link_id existing;
     link_fileId := default (link_fileId existing) (p_fileId u);
     linkType := default (linkType existing) (p_linkType u);
     shareToken := default (shareToken existing) (p_shareToken u);
     recipientEmail := default (recipientEmail existing) (p_recipientEmail u);
     passwordHash := default (passwordHash existing) (p_passwordHash u);
     link_expiresAt := default (link_expiresAt existing) (p_expiresAt u);
     link_downloadLimit := default (link_downloadLimit existing) (p_downloadLimit u);
     link_downloadCount := default (link_downloadCount existing) (p_downloadCount u);
     isActive := default (isActive existing) (p_isActive u);
     link_createdAt := link_createdAt existing |}.

Definition with_links (ls : gmap jsstring SharedLink) (idx : gmap jsstring jsstring)
    (st : State) : State :=
  {| files := files st; sharedLinks := ls; downloadLogs := downloadLogs st;
     shareCodeToFileId := shareCodeToFileId st; shareTokenToLinkId := idx |}.

Definition getSharedLink (token : jsstring) (st : State) : option SharedLink :=
  match shareTokenToLinkId st !! token with
  | Some (c :: linkId) => sharedLinks st !! (c :: linkId)
  | _ => None                               (* if (!linkId) return undefined *)
  end.

(** The two listings enumerate a [Map]; the order of the result is the
    map's and only its members are used below. *)
Definition getFileSharedLinks (fileId : jsstring) (st : State) : list SharedLink :=
  filter (fun l => link_fileId l = fileId) (map snd (map_to_list (sharedLinks st))).

Definition getFileDownloadLogs (fileId : jsstring) (st : State) : list DownloadLog :=
  filter (fun l => log_fileId (log_entry l) = fileId)
         (map snd (map_to_list (downloadLogs st))).

Definition createSharedLink (id : jsstring) (now : Z) (insertLink : InsertSharedLink)
    (st : State) : SharedLink * State :=
  let link :=
    {| link_id := id;
       link_fileId := i_fileId insertLink;
       linkType := i_linkType insertLink;
       shareToken := Some (i_shareToken insertLink);
       recipientEmail := i_recipientEmail insertLink;
       passwordHash := i_passwordHash insertLink;
       link_expiresAt := i_link_expiresAt insertLink;
       link_downloadLimit := i_link_downloadLimit insertLink;
       link_downloadCount := i_link_downloadCount insertLink;
       isActive := i_isActive insertLink;
       link_createdAt := now |} in
  (link,
   with_links (<[id := link]> (sharedLinks st))
              (<[i_shareToken insertLink := id]> (shareTokenToLinkId st)) st).

(** [linkUpdate.shareToken && linkUpdate.shareToken !== existing.shareToken] *)
Definition token_changes (u : SharedLinkUpdate) (existing : SharedLink) : bool :=
  truthy_str (read_shareToken u)
  && negb (bool_decide (read_shareToken u = shareToken existing)).

Definition updateSharedLink (id : jsstring) (linkUpdate : SharedLinkUpdate) (st : State)
  : option SharedLink * State :=
  match sharedLinks st !! id with
  | None => (None, st)
  | Some existing =>
      let idx :=
        if token_changes linkUpdate existing
        then <[or_empty (read_shareToken linkUpdate) := id]>
               (forget (shareToken existing) (shareTokenToLinkId st))
        else shareTokenToLinkId st in
      let updated := apply_update existing linkUpdate in
      (Some updated, with_links (<[id := updated]> (sharedLinks st)) idx st)
  end.

Definition deleteSharedLink (id : jsstring) (st : State) : bool * State :=
  match sharedLinks st !! id with
  | None => (false, st)
  | Some link =>
      (true,
       with_links (delete id (sharedLinks st))
                  (forget (shareToken link) (shareTokenToLinkId st)) st)
  end.

Definition createDownloadLog (id : jsstring) (now : Z) (insertLog : InsertDownloadLog)
    (st : State) : DownloadLog * State :=
  let log := {| log_id := id; log_entry := insertLog; downloadedAt := now |} in
  (log,
   {| files := files st; sharedLinks := sharedLinks st;
      downloadLogs := <[id := log]> (downloadLogs st);
      shareCodeToFileId := shareCodeToFileId st;
      shareTokenToLinkId := shareTokenToLinkId st |}).

(** A call of any of the operations that write. *)
Inductive Op : Type :=
| OnFile (c : Call)
| CreateSharedLink (id : jsstring) (now : Z) (insertLink : InsertSharedLink)
| UpdateSharedLink (id : jsstring) (linkUpdate : SharedLinkUpdate)
| DeleteSharedLink (id : jsstring)
| CreateDownloadLog (id : jsstring) (now : Z) (insertLog : InsertDownloadLog).

Definition perform (o : Op) (st : State) : State :=
  match o with
  | OnFile c => call c st
  | CreateSharedLink id now insertLink => snd (createSharedLink id now insertLink st)
  | UpdateSharedLink id linkUpdate => snd (updateSharedLink id linkUpdate st)
  | DeleteSharedLink id => snd (deleteSharedLink id st)
  | CreateDownloadLog id now insertLog => snd (createDownloadLog id now insertLog st)
  end.

Fixpoint performs (os : list Op) (st : State) : State :=
  match os with
  | [] => st
  | o :: rest => performs rest (perform o st)
  end.

Definition unused {V} (id : jsstring) (m : gmap jsstring V) : bool :=
  match m !! id with
  | None => true
  | Some _ => false
  end.

(** [randomUUID] returns an id that the map it is stored in does not
    have. *)
Definition fresh (o : Op) (st : State) : bool :=
  match o with
  | OnFile c => fresh_uuid c st
  | CreateSharedLink id _ _ => unused id (sharedLinks st)
  | CreateDownloadLog id _ _ => unused id (downloadLogs st)
  | _ => true
  end.

Fixpoint all_fresh (os : list Op) (st : State) : bool :=
  match os with
  | [] => true
  | o :: rest => fresh o st && all_fresh rest (perform o st)
  end.

(** No update carries a [shareToken] key whose value is falsy, the
    empty string or [undefined]. *)
Definition keeps_token (o : Op) : bool :=
  match o with
  | UpdateSharedLink _ linkUpdate =>
      match p_shareToken linkUpdate with
      | Some t => truthy_str t
      | None => true
      end
  | _ => true
  end.

End Mem.

(** ** Predicates of the statements *)

(** Handlers that only read. *)

Definition is_read {A} (op : StorageOp A) : Prop :=
  match op with
  | GetFileByShareCode _ | GetFile _ | GetSharedLink _ => True
  | _ => False
  end.

Fixpoint reads_only (h : Handler) : Prop :=
  match h with
  | Respond _ => True
  | Await op k => is_read op /\ forall a, reads_only (k a)
  end.

(** The log entries and counter updates the download routes write. *)

Definition code_log (req : Request) (f : File) : InsertDownloadLog :=
  {| log_fileId := file_id f; sharedLinkId := None; downloadMethod := ByCode;
     downloaderIp := ip req; downloaderUserAgent := or_null (userAgent req) |}.

Definition link_log (req : Request) (f : File) (l : SharedLink) : InsertDownloadLog :=
  {| log_fileId := file_id f; sharedLinkId := Some (link_id l);
     downloadMethod := ByLink; downloaderIp := ip req;
     downloaderUserAgent := or_null (userAgent req) |}.

Definition bump_file (f : File) : FileUpdate := set_downloadCount (downloadCount f + 1).

Definition bump_link (l : SharedLink) : LinkUpdate :=
  mkLinkUpdate (Some (link_downloadCount l + 1)) None.

(** One more log entry for the file found by [code], and its counter one
    higher. *)
Definition file_granted_once (code : jsstring) (s s' : Db.Store) : Prop :=
  exists f entry,
    Db.getFileByShareCode code s = Some f
    /\ log_fileId entry = file_id f
    /\ Db.downloadLogs s' = Db.downloadLogs s ++ [entry]
    /\ exists f', Db.getFileByShareCode code s' = Some f'
                  /\ downloadCount f' = downloadCount f + 1.

(** One more log entry for the link found by [token], and its counter
    one higher. *)
Definition link_granted_once (token : jsstring) (s s' : Db.Store) : Prop :=
  exists l entry,
    Db.getSharedLink token s = Some l
    /\ sharedLinkId entry = Some (link_id l)
    /\ Db.downloadLogs s' = Db.downloadLogs s ++ [entry]
    /\ exists l', Db.getSharedLink token s' = Some l'
                  /\ link_downloadCount l' = link_downloadCount l + 1.

(** The invariant of the data model: the counter is not negative and
    not above a limit that is set. *)
Definition within_limit (limit : option Z) (count : Z) : Prop :=
  0 <= count /\ forall L, limit = Some L -> count <= L.

(** The same for the limits the guard looks at, the non-zero ones. *)
Definition within_checked_limit (limit : option Z) (count : Z) : Prop :=
  0 <= count /\ forall L, limit = Some L -> L <> 0 -> count <= L.

Definition files_ok (s : Db.Store) : Prop :=
  Forall (fun f => within_checked_limit (downloadLimit f) (downloadCount f)) (Db.files s).

Definition links_ok (s : Db.Store) : Prop :=
  Forall (fun l => within_checked_limit (link_downloadLimit l) (link_downloadCount l))
         (Db.sharedLinks s).

(** Row by row: a file, resp. a link, that is within its checked limit
    in the first store is within it in the second. *)
Definition files_kept (s s' : Db.Store) : Prop :=
  Forall2 (fun f f' =>
             within_checked_limit (downloadLimit f) (downloadCount f) ->
             within_checked_limit (downloadLimit f') (downloadCount f'))
          (Db.files s) (Db.files s').

Definition links_kept (s s' : Db.Store) : Prop :=
  Forall2 (fun l l' =>
             within_checked_limit (link_downloadLimit l) (link_downloadCount l) ->
             within_checked_limit (link_downloadLimit l') (link_downloadCount l'))
          (Db.sharedLinks s) (Db.sharedLinks s').

(** Every store that the calls of a handler leave, one after the other
    from [s] on, satisfies [P]. *)
Fixpoint kept_along (P : Db.Store -> Prop) (h : Handler) (s : Db.Store) : Prop :=
  match h with
  | Respond _ => True
  | Await op k =>
      P (snd (exec op s)) /\ kept_along P (k (fst (exec op s))) (snd (exec op s))
  end.

(** [id] is the primary key of both tables. *)
Definition primary_keys (s : Db.Store) : Prop :=
  NoDup (map file_id (Db.files s)) /\ NoDup (map link_id (Db.sharedLinks s)).

(** The link under [token] is active, lets the request's password
    through, has not expired, has limit [L] and counter [c], and its
    file is stored. *)
Definition link_open (bcrypt : Bcrypt) (env : Env) (req : Request) (token : jsstring)
    (L : Z) (path name : jsstring) (s : Db.Store) (c : Z) : Prop :=
  exists l f,
    Db.getSharedLink token s = Some l
    /\ isActive l = true
    /\ truthy_str (passwordHash l)
       && negb (DbPassword.validatePassword bcrypt (password req)
                  (or_empty (passwordHash l))) = false
    /\ past (now env) (link_expiresAt l) = false
    /\ link_downloadLimit l = Some L
    /\ link_downloadCount l = c
    /\ Db.getFile (link_fileId l) s = Some f
    /\ storagePath f = path
    /\ originalName f = name.

(** Every entry of [shareCodeToFileId] has a non-empty code and points
    to a stored file that carries that code. *)
Definition index_sound (st : Mem.State) : Prop :=
  forall c id,
    Mem.shareCodeToFileId st !! c = Some id ->
    c <> [] /\ exists f, Mem.files st !! id = Some f /\ shareCode f = Some c.

(** The invariants of [MemStorage]: every entry of [shareTokenToLinkId]
    points to a stored link carrying that token, and links and logs are
    stored under their own [id]. *)
Definition token_sound (st : Mem.State) : Prop :=
  forall t id,
    Mem.shareTokenToLinkId st !! t = Some id ->
    exists l, Mem.sharedLinks st !! id = Some l /\ shareToken l = Some t.

Definition link_keys (st : Mem.State) : Prop :=
  forall k l, Mem.sharedLinks st !! k = Some l -> link_id l = k.

Definition log_keys (st : Mem.State) : Prop :=
  forall k l, Mem.downloadLogs st !! k = Some l -> log_id l = k.

(** ** Scenarios

    Concrete values used by the examples below. *)

(** An instance of the library interface: the "hash" is the password
    behind a dollar sign, and comparing throws when the data is missing
    or the hash does not start with the dollar sign. *)
Definition toy_bcrypt : Bcrypt :=
  {| hashSync := fun data _ _ => 36%N :: data;
     compareSync := fun data hash =>
       match data, hash with
       | Some p, 36%N :: h => Some (str_eqb p h)
       | _, _ => None
       end |}.

(** The one-character password U+20AC. *)
Definition euro : jsstring := [8364%N].

(** An instance that, like the bcrypt library, reads no more than the
    first 72 bytes of a password. *)
Definition first72_bcrypt : Bcrypt :=
  {| hashSync := fun data _ _ => 36%N :: take 72 data;
     compareSync := fun data hash =>
       match data, hash with
       | Some p, 36%N :: h => Some (str_eqb (take 72 p) h)
       | _, _ => None
       end |}.

(** Two passwords of 73 letters that differ in the last one. *)
Definition long_password (last : string) : jsstring := replicate 72 97%N ++ js last.

(** The clock reads 1000 and every stored path is on disk. *)
Definition env0 : Env := {| now := 1000; existsSync := fun _ => true |}.

Definition anonymous : Request :=
  {| password := None; ip := None; remoteAddress := None; userAgent := None |}.

Definition with_password (p : jsstring) : Request :=
  {| password := Some p; ip := None; remoteAddress := None; userAgent := None |}.

Definition plain_file : File :=
  {| file_id := js "f1"; userId := js "u1"; originalName := js "a.txt";
     fileSize := 10; fileType := js "text/plain"; storagePath := js "uploads/a";
     shareCode := Some (js "ABCD1234"); isPublic := true; isLocked := false;
     downloadLimit := None; downloadCount := 0; expiresAt := None;
     createdAt := 0; updatedAt := 0 |}.

Definition lock (f : File) : File :=
  {| file_id := file_id f; userId := userId f; originalName := originalName f;
     fileSize := fileSize f; fileType := fileType f; storagePath := storagePath f;
     shareCode := shareCode f; isPublic := isPublic f; isLocked := true;
     downloadLimit := downloadLimit f; downloadCount := downloadCount f;
     expiresAt := expiresAt f; createdAt := createdAt f; updatedAt := updatedAt f |}.

Definition with_limit (n : Z) (f : File) : File :=
  {| file_id := file_id f; userId := userId f; originalName := originalName f;
     fileSize := fileSize f; fileType := fileType f; storagePath := storagePath f;
     shareCode := shareCode f; isPublic := isPublic f; isLocked := isLocked f;
     downloadLimit := Some n; downloadCount := downloadCount f;
     expiresAt := expiresAt f; createdAt := createdAt f; updatedAt := updatedAt f |}.

(** A locked public file that expired at 500. *)
Definition expired_locked_file : File :=
  apply_file_update (lock plain_file)
    (mkFileUpdate None None None None None None None None None None (Some (Some 500))).

(** A file that allows one download and has had it. *)
Definition spent_file : File :=
  apply_file_update (with_limit 1 plain_file) (set_downloadCount 1).

Definition plain_link : SharedLink :=
  {| link_id := js "l1"; link_fileId := js "f1"; linkType := js "public";
     shareToken := Some (js "tok"); recipientEmail := None; passwordHash := None;
     link_expiresAt := None; link_downloadLimit := None; link_downloadCount := 0;
     isActive := true; link_createdAt := 0 |}.

(** A link protected by the password "secret" that expired at 500. *)
Definition expired_link : SharedLink :=
  {| link_id := js "l1"; link_fileId := js "f1"; linkType := js "public";
     shareToken := Some (js "tok"); recipientEmail := None;
     passwordHash := Some (DbPassword.hashPassword toy_bcrypt (js "secret") (js "s"));
     link_expiresAt := Some 500; link_downloadLimit := None; link_downloadCount := 0;
     isActive := true; link_createdAt := 0 |}.

(** A link that allows one download. *)
Definition one_shot_link : SharedLink :=
  {| link_id := js "l1"; link_fileId := js "f1"; linkType := js "public";
     shareToken := Some (js "tok"); recipientEmail := None; passwordHash := None;
     link_expiresAt := None; link_downloadLimit := Some 1; link_downloadCount := 0;
     isActive := true; link_createdAt := 0 |}.

Definition store_of (f : File) (links : list SharedLink) : Db.Store :=
  {| Db.files := [f]; Db.sharedLinks := links; Db.downloadLogs := [] |}.

(** Two files are created with the same code, the first one is given a
    new code, and the second one is deleted. *)
Definition insert_with_code (c : string) : Mem.InsertFile :=
  {| Mem.i_userId := js "u1"; Mem.i_originalName := js "a.txt"; Mem.i_fileSize := 10;
     Mem.i_fileType := js "text/plain"; Mem.i_storagePath := js "uploads/a";
     Mem.i_shareCode := Some (js c); Mem.i_isPublic := true; Mem.i_isLocked := false;
     Mem.i_downloadLimit := None; Mem.i_downloadCount := 0; Mem.i_expiresAt := None |}.

Definition share_code_calls : list Mem.Call :=
  [Mem.CreateFile (js "id-1") 1 (insert_with_code "CODE0001");
   Mem.CreateFile (js "id-2") 2 (insert_with_code "CODE0001");
   Mem.UpdateFile (js "id-1") (set_shareCode (Some (js "CODE0002"))) 3;
   Mem.DeleteFile (js "id-2")].

(** Two requests for the one-shot link, both past their first await
    before either writes. *)
Definition racing_schedule : list (nat * bool) :=
  [(0, false); (1, false);
   (0, false); (0, false); (0, false); (0, false);
   (1, false); (1, false); (1, false); (1, false)]%nat.

(** Two requests by share code, both past their first await before
    either writes. *)
Definition racing_code_schedule : list (nat * bool) :=
  [(0, false); (1, false);
   (0, false); (0, false);
   (1, false); (1, false)]%nat.

(** The clock reads 1000 and nothing is on disk. *)
Definition bare_env : Env := {| now := 1000; existsSync := fun _ => false |}.

(** ** Further routes and operations *)

(** Handlers whose writes are log entries and counters. *)

Definition is_count_write {A} (op : StorageOp A) : Prop :=
  match op with
  | GetFileByShareCode _ | GetFile _ | GetSharedLink _ | CreateDownloadLog _ => True
  | UpdateFile _ u => exists n, u = set_downloadCount n
  | UpdateSharedLink _ u => exists n, u = mkLinkUpdate (Some n) None
  end.

Fixpoint counts_only (h : Handler) : Prop :=
  match h with
  | Respond _ => True
  | Await op k => is_count_write op /\ forall a, counts_only (k a)
  end.

(** A row with its counter blanked. *)
Definition file_sans_count (f : File) : File := apply_file_update f (set_downloadCount 0).

Definition link_sans_count (l : SharedLink) : SharedLink :=
  apply_link_update l (mkLinkUpdate (Some 0) None).

(** The two stores have the same rows up to the counters, and the second
    one has the log entries of the first followed by new ones. *)
Definition same_but_counts (s s' : Db.Store) : Prop :=
  map file_sans_count (Db.files s') = map file_sans_count (Db.files s)
  /\ map link_sans_count (Db.sharedLinks s') = map link_sans_count (Db.sharedLinks s)
  /\ exists new, Db.downloadLogs s' = Db.downloadLogs s ++ new.

(** The four routes that send a file and the two that describe one. *)
Definition public_routes (bcrypt : Bcrypt) (env : Env) (id : jsstring) (req : Request)
  : list Handler :=
  [Routes.download_code env id req;
   Routes.download_link bcrypt env id req;
   Routes.public_file bcrypt env id req;
   Routes.public_download bcrypt env id req;
   Routes.shared_info bcrypt env id req;
   Routes.download_shared bcrypt env id req].

(** ** Deleting and listing in [DatabaseStorage]

    [shared/schema.ts] declares [onDelete: "cascade"] on
    [shared_links.file_id] and [download_logs.file_id] and
    [onDelete: "set null"] on [download_logs.shared_link_id], so deleting
    a [files] row takes its links and logs with it and clears the link
    reference of the logs that stay. *)

Module DbAdmin.

Definition of_file (id : jsstring) (l : SharedLink) : bool := str_eqb (link_fileId l) id.

Definition logged_for (id : jsstring) (g : InsertDownloadLog) : bool :=
  str_eqb (log_fileId g) id.

Definition refers_to (links : list SharedLink) (g : InsertDownloadLog) : bool :=
  match sharedLinkId g with
  | Some lid => existsb (Db.has_link_id lid) links
  | None => false
  end.

Definition clear_link (g : InsertDownloadLog) : InsertDownloadLog :=
  {| log_fileId := log_fileId g; sharedLinkId := None;
     downloadMethod := downloadMethod g; downloaderIp := downloaderIp g;
     downloaderUserAgent := downloaderUserAgent g |}.

(** [db.delete(files).where(eq(files.id, id)).returning()], with
    [result.length > 0] as the answer. *)
Definition deleteFile (id : jsstring) (s : Db.Store) : bool * Db.Store :=
  let gone := List.filter (of_file id) (Db.sharedLinks s) in
  (existsb (Db.has_id id) (Db.files s),
   {| Db.files := List.filter (fun f => negb (Db.has_id id f)) (Db.files s);
      Db.sharedLinks := List.filter (fun l => negb (of_file id l)) (Db.sharedLinks s);
      Db.downloadLogs :=
        map (fun g => if refers_to gone g then clear_link g else g)
            (List.filter (fun g => negb (logged_for id g)) (Db.downloadLogs s)) |}).

Definition getUserFiles (user : jsstring) (s : Db.Store) : list File :=
  List.filter (fun f => str_eqb (userId f) user) (Db.files s).

Definition getFileDownloadLogs (id : jsstring) (s : Db.Store) : list InsertDownloadLog :=
  List.filter (logged_for id) (Db.downloadLogs s).

End DbAdmin.

(** ** The owner's routes

    The routes behind [authenticateToken], as functions of the user id
    it puts in [req.user].  [files.id] is a [uuid] column and the [:id]
    of the URL is any string: the database reads it as a uuid before it
    compares, and a string it cannot read makes the query throw.
    [files_list], [file_get], [file_delete] and [analytics] take the
    id they query by as the database has read it and are the routes when
    no storage call throws; [list_request], [get_request],
    [delete_request] and [analytics_request] take it as the request
    gives it. *)

Module Account.

(** The database and the upload directory. *)
Record World : Type := mkWorld {
  store : Db.Store;
  disk : jsstring -> bool
}.

Inductive Reply : Type :=
| NotFound                                   (* 404 'File not found' *)
| FileJson (f : File)
| FilesJson (fs : list File)
| LogsJson (logs : list InsertDownloadLog)
| Success                                    (* { success: true } *)
| Threw.                                     (* 500, error.message *)

(** [!file || file.userId !== req.user.id] *)
Definition not_owned (user : jsstring) (file : option File) : bool :=
  match file with
  | Some f => negb (str_eqb (userId f) user)
  | None => true
  end.

(** [fs.unlinkSync(path)] inside [try {} catch (e) {}]. *)
Definition unlink (path : jsstring) (d : jsstring -> bool) : jsstring -> bool :=
  fun p => if str_eqb p path then false else d p.

(** [GET /api/files] *)
Definition files_list (user : jsstring) (w : World) : Reply :=
  FilesJson (DbAdmin.getUserFiles user (store w)).

(** [GET /api/files/:id] *)
Definition file_get (user id : jsstring) (w : World) : Reply :=
  let file := Db.getFile id (store w) in
  if not_owned user file then NotFound
  else match file with Some f => FileJson f | None => NotFound end.

(** [DELETE /api/files/:id] *)
Definition file_delete (user id : jsstring) (w : World) : Reply * World :=
  let file := Db.getFile id (store w) in
  if not_owned user file then (NotFound, w)
  else match file with
       | Some f =>
           (Success,
            {| store := snd (DbAdmin.deleteFile id (store w));
               disk := unlink (storagePath f) (disk w) |})
       | None => (NotFound, w)
       end.

(** [GET /api/analytics/downloads/:fileId] *)
Definition analytics (user fileId : jsstring) (w : World) : Reply :=
  if not_owned user (Db.getFile fileId (store w)) then NotFound
  else LogsJson (DbAdmin.getFileDownloadLogs fileId (store w)).

Section Url.

(** How the database reads a string as a uuid: the text of the uuid, as
    the [id] columns hold it, or [None] for a string it rejects. *)
Context (uuid_in : jsstring -> option jsstring).

Definition list_request (user : jsstring) (w : World) : Reply :=
  match uuid_in user with
  | Some u => files_list u w
  | None => Threw
  end.

Definition get_request (user id : jsstring) (w : World) : Reply :=
  match uuid_in id with
  | Some u => file_get user u w
  | None => Threw
  end.

Definition delete_request (user id : jsstring) (w : World) : Reply * World :=
  match uuid_in id with
  | Some u => file_delete user u w
  | None => (Threw, w)
  end.

Definition analytics_request (user fileId : jsstring) (w : World) : Reply :=
  match uuid_in fileId with
  | Some u => analytics user u w
  | None => Threw
  end.

End Url.

End Account.

(** ** [EmailService]

    [nodemailer] is external: whether [createTransport] throws and
    whether [sendMail] rejects are given, and the messages handed to
    [sendMail] are recorded. *)

Module Email.

(** The [SMTP_*] variables of [process.env] that decide the
    configuration. *)
Record Smtp : Type := mkSmtp {
  SMTP_HOST : option jsstring;
  SMTP_USER : option jsstring;
  SMTP_PASS : option jsstring
}.

Record Service : Type := mkService {
  transporter : bool;                 (* [this.transporter] is not null *)
  isConfigured : bool
}.

(** [initialize()]: the transporter is created only if host, user and
    password are all non-empty; a throw of [createTransport] is caught. *)
Definition initialize (env : Smtp) (createTransport_throws : bool) : Service :=
  if truthy_str (Some (or_empty (SMTP_HOST env)))
     && truthy_str (Some (or_empty (SMTP_USER env)))
     && truthy_str (Some (or_empty (SMTP_PASS env)))
  then if createTransport_throws then mkService false false else mkService true true
  else mkService false false.

Record Mail : Type := mkMail {
  mail_to : jsstring;
  mail_from : jsstring;
  mail_file : jsstring;
  mail_url : jsstring;
  mail_message : option jsstring
}.

(** [sendFileShareEmail]: [false] without a call when the service is not
    configured; otherwise [sendMail] is called, and a rejection is
    caught and answered [false]. *)
Definition sendFileShareEmail (svc : Service) (sendMail_rejects : bool) (m : Mail)
    (outbox : list Mail) : bool * list Mail :=
  if negb (isConfigured svc) || negb (transporter svc) then (false, outbox)
  else (negb sendMail_rejects, outbox ++ [m]).

Definition isEmailConfigured (svc : Service) : bool := isConfigured svc.

End Email.

(** ** [POST /api/share/email] *)

Module Share.

(** [db.insert(sharedLinks).values(...)]: [id] is the primary key,
    [share_token] is unique and not null and [file_id] references
    [files].  A violated constraint throws ([None]). *)
Definition createSharedLink (row : SharedLink) (s : Db.Store) : option Db.Store :=
  if existsb (Db.has_link_id (link_id row)) (Db.sharedLinks s)
     || match shareToken row with
        | Some t => existsb (Db.has_token t) (Db.sharedLinks s)
        | None => true
        end
     || negb (existsb (Db.has_id (link_fileId row)) (Db.files s))
  then None
  else Some {| Db.files := Db.files s;
               Db.sharedLinks := Db.sharedLinks s ++ [row];
               Db.downloadLogs := Db.downloadLogs s |}.

(** [db.delete(sharedLinks).where(eq(sharedLinks.id, id))]; the logs that
    referred to the link keep their row with the reference cleared. *)
Definition deleteSharedLink (id : jsstring) (s : Db.Store) : Db.Store :=
  {| Db.files := Db.files s;
     Db.sharedLinks := List.filter (fun l => negb (Db.has_link_id id l)) (Db.sharedLinks s);
     Db.downloadLogs :=
       map (fun g => if DbAdmin.refers_to
                          (List.filter (Db.has_link_id id) (Db.sharedLinks s)) g
                     then DbAdmin.clear_link g else g)
           (Db.downloadLogs s) |}.

(** The fields of the request body.  [expiresAt] is a date string, given
    by the time it denotes, and [downloadLimit] a number; an absent or
    empty field is [None], and a value that is no date or no number is
    not modelled. *)
Record Body : Type := mkBody {
  b_fileId : jsstring;
  b_recipientEmail : jsstring;
  b_message : option jsstring;
  b_password : option jsstring;
  b_expiresAt : option Z;
  b_downloadLimit : option Z
}.

(** [req.user] and the profile ids of the [profiles] table. *)
Record Caller : Type := mkCaller {
  user_id : jsstring;
  user_email : jsstring
}.

(** What the route draws from outside: the random token, the id and time
    the database gives the new row, the bcrypt salt, the base URL, and
    how the mail library behaves. *)
Record Draw : Type := mkDraw {
  token : jsstring;
  new_id : jsstring;
  created : Z;
  salt : jsstring;
  base_url : jsstring;
  sendMail_rejects : bool
}.

Record World : Type := mkWorld {
  store : Db.Store;
  profiles : list jsstring;
  outbox : list Email.Mail
}.

Inductive Reply : Type :=
| FileNotFound                          (* 404 'File not found' *)
| ProfileNotFound                       (* 404 'User profile not found' *)
| EmailFailed (emailConfigured : bool)  (* 500 'Failed to send email. ...' *)
| Shared (sharedLink : SharedLink) (shareUrl : jsstring)
| Created (sharedLink : SharedLink)     (* res.json(sharedLink) *)
| Threw.                                (* the catch block, error.message *)

(** [x || null] on a number. *)
Definition nonzero (x : option Z) : option Z := if truthy_num x then x else None.

Section Route.
Context (bcrypt : Bcrypt) (svc : Email.Service).

Definition sharedLinkData (body : Body) (d : Draw) : SharedLink :=
  {| link_id := new_id d;
     link_fileId := b_fileId body;
     linkType := js "email";
     shareToken := Some (token d);
     recipientEmail := Some (b_recipientEmail body);
     passwordHash :=
       if truthy_str (b_password body)
       then Some (DbPassword.hashFilePassword bcrypt (or_empty (b_password body)) (salt d))
       else None;
     link_expiresAt := b_expiresAt body;
     link_downloadLimit := nonzero (b_downloadLimit body);
     link_downloadCount := 0;
     isActive := true;
     link_createdAt := created d |}.

Definition share_email (caller : Caller) (body : Body) (d : Draw) (w : World)
  : Reply * World :=
  match Db.getFile (b_fileId body) (store w) with
  | None => (FileNotFound, w)
  | Some file =>
      if negb (str_eqb (userId file) (user_id caller)) then (FileNotFound, w)
      else if negb (existsb (fun p => str_eqb p (user_id caller)) (profiles w))
      then (ProfileNotFound, w)
      else
        let sharedLink := sharedLinkData body d in
        match createSharedLink sharedLink (store w) with
        | None => (Threw, w)
        | Some s1 =>
            let shareUrl := base_url d ++ js "/receive/" ++ token d in
            let mail := {| Email.mail_to := b_recipientEmail body;
                           Email.mail_from := user_email caller;
                           Email.mail_file := originalName file;
                           Email.mail_url := shareUrl;
                           Email.mail_message := b_message body |} in
            let (emailSent, out) :=
              Email.sendFileShareEmail svc (sendMail_rejects d) mail (outbox w) in
            if negb emailSent
            then (EmailFailed (Email.isEmailConfigured svc),
                  {| store := deleteSharedLink (link_id sharedLink) s1;
                     profiles := profiles w; outbox := out |})
            else (Shared sharedLink shareUrl,
                  {| store := s1; profiles := profiles w; outbox := out |})
        end
  end.

(** [POST /api/shared-links]: [data] is the body as
    [insertSharedLinkSchema.parse] returns it, with the defaults of the
    table for the columns it leaves out. *)
Definition hashed (data : Mem.InsertSharedLink) (d : Draw) : SharedLink :=
  {| link_id := new_id d;
     link_fileId := Mem.i_fileId data;
     linkType := Mem.i_linkType data;
     shareToken := Some (Mem.i_shareToken data);
     recipientEmail := Mem.i_recipientEmail data;
     passwordHash :=
       if truthy_str (Mem.i_passwordHash data)
       then Some (DbPassword.hashPassword bcrypt (or_empty (Mem.i_passwordHash data)) (salt d))
       else Mem.i_passwordHash data;
     link_expiresAt := Mem.i_link_expiresAt data;
     link_downloadLimit := Mem.i_link_downloadLimit data;
     link_downloadCount := Mem.i_link_downloadCount data;
     isActive := Mem.i_isActive data;
     link_createdAt := created d |}.

Definition create_link (caller : Caller) (data : Mem.InsertSharedLink) (d : Draw)
    (s : Db.Store) : Reply * Db.Store :=
  match Db.getFile (Mem.i_fileId data) s with
  | None => (FileNotFound, s)
  | Some file =>
      if negb (str_eqb (userId file) (user_id caller)) then (FileNotFound, s)
      else match createSharedLink (hashed data d) s with
           | None => (Threw, s)
           | Some s1 => (Created (hashed data d), s1)
           end
  end.

End Route.
End Share.

(** Every log that names a link names a stored one (the foreign key of
    [download_logs.shared_link_id]). *)
Definition logs_refer_to_links (s : Db.Store) : Prop :=
  Forall (fun g => forall lid, sharedLinkId g = Some lid ->
                   existsb (Db.has_link_id lid) (Db.sharedLinks s) = true)
         (Db.downloadLogs s).

(** ** [GET /api/shared-links/:token] *)

Module Links.

Inductive Reply : Type :=
| Refused (status : Z) (error : ErrorMsg)
| Rows (file : File) (link : SharedLink).        (* res.json({ file, link }) *)

Definition rows (env : Env) (token : jsstring) (s : Db.Store) : Reply :=
  match Db.getSharedLink token s with
  | None => Refused 404 ShareLinkNotFound
  | Some link =>
      if negb (isActive link) then Refused 404 ShareLinkNotFound
      else if past (now env) (link_expiresAt link) then Refused 410 ShareLinkHasExpired
      else match Db.getFile (link_fileId link) s with
           | None => Refused 404 FileNotFound
           | Some file => Rows file link
           end
  end.

End Links.

(** ** Further scenarios *)

Definition insert_link (fileId token : string) : Mem.InsertSharedLink :=
  {| Mem.i_fileId := js fileId; Mem.i_linkType := js "public";
     Mem.i_shareToken := js token; Mem.i_recipientEmail := None;
     Mem.i_passwordHash := None; Mem.i_link_expiresAt := None;
     Mem.i_link_downloadLimit := None; Mem.i_link_downloadCount := 0;
     Mem.i_isActive := true |}.

(** The body of a request for a link on the file "f1" under the password
    "secret". *)
Definition protected_insert : Mem.InsertSharedLink :=
  {| Mem.i_fileId := js "f1"; Mem.i_linkType := js "public";
     Mem.i_shareToken := js "tok-9"; Mem.i_recipientEmail := None;
     Mem.i_passwordHash := Some (js "secret"); Mem.i_link_expiresAt := None;
     Mem.i_link_downloadLimit := None; Mem.i_link_downloadCount := 0;
     Mem.i_isActive := true |}.

Definition log_for (fileId : string) : InsertDownloadLog :=
  {| log_fileId := js fileId; sharedLinkId := None; downloadMethod := ByCode;
     downloaderIp := None; downloaderUserAgent := None |}.

(** Two files, a link on each (the first one then given a new token)
    and a log of the first file. *)
Definition link_ops : list Mem.Op :=
  [Mem.OnFile (Mem.CreateFile (js "id-1") 1 (insert_with_code "CODE0001"));
   Mem.OnFile (Mem.CreateFile (js "id-2") 2 (insert_with_code "CODE0002"));
   Mem.CreateSharedLink (js "l-1") 3 (insert_link "id-1" "tok-1");
   Mem.CreateSharedLink (js "l-2") 4 (insert_link "id-2" "tok-2");
   Mem.UpdateSharedLink (js "l-1") (Mem.set_shareToken (Some (js "tok-3")));
   Mem.CreateDownloadLog (js "g-1") 5 (log_for "id-1")].

(** A locked public file whose share code the toy library accepts the
    password "CODE" against. *)
Definition dollar_file : File :=
  {| file_id := js "f1"; userId := js "u1"; originalName := js "a.txt";
     fileSize := 10; fileType := js "text/plain"; storagePath := js "uploads/a";
     shareCode := Some (js "$CODE"); isPublic := true; isLocked := true;
     downloadLimit := None; downloadCount := 0; expiresAt := None;
     createdAt := 0; updatedAt := 0 |}.

(** A link protected by the password "secret" that expires at [t]. *)
Definition protected_link_until (t : Z) : SharedLink :=
  {| link_id := js "l1"; link_fileId := js "f1"; linkType := js "public";
     shareToken := Some (js "tok"); recipientEmail := None;
     passwordHash := Some (DbPassword.hashPassword toy_bcrypt (js "secret") (js "s"));
     link_expiresAt := Some t; link_downloadLimit := None; link_downloadCount := 0;
     isActive := true; link_createdAt := 0 |}.

(** A reading of uuids for the examples: a string of digits, small
    letters and hyphens is taken as it is, any other is rejected. *)
Definition plain_uuid_in (id : jsstring) : option jsstring :=
  if forallb (fun c => (48 <=? c) && (c <=? 57) || (97 <=? c) && (c <=? 122) || (c =? 45))%N id
  then Some id
  else None.

Definition owner_world : Account.World :=
  {| Account.store :=
       {| Db.files := [plain_file]; Db.sharedLinks := [plain_link];
          Db.downloadLogs := [log_for "f1"] |};
     Account.disk := fun _ => true |}.

Definition share_world : Share.World :=
  {| Share.store := store_of plain_file [];
     Share.profiles := [js "u1"];
     Share.outbox := [] |}.

Definition share_caller : Share.Caller :=
  {| Share.user_id := js "u1"; Share.user_email := js "u1@example.org" |}.

Definition share_body : Share.Body :=
  {| Share.b_fileId := js "f1"; Share.b_recipientEmail := js "r@example.org";
     Share.b_message := None; Share.b_password := Some (js "secret");
     Share.b_expiresAt := Some 2000; Share.b_downloadLimit := Some 0 |}.

Definition share_draw (rejects : bool) : Share.Draw :=
  {| Share.token := js "c0ffee"; Share.new_id := js "l9"; Share.created := 900;
     Share.salt := js "s"; Share.base_url := js "http://localhost:5000";
     Share.sendMail_rejects := rejects |}.

Definition smtp_on : Email.Smtp :=
  {| Email.SMTP_HOST := Some (js "smtp.example.org");
     Email.SMTP_USER := Some (js "mailer");
     Email.SMTP_PASS := Some (js "hunter2") |}.

Definition smtp_off : Email.Smtp :=
  {| Email.SMTP_HOST := Some (js "smtp.example.org");
     Email.SMTP_USER := Some [];
     Email.SMTP_PASS := None |}.

(** The file under [code] has not expired, has limit [L] and counter
    [c]. *)
Definition file_open (env : Env) (code : jsstring) (L : Z) (path name : jsstring)
    (s : Db.Store) (c : Z) : Prop :=
  exists f,
    Db.getFileByShareCode code s = Some f
    /\ past (now env) (expiresAt f) = false
    /\ downloadLimit f = Some L
    /\ downloadCount f = c
    /\ storagePath f = path
    /\ originalName f = name.

(** The same as [link_open] for [POST /api/download/shared/:token]: the
    request carries the password when there is a hash, and the file is
    on disk. *)
Definition shared_open (bcrypt : Bcrypt) (env : Env) (req : Request) (token : jsstring)
    (L : Z) (path name type : jsstring) (s : Db.Store) (c : Z) : Prop :=
  exists l f,
    Db.getSharedLink token s = Some l
    /\ isActive l = true
    /\ past (now env) (link_expiresAt l) = false
    /\ truthy_str (passwordHash l) && missing (password req) = false
    /\ truthy_str (passwordHash l)
       && negb (DbPassword.validateFilePassword bcrypt (password req)
                  (or_empty (passwordHash l))) = false
    /\ link_downloadLimit l = Some L
    /\ link_downloadCount l = c
    /\ Db.getFile (link_fileId l) s = Some f
    /\ existsSync env (storagePath f) = true
    /\ storagePath f = path /\ originalName f = name /\ fileType f = type.

(** A pool of requests to the public routes. *)
Definition public_pool (bcrypt : Bcrypt) (pool : list Handler) : Prop :=
  Forall (fun h => exists env id req, In h (public_routes bcrypt env id req)) pool.

(** A private, locked, expired file at its limit, reached through an
    open link. *)
Definition gated_file : File :=
  {| file_id := js "f1"; userId := js "u1"; originalName := js "a.txt";
     fileSize := 10; fileType := js "text/plain"; storagePath := js "uploads/a";
     shareCode := Some (js "ABCD1234"); isPublic := false; isLocked := true;
     downloadLimit := Some 1; downloadCount := 1; expiresAt := Some 10;
     createdAt := 0; updatedAt := 0 |}.

(** ** [POST /api/files/upload] *)

Module Upload.

(** The columns of [profiles] the route reads and writes. *)
Record Profile : Type := mkProfile {
  profile_id : jsstring;
  dailyUploadCount : Z;
  dailyUploadLimit : Z
}.

(** [req.file], as multer leaves it. *)
Record Uploaded : Type := mkUploaded {
  originalname : jsstring;
  size : Z;
  mimetype : jsstring;
  path : jsstring
}.

(** The form fields, which are strings.  [downloadLimit] is given by the
    integer [parseInt] reads from it and [expiresAt] by the time it
    denotes; [None] is an absent or empty field, and a field that holds
    no number or no date is not modelled. *)
Record Body : Type := mkBody {
  generateShareCode : option jsstring;
  b_isPublic : option jsstring;
  b_downloadLimit : option Z;
  b_expiresAt : option Z
}.

(** What comes from outside: the share code [generateShareCode()] draws
    and the id and time the database gives the row. *)
Record Draw : Type := mkDraw {
  code : jsstring;
  new_id : jsstring;
  created : Z
}.

Record World : Type := mkWorld {
  store : Db.Store;
  profiles : list Profile
}.

Inductive Reply : Type :=
| NoFile                  (* 400 'No file provided' *)
| ProfileNotFound         (* 404 'Profile not found' *)
| LimitExceeded           (* 429 'Daily upload limit exceeded' *)
| Stored (file : File)    (* res.json(file) *)
| Threw.                  (* 500, error.message *)

Definition has_profile_id (id : jsstring) (p : Profile) : bool := str_eqb (profile_id p) id.

Definition getProfile (id : jsstring) (w : World) : option Profile :=
  find (has_profile_id id) (profiles w).

(** [updateProfile(id, { dailyUploadCount: n })] *)
Definition set_count (id : jsstring) (n : Z) (ps : list Profile) : list Profile :=
  map (fun p => if has_profile_id id p
                then {| profile_id := profile_id p; dailyUploadCount := n;
                        dailyUploadLimit := dailyUploadLimit p |}
                else p) ps.

(** The row [db.insert(files)] stores: [isLocked] and [downloadCount]
    take the defaults of the table. *)
Definition new_file (user : jsstring) (f : Uploaded) (body : Body) (d : Draw) : File :=
  {| file_id := new_id d;
     userId := user;
     originalName := originalname f;
     fileSize := size f;
     fileType := mimetype f;
     storagePath := path f;
     shareCode := if truthy_str (generateShareCode body) then Some (code d) else None;
     isPublic := match b_isPublic body with
                 | Some v => str_eqb v (js "true")
                 | None => false
                 end;
     isLocked := false;
     downloadLimit := b_downloadLimit body;
     downloadCount := 0;
     expiresAt := b_expiresAt body;
     createdAt := created d;
     updatedAt := created d |}.

(** [id] is the primary key and [share_code] is unique; a violated
    constraint throws ([None]). *)
Definition createFile (row : File) (s : Db.Store) : option Db.Store :=
  if existsb (Db.has_id (file_id row)) (Db.files s)
     || match shareCode row with
        | Some c => existsb (Db.has_code c) (Db.files s)
        | None => false
        end
  then None
  else Some {| Db.files := Db.files s ++ [row];
               Db.sharedLinks := Db.sharedLinks s;
               Db.downloadLogs := Db.downloadLogs s |}.

Definition upload (user : jsstring) (file : option Uploaded) (body : Body) (d : Draw)
    (w : World) : Reply * World :=
  match file with
  | None => (NoFile, w)
  | Some f =>
      match getProfile user w with
      | None => (ProfileNotFound, w)
      | Some profile =>
          if dailyUploadCount profile >=? dailyUploadLimit profile then (LimitExceeded, w)
          else
            let row := new_file user f body d in
            match createFile row (store w) with
            | None => (Threw, w)
            | Some s1 =>
                (Stored row,
                 {| store := s1;
                    profiles := set_count user (dailyUploadCount profile + 1) (profiles w) |})
            end
      end
  end.

End Upload.

Definition upload_world : Upload.World :=
  {| Upload.store := store_of plain_file [];
     Upload.profiles :=
       [{| Upload.profile_id := js "u1"; Upload.dailyUploadCount := 9;
           Upload.dailyUploadLimit := 10 |}] |}.

Definition uploaded_b : Upload.Uploaded :=
  {| Upload.originalname := js "b.txt"; Upload.size := 20;
     Upload.mimetype := js "text/plain"; Upload.path := js "uploads/b" |}.

Definition upload_body : Upload.Body :=
  {| Upload.generateShareCode := Some (js "true"); Upload.b_isPublic := None;
     Upload.b_downloadLimit := Some 0; Upload.b_expiresAt := None |}.

Definition upload_draw : Upload.Draw :=
  {| Upload.code := js "WXYZ5678"; Upload.new_id := js "f2"; Upload.created := 900 |}.

(** ** The counters in the database

    [download_count] and [download_limit] are [integer] columns of
    [files] and [shared_links]: the database rejects an update that sets
    one of them outside the 32-bit range, and the awaited call throws. *)

Definition int4_max : Z := 2147483647.

Definition in_int4 (n : Z) : bool := (- 2147483648 <=? n) && (n <=? int4_max).

Definition overflows {A} (op : StorageOp A) : bool :=
  match op with
  | UpdateFile _ u =>
      negb (from_option in_int4 true (u_downloadCount u))
      || negb (from_option (from_option in_int4 true) true (u_downloadLimit u))
  | UpdateSharedLink _ u => negb (from_option in_int4 true (lu_downloadCount u))
  | _ => false
  end.

(** One request served alone, an update throwing when the database
    rejects its counter. *)
Fixpoint run_db (h : Handler) (s : Db.Store) : Response * Db.Store :=
  match h with
  | Respond r => (r, s)
  | Await op k =>
      if overflows op then (Json 500 Thrown, s)
      else let (a, s') := exec op s in run_db (k a) s'
  end.

Fixpoint sequential_db (hs : list Handler) (s : Db.Store) : list Response * Db.Store :=
  match hs with
  | [] => ([], s)
  | h :: rest =>
      let (r, s1) := run_db h s in
      let (rs, s2) := sequential_db rest s1 in
      (r :: rs, s2)
  end.

(** The file under [code] is public, lets the request's password
    through, has not expired, has limit [L] and counter [c], and is on
    disk. *)
Definition public_open (bcrypt : Bcrypt) (env : Env) (req : Request) (code : jsstring)
    (L : Z) (path name type : jsstring) (s : Db.Store) (c : Z) : Prop :=
  exists f,
    Db.getFileByShareCode code s = Some f
    /\ isPublic f = true
    /\ isLocked f && missing (password req) = false
    /\ isLocked f
       && negb (DbPassword.validatePassword bcrypt (password req)
                  (or_empty (shareCode f))) = false
    /\ past (now env) (expiresAt f) = false
    /\ downloadLimit f = Some L
    /\ downloadCount f = c
    /\ existsSync env (storagePath f) = true
    /\ storagePath f = path /\ originalName f = name /\ fileType f = type.

(** [link_open], with the counter [cf] of the file as well. *)
Definition link_file_open (bcrypt : Bcrypt) (env : Env) (req : Request) (token : jsstring)
    (L : Z) (path name : jsstring) (s : Db.Store) (c cf : Z) : Prop :=
  exists l f,
    Db.getSharedLink token s = Some l
    /\ isActive l = true
    /\ truthy_str (passwordHash l)
       && negb (DbPassword.validatePassword bcrypt (password req)
                  (or_empty (passwordHash l))) = false
    /\ past (now env) (link_expiresAt l) = false
    /\ link_downloadLimit l = Some L
    /\ link_downloadCount l = c
    /\ Db.getFile (link_fileId l) s = Some f
    /\ downloadCount f = cf
    /\ storagePath f = path
    /\ originalName f = name.

(** A file without a limit to speak of whose counter is at the top of
    the column's range. *)
Definition brimming_file : File :=
  apply_file_update (with_limit 0 plain_file) (set_downloadCount int4_max).

Definition zero_limit_link : SharedLink :=
  {| link_id := js "l1"; link_fileId := js "f1"; linkType := js "public";
     shareToken := Some (js "tok"); recipientEmail := None; passwordHash := None;
     link_expiresAt := None; link_downloadLimit := Some 0;
     link_downloadCount := int4_max; isActive := true; link_createdAt := 0 |}.

(** * Properties *)

(** ** Base64 *)

Module Base64Facts.
Import Base64.

Lemma in_sextets i : (i < 64)%N -> In i sextets.
Proof.
  intros Hi. unfold sextets. apply in_map_iff. exists (N.to_nat i).
  split; [lia | apply in_seq; lia].
Qed.

Lemma index_of_digit i : (i < 64)%N -> index_of (digit i) = i.
Proof.
  intros Hi.
  assert (H : forallb (fun i => (index_of (digit i) =? i)%N) sextets = true)
    by (vm_compute; reflexivity).
  rewrite forallb_forall in H. apply N.eqb_eq, H, in_sextets, Hi.
Qed.

Lemma digit_inj i j : (i < 64)%N -> (j < 64)%N -> digit i = digit j -> i = j.
Proof.
  intros Hi Hj E. rewrite <- (index_of_digit i Hi), <- (index_of_digit j Hj).
  now rewrite E.
Qed.

Lemma digit_not_pad i : (i < 64)%N -> digit i <> pad.
Proof.
  intros Hi.
  assert (H : forallb (fun i => negb (digit i =? pad)%N) sextets = true)
    by (vm_compute; reflexivity).
  rewrite forallb_forall in H. specialize (H i (in_sextets i Hi)).
  apply negb_true_iff, N.eqb_neq in H. exact H.
Qed.

Lemma list_ind3 {A} (P : list A -> Prop) :
  P [] -> (forall a, P [a]) -> (forall a b, P [a; b]) ->
  (forall a b c l, P l -> P (a :: b :: c :: l)) ->
  forall l, P l.
Proof.
  intros H0 H1 H2 H3 l.
  enough (H : P l /\ (forall a, P (a :: l)) /\ (forall a b, P (a :: b :: l)))
    by apply H.
  induction l as [|x l (IH0 & IH1 & IH2)]; [now auto|].
  repeat split; auto.
Qed.

Lemma latin1_cons a l : latin1 (a :: l) = true -> (a < 256)%N /\ latin1 l = true.
Proof.
  unfold latin1. simpl. intros H. apply andb_true_iff in H as [Ha Hl].
  apply N.leb_le in Ha. split; [lia | exact Hl].
Qed.

Ltac div_lia := zify; Z.to_euclidean_division_equations; lia.

Section Sextets.
Local Open Scope N_scope.

Lemma sextet_hi a : a < 256 -> a / 4 < 64.
Proof. intros. div_lia. Qed.

Lemma sextet_mid1 a b : b < 256 -> (a mod 4) * 16 + b / 16 < 64.
Proof. intros. div_lia. Qed.

Lemma sextet_mid1_last a : (a mod 4) * 16 < 64.
Proof. div_lia. Qed.

Lemma sextet_mid2 b c : c < 256 -> (b mod 16) * 4 + c / 64 < 64.
Proof. intros. div_lia. Qed.

Lemma sextet_mid2_last b : (b mod 16) * 4 < 64.
Proof. div_lia. Qed.

Lemma sextet_lo c : c mod 64 < 64.
Proof. div_lia. Qed.

Lemma join16 x y x' y' :
  y < 16 -> y' < 16 -> x * 16 + y = x' * 16 + y' -> x = x' /\ y = y'.
Proof. lia. Qed.

Lemma join4 x y x' y' :
  y < 4 -> y' < 4 -> x * 4 + y = x' * 4 + y' -> x = x' /\ y = y'.
Proof. lia. Qed.

Lemma same_div_mod k a a' : a / k = a' / k -> a mod k = a' mod k -> a = a'.
Proof.
  intros Hq Hr. rewrite (N.div_mod' a k), (N.div_mod' a' k). congruence.
Qed.

Lemma nibble_hi b : b < 256 -> b / 16 < 16.
Proof. intros. div_lia. Qed.

Lemma pair_hi c : c < 256 -> c / 64 < 4.
Proof. intros. div_lia. Qed.

Lemma chunk1_inj a a' :
  a / 4 = a' / 4 -> (a mod 4) * 16 = (a' mod 4) * 16 -> a = a'.
Proof. intros Hq Hr. apply (same_div_mod 4); [exact Hq | lia]. Qed.

Lemma chunk2_inj a b a' b' :
  b < 256 -> b' < 256 ->
  a / 4 = a' / 4 ->
  (a mod 4) * 16 + b / 16 = (a' mod 4) * 16 + b' / 16 ->
  (b mod 16) * 4 = (b' mod 16) * 4 ->
  a = a' /\ b = b'.
Proof.
  intros Hb Hb' E1 E2 E3.
  destruct (join16 _ _ _ _ (nibble_hi b Hb) (nibble_hi b' Hb') E2) as [Ea Eb].
  split; [apply (same_div_mod 4) | apply (same_div_mod 16)]; auto; lia.
Qed.

Lemma chunk3_inj a b c a' b' c' :
  b < 256 -> b' < 256 -> c < 256 -> c' < 256 ->
  a / 4 = a' / 4 ->
  (a mod 4) * 16 + b / 16 = (a' mod 4) * 16 + b' / 16 ->
  (b mod 16) * 4 + c / 64 = (b' mod 16) * 4 + c' / 64 ->
  c mod 64 = c' mod 64 ->
  a = a' /\ b = b' /\ c = c'.
Proof.
  intros Hb Hb' Hc Hc' E1 E2 E3 E4.
  destruct (join16 _ _ _ _ (nibble_hi b Hb) (nibble_hi b' Hb') E2) as [Ea Eb].
  destruct (join4 _ _ _ _ (pair_hi c Hc) (pair_hi c' Hc') E3) as [Eb2 Ec].
  repeat split;
    [apply (same_div_mod 4) | apply (same_div_mod 16) | apply (same_div_mod 64)];
    assumption.
Qed.

End Sextets.

Create HintDb sextet.
#[global] Hint Resolve sextet_hi sextet_mid1 sextet_mid1_last sextet_mid2
  sextet_mid2_last sextet_lo : sextet.

Ltac pad_clash :=
  match goal with
  | H : digit ?i = pad |- _ =>
      exfalso; revert H; apply digit_not_pad; auto with sextet
  | H : pad = digit ?i |- _ =>
      exfalso; symmetry in H; revert H; apply digit_not_pad; auto with sextet
  end.

Ltac split_cons :=
  repeat match goal with
         | H : ?x :: ?l = ?y :: ?l' |- _ =>
             assert (x = y) by congruence; assert (l = l') by congruence; clear H
         end.

Ltac sextets_eq :=
  repeat match goal with
         | H : digit _ = digit _ |- _ =>
             apply digit_inj in H; [| solve [auto with sextet] ..]
         end.

Lemma encode_inj l1 : forall l2,
  latin1 l1 = true -> latin1 l2 = true -> encode l1 = encode l2 -> l1 = l2.
Proof.
  induction l1 as [|a|a b|a b c l1 IH] using list_ind3;
    intros [|a' [|b' [|c' l2]]] H1 H2 E;
    try reflexivity; try discriminate E;
    repeat match goal with
           | H : latin1 (_ :: _) = true |- _ =>
               apply latin1_cons in H; destruct H
           end;
    cbn [encode] in E; split_cons; try pad_clash; sextets_eq.
  - f_equal. now apply chunk1_inj.
  - destruct (chunk2_inj a b a' b') as [-> ->]; auto.
  - destruct (chunk3_inj a b c a' b' c') as (-> & -> & ->); auto.
    rewrite (IH l2) by assumption. reflexivity.
Qed.

End Base64Facts.

Example btoa_hello : Base64.btoa (js "hello") = Some (js "aGVsbG8=").
Proof. reflexivity. Qed.

Example btoa_Ma : Base64.btoa (js "Ma") = Some (js "TWE=").
Proof. reflexivity. Qed.

Example hash_secret :
  MemPassword.hashPassword (js "secret") = Some (js "c2VjcmV0c2FsdA==").
Proof. reflexivity. Qed.

(** ** Passwords *)

Lemma latin1_app a b :
  Base64.latin1 (a ++ b) = Base64.latin1 a && Base64.latin1 b.
Proof. unfold Base64.latin1. apply forallb_app. Qed.

Lemma mem_hash_latin1 p :
  Base64.latin1 p = true ->
  MemPassword.hashPassword p = Some (Base64.encode (p ++ MemPassword.salt)).
Proof.
  intros Hp. unfold MemPassword.hashPassword, Base64.btoa.
  rewrite latin1_app, Hp. reflexivity.
Qed.

Lemma mem_hash_inj p q :
  Base64.latin1 p = true -> Base64.latin1 q = true ->
  Base64.encode (p ++ MemPassword.salt) = Base64.encode (q ++ MemPassword.salt) ->
  p = q.
Proof.
  intros Hp Hq E. apply Base64Facts.encode_inj in E.
  - eapply app_inv_tail, E.
  - rewrite latin1_app, Hp. reflexivity.
  - rewrite latin1_app, Hq. reflexivity.
Qed.

Lemma mem_hash_throws p :
  Base64.latin1 p = false ->
  MemPassword.hashPassword p = None
  /\ forall hash, MemPassword.validatePassword p hash = None.
Proof.
  intros Hp.
  assert (H : MemPassword.hashPassword p = None).
  { unfold MemPassword.hashPassword, Base64.btoa. now rewrite latin1_app, Hp. }
  split; [exact H|]. intros hash. unfold MemPassword.validatePassword. now rewrite H.
Qed.

(** C6, as the code has it.  [MemStorage]: for passwords of Latin-1
    code units, validating [p] against the hash of [q] answers [true]
    when [p = q] and [false] otherwise; for a password with a code unit
    above 255 neither function returns.  [DatabaseStorage]: validating
    [p] against the hash of [q] answers [true] exactly when
    [bcrypt.compareSync] does on the output of [bcrypt.hashSync] with
    cost 10, resp. 12; a throw or [false] of the library is [false]. *)
Theorem password_round_trip (bcrypt : Bcrypt) (p q salt : jsstring) :
  (Base64.latin1 p = true -> Base64.latin1 q = true ->
   exists h, MemPassword.hashPassword q = Some h
             /\ MemPassword.validatePassword p h = Some (bool_decide (p = q)))
  /\ (Base64.latin1 p = false ->
      MemPassword.hashPassword p = None
      /\ forall hash, MemPassword.validatePassword p hash = None)
  /\ (DbPassword.validatePassword bcrypt (Some p)
        (DbPassword.hashPassword bcrypt q salt) = true
      <-> compareSync bcrypt (Some p) (hashSync bcrypt q 10 salt) = Some true)
  /\ (DbPassword.validateFilePassword bcrypt (Some p)
        (DbPassword.hashFilePassword bcrypt q salt) = true
      <-> compareSync bcrypt (Some p) (hashSync bcrypt q 12 salt) = Some true).
Proof.
  split; [|split; [|split]].
  - intros Hp Hq. exists (Base64.encode (q ++ MemPassword.salt)).
    split; [now apply mem_hash_latin1|].
    unfold MemPassword.validatePassword. rewrite (mem_hash_latin1 p Hp).
    f_equal. unfold str_eqb. apply bool_decide_ext. split.
    + now apply mem_hash_inj.
    + now intros ->.
  - apply mem_hash_throws.
  - unfold DbPassword.validatePassword, DbPassword.hashPassword.
    destruct (compareSync bcrypt _ _) as [[|]|]; split; congruence.
  - unfold DbPassword.validateFilePassword, DbPassword.hashFilePassword.
    destruct (compareSync bcrypt _ _) as [[|]|]; split; congruence.
Qed.

Lemma password_round_trip_witness :
  (exists h, MemPassword.hashPassword (js "secret") = Some h
             /\ MemPassword.validatePassword (js "wrong") h = Some false)
  /\ MemPassword.hashPassword euro = None.
Proof.
  destruct (password_round_trip toy_bcrypt (js "wrong") (js "secret") (js "s"))
    as (Hmem & _).
  destruct (password_round_trip toy_bcrypt euro euro (js "s")) as (_ & Hthrow & _).
  split; [exact (Hmem eq_refl eq_refl) | exact (proj1 (Hthrow eq_refl))].
Defined.

(** C6 as stated fails.  In [MemStorage] the non-empty password U+20AC
    makes [btoa] throw, so neither function returns.  In
    [DatabaseStorage] the two pairs tell passwords apart only as far as
    the library does: with a library that reads 72 bytes, a password
    validates against the hash of a different one. *)
Lemma round_trip_fails :
  (euro <> []
   /\ MemPassword.hashPassword euro = None
   /\ forall hash, MemPassword.validatePassword euro hash = None)
  /\ (long_password "b" <> long_password "c"
      /\ DbPassword.validatePassword first72_bcrypt (Some (long_password "b"))
           (DbPassword.hashPassword first72_bcrypt (long_password "c") (js "s")) = true
      /\ DbPassword.validateFilePassword first72_bcrypt (Some (long_password "b"))
           (DbPassword.hashFilePassword first72_bcrypt (long_password "c") (js "s"))
         = true).
Proof.
  split; [repeat split; discriminate|].
  split; [intros H; apply app_inv_head in H; discriminate | split; reflexivity].
Qed.

(** C7: when [bcrypt.compareSync] throws, both validators answer
    [false]. *)
Theorem malformed_hash_fails_closed (bcrypt : Bcrypt)
    (plaintext : option jsstring) (hash : jsstring) :
  compareSync bcrypt plaintext hash = None ->
  DbPassword.validatePassword bcrypt plaintext hash = false
  /\ DbPassword.validateFilePassword bcrypt plaintext hash = false.
Proof.
  intros Hthrow.
  unfold DbPassword.validatePassword, DbPassword.validateFilePassword.
  rewrite Hthrow. split; reflexivity.
Qed.

Lemma malformed_hash_fails_closed_witness :
  DbPassword.validatePassword toy_bcrypt (Some (js "secret")) (js "garbage") = false
  /\ DbPassword.validateFilePassword toy_bcrypt (Some (js "secret")) (js "garbage") = false.
Proof.
  exact (malformed_hash_fails_closed toy_bcrypt (Some (js "secret")) (js "garbage") eq_refl).
Defined.

(** ** The tables under updates *)

Lemma str_eqb_refl a : str_eqb a a = true.
Proof. unfold str_eqb. now apply bool_decide_eq_true. Qed.

Lemma str_eqb_eq a b : str_eqb a b = true <-> a = b.
Proof. unfold str_eqb. apply bool_decide_eq_true. Qed.

Lemma find_map_stable {A} (P : A -> bool) (g : A -> A) (l : list A) :
  (forall x, P (g x) = P x) -> find P (map g l) = option_map g (find P l).
Proof.
  intros Hg. induction l as [|x l IH]; [reflexivity|].
  cbn [map find]. rewrite Hg. destruct (P x); [reflexivity | exact IH].
Qed.

Lemma has_id_update id id' f u :
  Db.has_id id (if Db.has_id id' f then apply_file_update f u else f) = Db.has_id id f.
Proof. destruct (Db.has_id id' f); reflexivity. Qed.

Lemma has_code_count_update code id' f n :
  Db.has_code code
    (if Db.has_id id' f then apply_file_update f (set_downloadCount n) else f)
  = Db.has_code code f.
Proof. destruct (Db.has_id id' f); reflexivity. Qed.

Lemma has_token_update token id' l u :
  Db.has_token token (if Db.has_link_id id' l then apply_link_update l u else l)
  = Db.has_token token l.
Proof. destruct (Db.has_link_id id' l); reflexivity. Qed.

Lemma getFile_updateFile id f u s :
  Db.getFile id s = Some f -> file_id f = id ->
  Db.getFile id (Db.updateFile id u s) = Some (apply_file_update f u).
Proof.
  intros Hget Hid. unfold Db.getFile, Db.updateFile. cbn [Db.files].
  rewrite find_map_stable by (intros; apply has_id_update).
  unfold Db.getFile in Hget. rewrite Hget. cbn.
  unfold Db.has_id. now rewrite Hid, str_eqb_refl.
Qed.

Lemma getFile_found id f s : Db.getFile id s = Some f -> file_id f = id.
Proof.
  unfold Db.getFile. intros H. apply find_some in H as [_ H].
  now apply str_eqb_eq in H.
Qed.

Lemma getFileByShareCode_count code f n s :
  Db.getFileByShareCode code s = Some f ->
  Db.getFileByShareCode code (Db.updateFile (file_id f) (set_downloadCount n) s)
  = Some (apply_file_update f (set_downloadCount n)).
Proof.
  intros Hget. unfold Db.getFileByShareCode, Db.updateFile. cbn [Db.files].
  rewrite find_map_stable by (intros; apply has_code_count_update).
  unfold Db.getFileByShareCode in Hget. rewrite Hget. cbn.
  unfold Db.has_id. now rewrite str_eqb_refl.
Qed.

Lemma getSharedLink_update token l u s :
  Db.getSharedLink token s = Some l ->
  Db.getSharedLink token (Db.updateSharedLink (link_id l) u s)
  = Some (apply_link_update l u).
Proof.
  intros Hget. unfold Db.getSharedLink, Db.updateSharedLink. cbn [Db.sharedLinks].
  rewrite find_map_stable by (intros; apply has_token_update).
  unfold Db.getSharedLink in Hget. rewrite Hget. cbn.
  unfold Db.has_link_id. now rewrite str_eqb_refl.
Qed.

(** ** Reading handlers *)

Lemma exec_read {A} (op : StorageOp A) s : is_read op -> snd (exec op s) = s.
Proof. destruct op; cbn; tauto. Qed.

Lemma reads_only_run_faulty h : forall faults s,
  reads_only h -> snd (run_faulty faults h s) = s.
Proof.
  induction h as [r|A op k IH]; intros faults s Hr; [reflexivity|].
  destruct Hr as [Hop Hk]. cbn [run_faulty].
  pose proof (exec_read op s Hop) as Hs.
  destruct (exec op s) as [a s'] eqn:E. cbn in Hs. subst s'.
  destruct faults as [|[|] rest]; cbn; auto.
Qed.

Lemma run_faulty_nil h : forall s, run_faulty [] h s = run h s.
Proof.
  induction h as [r|A op k IH]; intros s; [reflexivity|].
  cbn. destruct (exec op s). apply IH.
Qed.

Lemma reads_only_step h fault s :
  reads_only h -> snd (step fault h s) = s /\ reads_only (fst (step fault h s)).
Proof.
  destruct h as [r|A op k]; [cbn; auto|].
  intros [Hop Hk]. cbn [step]. destruct fault; [cbn; auto|].
  pose proof (exec_read op s Hop) as Hs.
  destruct (exec op s) as [a s'] eqn:E. cbn in *. auto.
Qed.

Lemma public_file_reads_only bcrypt env code req :
  reads_only (Routes.public_file bcrypt env code req).
Proof.
  cbn. split; [exact I|]. intros [f|]; [|exact I].
  repeat match goal with |- context [if ?b then _ else _] => destruct b end;
    exact I.
Qed.

Lemma shared_info_reads_only bcrypt env token req :
  reads_only (Routes.shared_info bcrypt env token req).
Proof.
  cbn. split; [exact I|]. intros [l|]; [|exact I].
  repeat match goal with |- context [if ?b then _ else _] => destruct b end;
    try exact I.
  cbn. split; [exact I|]. intros [f|]; exact I.
Qed.

(** C8: the two information endpoints leave the store as it was,
    whichever of their storage calls throws, and asking again on the
    store they leave gives the same answer. *)
Theorem info_endpoints_read_only (bcrypt : Bcrypt) (env : Env) (id : jsstring)
    (req : Request) (faults : list bool) (s : Db.Store) :
  snd (run_faulty faults (Routes.public_file bcrypt env id req) s) = s
  /\ snd (run_faulty faults (Routes.shared_info bcrypt env id req) s) = s
  /\ run (Routes.public_file bcrypt env id req)
       (snd (run (Routes.public_file bcrypt env id req) s))
     = run (Routes.public_file bcrypt env id req) s
  /\ run (Routes.shared_info bcrypt env id req)
       (snd (run (Routes.shared_info bcrypt env id req) s))
     = run (Routes.shared_info bcrypt env id req) s.
Proof.
  repeat split.
  - apply reads_only_run_faulty, public_file_reads_only.
  - apply reads_only_run_faulty, shared_info_reads_only.
  - rewrite <- !run_faulty_nil.
    now rewrite (reads_only_run_faulty _ [] s (public_file_reads_only _ _ _ _)).
  - rewrite <- !run_faulty_nil.
    now rewrite (reads_only_run_faulty _ [] s (shared_info_reads_only _ _ _ _)).
Qed.

(** ** Password gates *)

(** C1 fails on [GET /api/download/code/:shareCode]: a locked file is
    sent to a request that carries no password, where the public
    download route asks for one. *)
Theorem locked_file_served_by_code :
  isLocked (lock plain_file) = true
  /\ password anonymous = None
  /\ fst (run (Routes.download_code env0 (js "ABCD1234") anonymous)
            (store_of (lock plain_file) []))
     = Download (js "uploads/a") (js "a.txt")
  /\ fst (run (Routes.public_download toy_bcrypt env0 (js "ABCD1234") anonymous)
            (store_of (lock plain_file) []))
     = Json 401 PasswordRequired.
Proof. repeat split. Qed.

(** ** Expiry *)

Lemma past_elapsed now t : t < now -> past now (Some t) = true.
Proof. intros H. unfold past. cbn. lia. Qed.

Ltac split_ifs :=
  repeat match goal with
         | |- context [if ?b then _ else _] => destruct b eqn:?
         end.




(** ** What one download does *)

Section OneDownload.
Context (bcrypt : Bcrypt) (env : Env) (req : Request) (s : Db.Store).

Lemma download_code_granted code f :
  Db.getFileByShareCode code s = Some f ->
  past (now env) (expiresAt f) = false ->
  limit_hit (downloadLimit f) (downloadCount f) = false ->
  run (Routes.download_code env code req) s
  = (Download (storagePath f) (originalName f),
     Db.updateFile (file_id f) (bump_file f) (Db.createDownloadLog (code_log req f) s)).
Proof. intros Hf He Hl. cbn. rewrite Hf, He, Hl. reflexivity. Qed.

Lemma download_code_denied code :
  serves (fst (run (Routes.download_code env code req) s)) = false ->
  snd (run (Routes.download_code env code req) s) = s.
Proof. cbn. destruct (Db.getFileByShareCode code s); split_ifs; cbn; congruence. Qed.

Lemma download_code_served code :
  serves (fst (run (Routes.download_code env code req) s)) = true ->
  exists f, Db.getFileByShareCode code s = Some f
            /\ past (now env) (expiresAt f) = false
            /\ limit_hit (downloadLimit f) (downloadCount f) = false.
Proof.
  cbn. destruct (Db.getFileByShareCode code s) as [f|]; [|discriminate].
  split_ifs; cbn; try discriminate. eauto.
Qed.

Lemma public_download_served code :
  serves (fst (run (Routes.public_download bcrypt env code req) s)) = true ->
  exists f, Db.getFileByShareCode code s = Some f
            /\ limit_hit (downloadLimit f) (downloadCount f) = false
            /\ run (Routes.public_download bcrypt env code req) s
               = (SendFile (storagePath f) (originalName f) (fileType f),
                  Db.createDownloadLog
                    {| log_fileId := file_id f; sharedLinkId := None;
                       downloadMethod := ByPublicLink;
                       downloaderIp := or_else (ip req) (remoteAddress req);
                       downloaderUserAgent := userAgent req |}
                    (Db.updateFile (file_id f) (bump_file f) s)).
Proof.
  cbn. destruct (Db.getFileByShareCode code s) as [f|]; [|discriminate].
  split_ifs; cbn; try discriminate. eauto.
Qed.

Lemma public_download_denied code :
  serves (fst (run (Routes.public_download bcrypt env code req) s)) = false ->
  snd (run (Routes.public_download bcrypt env code req) s) = s.
Proof. cbn. destruct (Db.getFileByShareCode code s); split_ifs; cbn; congruence. Qed.

Lemma download_link_granted token l f :
  Db.getSharedLink token s = Some l ->
  isActive l = true ->
  truthy_str (passwordHash l)
  && negb (DbPassword.validatePassword bcrypt (password req) (or_empty (passwordHash l)))
  = false ->
  past (now env) (link_expiresAt l) = false ->
  limit_hit (link_downloadLimit l) (link_downloadCount l) = false ->
  Db.getFile (link_fileId l) s = Some f ->
  run (Routes.download_link bcrypt env token req) s
  = (Download (storagePath f) (originalName f),
     Db.updateFile (file_id f) (bump_file f)
       (Db.updateSharedLink (link_id l) (bump_link l)
          (Db.createDownloadLog (link_log req f l) s))).
Proof.
  intros Hl Ha Hp He Hlim Hf. cbn. rewrite Hl, Ha. cbn [negb].
  rewrite Hp, He, Hlim. cbn. rewrite Hf. reflexivity.
Qed.

Lemma download_link_limit token l :
  Db.getSharedLink token s = Some l ->
  isActive l = true ->
  truthy_str (passwordHash l)
  && negb (DbPassword.validatePassword bcrypt (password req) (or_empty (passwordHash l)))
  = false ->
  past (now env) (link_expiresAt l) = false ->
  limit_hit (link_downloadLimit l) (link_downloadCount l) = true ->
  run (Routes.download_link bcrypt env token req) s = (Json 429 DownloadLimitExceeded, s).
Proof.
  intros Hl Ha Hp He Hlim. cbn. rewrite Hl, Ha. cbn [negb].
  rewrite Hp, He, Hlim. reflexivity.
Qed.

Lemma download_link_served token :
  serves (fst (run (Routes.download_link bcrypt env token req) s)) = true ->
  exists l f, Db.getSharedLink token s = Some l
              /\ limit_hit (link_downloadLimit l) (link_downloadCount l) = false
              /\ Db.getFile (link_fileId l) s = Some f
              /\ snd (run (Routes.download_link bcrypt env token req) s)
                 = Db.updateFile (file_id f) (bump_file f)
                     (Db.updateSharedLink (link_id l) (bump_link l)
                        (Db.createDownloadLog (link_log req f l) s)).
Proof.
  cbn. destruct (Db.getSharedLink token s) as [l|]; [|discriminate].
  split_ifs; cbn; try discriminate.
  destruct (Db.getFile (link_fileId l) s) as [f|] eqn:Hf; [|discriminate].
  intros _. exists l, f. auto.
Qed.

Lemma download_link_denied token :
  serves (fst (run (Routes.download_link bcrypt env token req) s)) = false ->
  snd (run (Routes.download_link bcrypt env token req) s) = s.
Proof.
  cbn. destruct (Db.getSharedLink token s) as [l|]; [|reflexivity].
  split_ifs; cbn; try congruence.
  destruct (Db.getFile (link_fileId l) s); cbn; congruence.
Qed.

Lemma download_shared_served token :
  serves (fst (run (Routes.download_shared bcrypt env token req) s)) = true ->
  exists l f, Db.getSharedLink token s = Some l
              /\ limit_hit (link_downloadLimit l) (link_downloadCount l) = false
              /\ Db.getFile (link_fileId l) s = Some f
              /\ snd (run (Routes.download_shared bcrypt env token req) s)
                 = Db.createDownloadLog
                     {| log_fileId := file_id f; sharedLinkId := Some (link_id l);
                        downloadMethod := BySharedLink;
                        downloaderIp := or_else (ip req) (remoteAddress req);
                        downloaderUserAgent := userAgent req |}
                     (Db.updateSharedLink (link_id l) (bump_link l) s).
Proof.
  cbn. destruct (Db.getSharedLink token s) as [l|]; [|discriminate].
  split_ifs; cbn; try discriminate.
  destruct (Db.getFile (link_fileId l) s) as [f|] eqn:Hf; [|discriminate].
  split_ifs; cbn; try discriminate.
  intros _. exists l, f. auto.
Qed.

Lemma download_shared_denied token :
  serves (fst (run (Routes.download_shared bcrypt env token req) s)) = false ->
  snd (run (Routes.download_shared bcrypt env token req) s) = s.
Proof.
  cbn. destruct (Db.getSharedLink token s) as [l|]; [|reflexivity].
  split_ifs; cbn; try congruence.
  destruct (Db.getFile (link_fileId l) s); cbn; try congruence.
  split_ifs; cbn; congruence.
Qed.

End OneDownload.

(** ** Logs and counters *)


(** [GET /api/download/code] and [POST /api/download/link] never ask
    whether the file is on disk: a file whose bytes are missing is let
    through, logged and counted like any other. *)
Example missing_bytes_are_counted :
  let after := run (Routes.download_code bare_env (js "ABCD1234") anonymous)
                 (store_of plain_file []) in
  serves (fst after) = true
  /\ delivers bare_env (fst after) = false
  /\ length (Db.downloadLogs (snd after)) = 1%nat
  /\ option_map downloadCount (Db.getFileByShareCode (js "ABCD1234") (snd after))
     = Some 1.
Proof. repeat split. Qed.


(** ** The counter and the limit *)

Lemma key_determines_row {A K} (key : A -> K) (l : list A) x y :
  NoDup (map key l) -> In x l -> In y l -> key x = key y -> x = y.
Proof.
  induction l as [|a l IH]; [intros _ []|].
  cbn [map]. intros Hnd Hx Hy Hk. apply NoDup_cons in Hnd as [Ha Hnd].
  destruct Hx as [-> | Hx], Hy as [-> | Hy]; auto.
  - exfalso. apply Ha. rewrite Hk. apply list_elem_of_In, in_map, Hy.
  - exfalso. apply Ha. rewrite <- Hk. apply list_elem_of_In, in_map, Hx.
Qed.

Lemma limit_not_hit limit count :
  limit_hit limit count = false ->
  within_checked_limit limit count -> within_checked_limit limit (count + 1).
Proof.
  unfold limit_hit, within_checked_limit, truthy_num.
  intros Hhit [H0 Hle]. split; [lia|]. intros L -> HL.
  specialize (Hle L eq_refl HL).
  destruct (Z.eqb_spec L 0); [contradiction|]. cbn in Hhit. lia.
Qed.

Lemma files_kept_same s s' : Db.files s' = Db.files s -> files_kept s s'.
Proof.
  intros E. unfold files_kept. rewrite E.
  apply Forall_Forall2_diag, Forall_forall. auto.
Qed.

Lemma links_kept_same s s' : Db.sharedLinks s' = Db.sharedLinks s -> links_kept s s'.
Proof.
  intros E. unfold links_kept. rewrite E.
  apply Forall_Forall2_diag, Forall_forall. auto.
Qed.

Lemma files_kept_ok s s' : files_ok s -> files_kept s s' -> files_ok s'.
Proof.
  unfold files_ok, files_kept. generalize (Db.files s) (Db.files s').
  intros l l' Hok H. induction H as [|f f' l l' Hf _ IH]; [constructor|].
  apply Forall_cons_1 in Hok as [Hf0 Hok]. constructor; auto.
Qed.

Lemma links_kept_ok s s' : links_ok s -> links_kept s s' -> links_ok s'.
Proof.
  unfold links_ok, links_kept. generalize (Db.sharedLinks s) (Db.sharedLinks s').
  intros l l' Hok H. induction H as [|f f' l l' Hf _ IH]; [constructor|].
  apply Forall_cons_1 in Hok as [Hf0 Hok]. constructor; auto.
Qed.

Lemma files_kept_bump f s s' :
  NoDup (map file_id (Db.files s)) -> In f (Db.files s) ->
  limit_hit (downloadLimit f) (downloadCount f) = false ->
  Db.files s' = Db.files (Db.updateFile (file_id f) (bump_file f) s) ->
  files_kept s s'.
Proof.
  intros Hnd Hin Hhit E. unfold files_kept. rewrite E. cbn [Db.updateFile Db.files].
  change (map ?g ?l) with (g <$> l). apply Forall2_fmap_r, Forall_Forall2_diag.
  apply Forall_forall. intros g Hg Hok.
  destruct (Db.has_id (file_id f) g) eqn:Hid; [|exact Hok].
  apply str_eqb_eq in Hid. apply list_elem_of_In in Hg.
  assert (g = f) as -> by (eapply key_determines_row; eauto).
  cbn. now apply limit_not_hit.
Qed.

Lemma links_kept_bump l s s' :
  NoDup (map link_id (Db.sharedLinks s)) -> In l (Db.sharedLinks s) ->
  limit_hit (link_downloadLimit l) (link_downloadCount l) = false ->
  Db.sharedLinks s' = Db.sharedLinks (Db.updateSharedLink (link_id l) (bump_link l) s) ->
  links_kept s s'.
Proof.
  intros Hnd Hin Hhit E. unfold links_kept. rewrite E.
  cbn [Db.updateSharedLink Db.sharedLinks].
  change (map ?g ?k) with (g <$> k). apply Forall2_fmap_r, Forall_Forall2_diag.
  apply Forall_forall. intros g Hg Hok.
  destruct (Db.has_link_id (link_id l) g) eqn:Hid; [|exact Hok].
  apply str_eqb_eq in Hid. apply list_elem_of_In in Hg.
  assert (g = l) as -> by (eapply key_determines_row; eauto).
  cbn. now apply limit_not_hit.
Qed.

Lemma kept_along_faulty (P : Db.Store -> Prop) h : forall faults s,
  P s -> kept_along P h s -> P (snd (run_faulty faults h s)).
Proof.
  induction h as [r|A op k IH]; intros faults s Hs Hk; [exact Hs|].
  destruct Hk as [Hop Hk]. cbn [run_faulty].
  destruct (exec op s) as [a s'] eqn:E. cbn [fst snd] in *.
  destruct faults as [|[|] rest]; cbn [snd]; auto.
Qed.

Lemma getFileByShareCode_in code f s :
  Db.getFileByShareCode code s = Some f -> In f (Db.files s).
Proof. intros H. now apply find_some in H. Qed.

Lemma getSharedLink_in token l s :
  Db.getSharedLink token s = Some l -> In l (Db.sharedLinks s).
Proof. intros H. now apply find_some in H. Qed.

Lemma reads_only_run h s : reads_only h -> snd (run h s) = s.
Proof. intros Hr. rewrite <- run_faulty_nil. now apply reads_only_run_faulty. Qed.

Lemma getFile_in id f s : Db.getFile id s = Some f -> In f (Db.files s).
Proof. intros H. now apply find_some in H. Qed.


Ltac along :=
  repeat first
    [ exact I
    | match goal with
      | |- kept_along _ (if ?b then _ else _) _ => destruct b eqn:?
      | |- kept_along _ (match ?x with Some _ => _ | None => _ end) _ => destruct x eqn:?
      | |- _ /\ _ => split
      end
    | progress cbn [kept_along exec fst snd] ].

Section Kept.
Context (bcrypt : Bcrypt) (env : Env) (id : jsstring) (req : Request) (s : Db.Store).
Hypothesis Hkeys : primary_keys s.

Lemma links_kept_along h :
  In h (public_routes bcrypt env id req) -> kept_along (links_kept s) h s.
Proof.
  destruct Hkeys as [_ Hlk].
  intros [<- | [<- | [<- | [<- | [<- | [<- | []]]]]]];
    unfold Routes.download_code, Routes.download_link, Routes.public_file,
      Routes.public_download, Routes.shared_info, Routes.download_shared;
    along; try (now apply links_kept_same);
    match goal with
    | Hl : Db.getSharedLink id s = Some ?l |- _ =>
        apply (links_kept_bump l s); auto; now apply getSharedLink_in in Hl
    end.
Qed.

Lemma files_kept_along h :
  In h [Routes.download_code env id req;
        Routes.public_file bcrypt env id req;
        Routes.public_download bcrypt env id req;
        Routes.shared_info bcrypt env id req;
        Routes.download_shared bcrypt env id req] ->
  kept_along (files_kept s) h s.
Proof.
  destruct Hkeys as [Hfk _].
  intros [<- | [<- | [<- | [<- | [<- | []]]]]];
    unfold Routes.download_code, Routes.public_file,
      Routes.public_download, Routes.shared_info, Routes.download_shared;
    along; try (now apply files_kept_same);
    match goal with
    | Hf : Db.getFileByShareCode id s = Some ?f |- _ =>
        apply (files_kept_bump f s); auto; now apply getFileByShareCode_in in Hf
    end.
Qed.

Lemma link_route_files_kept_along :
  (forall l f,
     Db.getSharedLink id s = Some l -> Db.getFile (link_fileId l) s = Some f ->
     limit_hit (downloadLimit f) (downloadCount f) = false) ->
  kept_along (files_kept s) (Routes.download_link bcrypt env id req) s.
Proof.
  destruct Hkeys as [Hfk _]. intros Hbelow.
  unfold Routes.download_link. along; try (now apply files_kept_same).
  match goal with
  | Hl : Db.getSharedLink id s = Some ?l, Hf : Db.getFile (link_fileId ?l) s = Some ?f |- _ =>
      apply (files_kept_bump f s); auto;
        [now apply getFile_in in Hf | now apply (Hbelow l f)]
  end.
Qed.

End Kept.



(** ** Downloads against a limit *)

Section LinkDownloads.
Context (bcrypt : Bcrypt) (env : Env) (req : Request) (token : jsstring).
Context (L : Z) (path name : jsstring).

Local Abbreviation open_at := (link_open bcrypt env req token L path name).

Lemma limit_hit_below c : L <> 0 -> c < L -> limit_hit (Some L) c = false.
Proof.
  intros HL Hc. unfold limit_hit. cbn. destruct (Z.eqb_spec L 0); [contradiction|].
  cbn. lia.
Qed.

Lemma limit_hit_reached c : L <> 0 -> L <= c -> limit_hit (Some L) c = true.
Proof.
  intros HL Hc. unfold limit_hit. cbn. destruct (Z.eqb_spec L 0); [contradiction|].
  cbn. lia.
Qed.

Lemma link_open_pass s c :
  limit_hit (Some L) c = false -> open_at s c ->
  exists s', run (Routes.download_link bcrypt env token req) s = (Download path name, s')
             /\ open_at s' (c + 1).
Proof.
  intros Hlimit (l & f & Hl & Ha & Hp & He & Hlim & Hcount & Hf & Hpath & Hname).
  assert (Hhit : limit_hit (link_downloadLimit l) (link_downloadCount l) = false)
    by (now rewrite Hlim, Hcount).
  eexists. split.
  - rewrite (download_link_granted bcrypt env req s token l f Hl Ha Hp He Hhit Hf).
    now rewrite Hpath, Hname.
  - exists (apply_link_update l (bump_link l)), (apply_file_update f (bump_file f)).
    repeat split; cbn; auto.
    + apply (getSharedLink_update token l (bump_link l)
               (Db.createDownloadLog (link_log req f l) s) Hl).
    + now rewrite Hcount.
    + pose proof (getFile_found _ _ _ Hf) as Hid. rewrite Hid.
      apply (getFile_updateFile (link_fileId l) f (bump_file f)
               (Db.updateSharedLink (link_id l) (bump_link l)
                  (Db.createDownloadLog (link_log req f l) s)));
        [exact Hf | exact Hid].
Qed.

Lemma link_open_grant s c :
  L <> 0 -> c < L -> open_at s c ->
  exists s', run (Routes.download_link bcrypt env token req) s = (Download path name, s')
             /\ open_at s' (c + 1).
Proof. intros HL Hc. apply link_open_pass. now apply limit_hit_below. Qed.

Lemma link_open_deny s c :
  L <> 0 -> L <= c -> open_at s c ->
  run (Routes.download_link bcrypt env token req) s = (Json 429 DownloadLimitExceeded, s).
Proof.
  intros HL Hc (l & f & Hl & Ha & Hp & He & Hlim & Hcount & _).
  apply (download_link_limit bcrypt env req s token l Hl Ha Hp He).
  rewrite Hlim, Hcount. now apply limit_hit_reached.
Qed.

Lemma exhausted_link_denies n : forall s c,
  L <> 0 -> L <= c -> open_at s c ->
  sequential (replicate n (Routes.download_link bcrypt env token req)) s
  = (replicate n (Json 429 DownloadLimitExceeded), s).
Proof.
  induction n as [|n IH]; intros s c HL Hc Hopen; [reflexivity|].
  cbn [replicate sequential]. rewrite (link_open_deny s c HL Hc Hopen).
  now rewrite (IH s c HL Hc Hopen).
Qed.

Lemma sequential_link_downloads n : forall s c,
  0 < L -> 0 <= c <= L -> open_at s c ->
  exists s',
    sequential (replicate n (Routes.download_link bcrypt env token req)) s
    = (replicate (Nat.min n (Z.to_nat (L - c))) (Download path name)
       ++ replicate (n - Nat.min n (Z.to_nat (L - c))) (Json 429 DownloadLimitExceeded),
       s')
    /\ open_at s' (c + Z.of_nat (Nat.min n (Z.to_nat (L - c)))).
Proof.
  induction n as [|n IH]; intros s c HL Hc Hopen.
  - exists s. cbn. split; [reflexivity|]. now rewrite Z.add_0_r.
  - destruct (Z.eq_dec c L) as [-> | Hne].
    + exists s. rewrite Z.sub_diag. cbn [Z.to_nat]. rewrite Nat.min_0_r, Nat.sub_0_r.
      cbn [replicate app Z.of_nat]. rewrite Z.add_0_r. split; [|exact Hopen].
      apply (exhausted_link_denies (S n) s L); [lia | lia | exact Hopen].
    + destruct (link_open_grant s c) as (s1 & Hrun & Hopen1); [lia | lia | exact Hopen |].
      destruct (IH s1 (c + 1)) as (s' & Hseq & Hopen'); [lia | lia | exact Hopen1 |].
      exists s'. cbn [replicate sequential]. rewrite Hrun, Hseq.
      replace (Z.to_nat (L - c)) with (S (Z.to_nat (L - (c + 1)))) by lia.
      cbn [Nat.min Nat.sub replicate app]. split; [reflexivity|].
      replace (c + Z.of_nat (S (Nat.min n (Z.to_nat (L - (c + 1))))))
        with (c + 1 + Z.of_nat (Nat.min n (Z.to_nat (L - (c + 1))))) by lia.
      exact Hopen'.
Qed.

End LinkDownloads.




(** ** A limit of zero *)

Lemma zero_limit_not_hit count : limit_hit (Some 0) count = false.
Proof. reflexivity. Qed.

Lemma in_int4_succ c : 0 <= c -> c < int4_max -> in_int4 (c + 1) = true.
Proof. unfold in_int4, int4_max. lia. Qed.

Lemma sequence_db (h : Handler) (open : Db.Store -> Z -> Prop) (ok : Response) (top : Z) :
  (forall s k, 0 <= k < top -> open s k ->
               exists s', run_db h s = (ok, s') /\ open s' (k + 1)) ->
  forall n s k, 0 <= k -> k + Z.of_nat n <= top -> open s k ->
  exists s',
    sequential_db (replicate n h) s = (replicate n ok, s') /\ open s' (k + Z.of_nat n).
Proof.
  intros Hgrant. induction n as [|n IH]; intros s k Hk Hn Hopen.
  - exists s. cbn. split; [reflexivity|]. now rewrite Z.add_0_r.
  - destruct (Hgrant s k ltac:(lia) Hopen) as (s1 & Hrun & Hopen1).
    destruct (IH s1 (k + 1) ltac:(lia) ltac:(lia) Hopen1) as (s' & Hseq & Hopen').
    exists s'. cbn [replicate sequential_db]. rewrite Hrun, Hseq.
    split; [reflexivity|].
    replace (k + Z.of_nat (S n)) with (k + 1 + Z.of_nat n) by lia. exact Hopen'.
Qed.

Section ZeroLimit.
Context (bcrypt : Bcrypt) (env : Env) (req : Request).

Lemma code_grant_db code path name s c :
  0 <= c < int4_max -> file_open env code 0 path name s c ->
  exists s', run_db (Routes.download_code env code req) s = (Download path name, s')
             /\ file_open env code 0 path name s' (c + 1).
Proof.
  intros Hc (f & Hf & He & Hlim & Hcount & Hpath & Hname).
  eexists. split.
  - cbn. rewrite Hf, He, Hlim. cbn.
    rewrite in_int4_succ by lia. cbn. now rewrite Hpath, Hname.
  - exists (apply_file_update f (bump_file f)). repeat split; cbn; auto.
    + apply (getFileByShareCode_count code f _ (Db.createDownloadLog (code_log req f) s) Hf).
    + now rewrite Hcount.
Qed.

Lemma public_grant_db code path name type s c :
  0 <= c < int4_max -> public_open bcrypt env req code 0 path name type s c ->
  exists s', run_db (Routes.public_download bcrypt env code req) s
             = (SendFile path name type, s')
             /\ public_open bcrypt env req code 0 path name type s' (c + 1).
Proof.
  intros Hc (f & Hf & Hpub & Hm & Hp & He & Hlim & Hcount & Hd & Hpath & Hname & Ht).
  eexists. split.
  - cbn. rewrite Hf, Hpub. cbn [negb]. rewrite Hm, Hp, He, Hlim, Hd. cbn.
    rewrite in_int4_succ by lia. cbn. now rewrite Hpath, Hname, Ht.
  - exists (apply_file_update f (bump_file f)). repeat split; cbn; auto.
    + apply (getFileByShareCode_count code f _ s Hf).
    + now rewrite Hcount.
Qed.

Lemma link_grant_db token path name s c cf :
  0 <= c < int4_max -> 0 <= cf < int4_max ->
  link_file_open bcrypt env req token 0 path name s c cf ->
  exists s', run_db (Routes.download_link bcrypt env token req) s = (Download path name, s')
             /\ link_file_open bcrypt env req token 0 path name s' (c + 1) (cf + 1).
Proof.
  intros Hc Hcf (l & f & Hl & Ha & Hp & He & Hlim & Hcount & Hf & Hfc & Hpath & Hname).
  eexists. split.
  - cbn. rewrite Hl, Ha. cbn [negb]. rewrite Hp, He, Hlim. cbn. rewrite Hf. cbn.
    rewrite !in_int4_succ by lia. cbn. now rewrite Hpath, Hname.
  - exists (apply_link_update l (bump_link l)), (apply_file_update f (bump_file f)).
    repeat split; cbn; auto.
    + apply (getSharedLink_update token l (bump_link l)
               (Db.createDownloadLog (link_log req f l) s) Hl).
    + now rewrite Hcount.
    + pose proof (getFile_found _ _ _ Hf) as Hid. rewrite Hid.
      apply (getFile_updateFile (link_fileId l) f (bump_file f)
               (Db.updateSharedLink (link_id l) (bump_link l)
                  (Db.createDownloadLog (link_log req f l) s)));
        [exact Hf | exact Hid].
    + now rewrite Hfc.
Qed.

Lemma shared_grant_db token path name type s c :
  0 <= c < int4_max -> shared_open bcrypt env req token 0 path name type s c ->
  exists s', run_db (Routes.download_shared bcrypt env token req) s
             = (SendFile path name type, s')
             /\ shared_open bcrypt env req token 0 path name type s' (c + 1).
Proof.
  intros Hc (l & f & Hl & Ha & He & Hm & Hp & Hlim & Hcount & Hf & Hd & Hpath & Hname & Ht).
  eexists. split.
  - cbn. rewrite Hl, Ha. cbn [negb]. rewrite He, Hlim, Hm, Hp. cbn. rewrite Hf, Hd. cbn.
    rewrite in_int4_succ by lia. cbn. now rewrite Hpath, Hname, Ht.
  - exists (apply_link_update l (bump_link l)), f.
    repeat split; cbn; auto.
    + apply (getSharedLink_update token l (bump_link l) s Hl).
    + now rewrite Hcount.
Qed.

End ZeroLimit.


Ltac no_limit_answer :=
  repeat first
    [ reflexivity
    | match goal with
      | |- context [if ?b then _ else _] => destruct b
      | |- context [match ?x with Some _ => _ | None => _ end] => destruct x
      end
    | progress cbn ].



(** ** Scenarios of the specification *)

(** A public file with limit 2: two downloads are sent, the third is
    refused, and the counter ends at 2. *)
Example limit_two_then_refused :
  let after := sequential (replicate 3 (Routes.download_code env0 (js "ABCD1234") anonymous))
                 (store_of (with_limit 2 plain_file) []) in
  fst after = [Download (js "uploads/a") (js "a.txt");
               Download (js "uploads/a") (js "a.txt");
               Json 429 DownloadLimitExceeded]
  /\ option_map downloadCount (Db.getFileByShareCode (js "ABCD1234") (snd after)) = Some 2.
Proof. split; reflexivity. Qed.

(** A link protected by "secret": a wrong password is refused and the
    right one is let through. *)
Example link_password_gate :
  let link := {| link_id := js "l1"; link_fileId := js "f1"; linkType := js "public";
                 shareToken := Some (js "tok"); recipientEmail := None;
                 passwordHash :=
                   Some (DbPassword.hashFilePassword toy_bcrypt (js "secret") (js "s"));
                 link_expiresAt := Some 2000; link_downloadLimit := None;
                 link_downloadCount := 0; isActive := true; link_createdAt := 0 |} in
  fst (run (Routes.download_shared toy_bcrypt env0 (js "tok") (with_password (js "wrong")))
         (store_of plain_file [link]))
  = Json 401 InvalidPassword
  /\ fst (run (Routes.download_shared toy_bcrypt env0 (js "tok") (with_password (js "secret")))
            (store_of plain_file [link]))
     = SendFile (js "uploads/a") (js "a.txt") (js "text/plain").
Proof. split; reflexivity. Qed.

(** An inactive link is refused whatever else holds. *)
Example inactive_link_refused :
  let link := apply_link_update plain_link (mkLinkUpdate None (Some false)) in
  fst (run (Routes.shared_info toy_bcrypt env0 (js "tok") anonymous)
         (store_of plain_file [link]))
  = Json 410 SharedLinkInactive
  /\ fst (run (Routes.download_shared toy_bcrypt env0 (js "tok") anonymous)
            (store_of plain_file [link]))
     = Json 404 SharedLinkNotFound.
Proof. split; reflexivity. Qed.

(** ** The share-code index of [MemStorage] *)

Lemma truthy_str_spec x :
  truthy_str x = true -> or_empty x <> [] /\ x = Some (or_empty x).
Proof. destruct x as [[|a l]|]; cbn; try discriminate. auto. Qed.

Lemma falsy_str_spec c : truthy_str (Some c) = false -> c = [].
Proof. destruct c; cbn; [reflexivity | discriminate]. Qed.

Lemma or_empty_some c : c <> [] -> or_empty (Some c) = c.
Proof. destruct c; [contradiction | reflexivity]. Qed.

Lemma truthy_some c : c <> [] -> truthy_str (Some c) = true.
Proof. destruct c; [contradiction | reflexivity]. Qed.

Lemma index_sound_empty : index_sound Mem.empty.
Proof. intros c id H. cbn in H. now rewrite lookup_empty in H. Qed.

Lemma createFile_sound id now ins st :
  Mem.files st !! id = None -> index_sound st ->
  index_sound (snd (Mem.createFile id now ins st)).
Proof.
  intros Hfresh Hs c id' Hidx. cbn in *.
  destruct (truthy_str (Mem.i_shareCode ins)) eqn:Ht.
  - apply truthy_str_spec in Ht as [Hne Hc].
    destruct (decide (or_empty (Mem.i_shareCode ins) = c)) as [<- | Hneq].
    + rewrite lookup_insert_eq in Hidx. injection Hidx as <-.
      split; [exact Hne|]. eexists. rewrite lookup_insert_eq. split; [reflexivity|].
      exact Hc.
    + rewrite lookup_insert_ne in Hidx by exact Hneq.
      destruct (Hs c id' Hidx) as (Hc' & f & Hf & Hcode).
      split; [exact Hc'|]. exists f. split; [|exact Hcode].
      rewrite lookup_insert_ne; [exact Hf | congruence].
  - destruct (Hs c id' Hidx) as (Hc' & f & Hf & Hcode).
    split; [exact Hc'|]. exists f. split; [|exact Hcode].
    rewrite lookup_insert_ne; [exact Hf | congruence].
Qed.

Lemma deleteFile_sound id st :
  index_sound st -> index_sound (snd (Mem.deleteFile id st)).
Proof.
  intros Hs. unfold Mem.deleteFile.
  destruct (Mem.files st !! id) as [file|] eqn:Hfile; [|exact Hs].
  intros c id' Hidx. cbn in *.
  assert (Hold : Mem.shareCodeToFileId st !! c = Some id'
                 /\ (truthy_str (shareCode file) = true -> or_empty (shareCode file) <> c)).
  { destruct (truthy_str (shareCode file)).
    - apply lookup_delete_Some in Hidx as [Hne Hidx]. auto.
    - split; [exact Hidx | discriminate]. }
  destruct Hold as [Hidx0 Hother].
  destruct (Hs c id' Hidx0) as (Hc & f & Hf & Hcode).
  split; [exact Hc|]. exists f. split; [|exact Hcode].
  rewrite lookup_delete_ne; [exact Hf|].
  intros <-. rewrite Hfile in Hf. injection Hf as <-.
  apply Hother; rewrite Hcode; [now apply truthy_some | now apply or_empty_some].
Qed.

Lemma updateFile_sound id u now st :
  index_sound st -> index_sound (snd (Mem.updateFile id u now st)).
Proof.
  intros Hs. unfold Mem.updateFile.
  destruct (Mem.files st !! id) as [existing|] eqn:Hex; [|exact Hs].
  set (updated := touch now (apply_file_update existing u)).
  set (idx1 := if truthy_str (shareCode existing) && Mem.code_differs u existing
               then delete (or_empty (shareCode existing)) (Mem.shareCodeToFileId st)
               else Mem.shareCodeToFileId st).
  intros c id' Hidx. cbn [snd Mem.with_files Mem.files Mem.shareCodeToFileId] in *.
  (* the entry is the one just written, or it was in [idx1] *)
  assert (Hcase : (truthy_str (shareCode updated) = true
                   /\ or_empty (shareCode updated) = c /\ id' = id)
                  \/ (idx1 !! c = Some id'
                      /\ (truthy_str (shareCode updated) = true ->
                          or_empty (shareCode updated) <> c))).
  { destruct (truthy_str (shareCode updated)) eqn:Ht.
    - destruct (decide (or_empty (shareCode updated) = c)) as [E | E].
      + rewrite <- E, lookup_insert_eq in Hidx. injection Hidx as <-. auto.
      + rewrite lookup_insert_ne in Hidx by exact E. auto.
    - right. split; [exact Hidx | discriminate]. }
  destruct Hcase as [(Ht & <- & ->) | [Hidx1 Hnot]].
  - apply truthy_str_spec in Ht as [Hne Hc]. split; [exact Hne|].
    exists updated. rewrite lookup_insert_eq. auto.
  - assert (Hold : Mem.shareCodeToFileId st !! c = Some id'
                   /\ (truthy_str (shareCode existing) && Mem.code_differs u existing = true ->
                       or_empty (shareCode existing) <> c)).
    { subst idx1.
      destruct (truthy_str (shareCode existing) && Mem.code_differs u existing).
      - apply lookup_delete_Some in Hidx1 as [Hne Hidx1]. auto.
      - split; [exact Hidx1 | discriminate]. }
    destruct Hold as [Hidx0 Hkept].
    destruct (Hs c id' Hidx0) as (Hc & f & Hf & Hcode).
    split; [exact Hc|]. exists f. split; [|exact Hcode].
    rewrite lookup_insert_ne; [exact Hf|].
    intros <-. rewrite Hex in Hf. injection Hf as <-.
    (* the entry of the updated file itself: it was dropped or rewritten *)
    destruct (Mem.code_differs u existing) eqn:Hd.
    + apply Hkept; rewrite Hcode; [|now apply or_empty_some].
      now rewrite (truthy_some c Hc).
    + unfold Mem.code_differs in Hd.
      destruct (u_shareCode u) as [[c'|]|] eqn:Hu; try discriminate.
      apply negb_false_iff, str_eqb_eq in Hd.
      rewrite Hcode, (or_empty_some c Hc) in Hd. subst c'.
      assert (Hup : shareCode updated = Some c) by (subst updated; cbn; now rewrite Hu).
      apply Hnot; rewrite Hup; [now apply truthy_some | now apply or_empty_some].
Qed.

Lemma calls_sound cs : forall st,
  Mem.fresh_uuids cs st = true -> index_sound st -> index_sound (Mem.calls cs st).
Proof.
  induction cs as [|c cs IH]; intros st Hfresh Hs; [exact Hs|].
  cbn in Hfresh. apply andb_true_iff in Hfresh as [Hc Hrest].
  cbn [Mem.calls]. apply IH; [exact Hrest|].
  destruct c as [id now ins | id u now | id]; cbn [Mem.call].
  - apply createFile_sound; [|exact Hs].
    cbn in Hc. now destruct (Mem.files st !! id).
  - now apply updateFile_sound.
  - now apply deleteFile_sound.
Qed.

Lemma getFileByShareCode_sound st c f :
  index_sound st -> Mem.getFileByShareCode c st = Some f ->
  (exists id, Mem.files st !! id = Some f) /\ shareCode f = Some c.
Proof.
  intros Hs. unfold Mem.getFileByShareCode.
  destruct (Mem.shareCodeToFileId st !! c) as [[|a id]|] eqn:Hidx; try discriminate.
  intros Hf. destruct (Hs c (a :: id) Hidx) as (_ & f' & Hf' & Hcode).
  rewrite Hf in Hf'. injection Hf' as <-. eauto.
Qed.

Lemma deleteFile_forgets_code st id f c :
  index_sound st -> Mem.files st !! id = Some f -> shareCode f = Some c ->
  fst (Mem.deleteFile id st) = true
  /\ Mem.getFileByShareCode c (snd (Mem.deleteFile id st)) = None.
Proof.
  intros Hs Hf Hcode. unfold Mem.deleteFile. rewrite Hf. cbn [fst snd].
  split; [reflexivity|]. unfold Mem.getFileByShareCode. cbn [Mem.shareCodeToFileId Mem.files].
  rewrite Hcode. destruct (truthy_str (Some c)) eqn:Ht.
  - apply truthy_str_spec in Ht as [Hne _]. rewrite (or_empty_some c) by (now destruct c).
    now rewrite lookup_delete_eq.
  - apply falsy_str_spec in Ht. subst c.
    destruct (Mem.shareCodeToFileId st !! []) as [id'|] eqn:Hidx; [|reflexivity].
    now destruct (Hs [] id' Hidx) as [Hne _].
Qed.

(** C10: after any sequence of [createFile], [updateFile] and
    [deleteFile] calls on a new [MemStorage], a file returned by
    [getFileByShareCode(c)] is stored and carries the share code [c],
    and once a stored file is deleted a lookup by its share code returns
    nothing. *)
Theorem share_code_index_sound (cs : list Mem.Call) :
  Mem.fresh_uuids cs Mem.empty = true ->
  (forall c f,
     Mem.getFileByShareCode c (Mem.calls cs Mem.empty) = Some f ->
     (exists id, Mem.files (Mem.calls cs Mem.empty) !! id = Some f)
     /\ shareCode f = Some c)
  /\ (forall id f c,
        Mem.files (Mem.calls cs Mem.empty) !! id = Some f ->
        shareCode f = Some c ->
        fst (Mem.deleteFile id (Mem.calls cs Mem.empty)) = true
        /\ Mem.getFileByShareCode c (snd (Mem.deleteFile id (Mem.calls cs Mem.empty)))
           = None).
Proof.
  intros Hfresh.
  pose proof (calls_sound cs Mem.empty Hfresh index_sound_empty) as Hs.
  split.
  - intros c f. now apply getFileByShareCode_sound.
  - intros id f c. now apply deleteFile_forgets_code.
Qed.

Lemma share_code_index_sound_witness :
  Mem.fresh_uuids share_code_calls Mem.empty = true
  /\ forall c f,
       Mem.getFileByShareCode c (Mem.calls share_code_calls Mem.empty) = Some f ->
       (exists id, Mem.files (Mem.calls share_code_calls Mem.empty) !! id = Some f)
       /\ shareCode f = Some c.
Proof.
  split; [vm_compute; reflexivity|].
  apply (share_code_index_sound share_code_calls). vm_compute. reflexivity.
Defined.

Example share_code_lookup :
  option_map file_id
    (Mem.getFileByShareCode (js "CODE0002") (Mem.calls share_code_calls Mem.empty))
  = Some (js "id-1")
  /\ Mem.getFileByShareCode (js "CODE0001") (Mem.calls share_code_calls Mem.empty) = None.
Proof. split; vm_compute; reflexivity. Qed.

(** * Further properties *)

(** ** Links and logs of [MemStorage] *)

Lemma lookup_foldr_delete {A V} (key : A -> list N) (xs : list A) (m : gmap (list N) V) k :
  foldr (fun x acc => delete (key x) acc) m xs !! k
  = if decide (k ∈ map key xs) then None else m !! k.
Proof.
  induction xs as [|x xs IH]; cbn [foldr map].
  - destruct (decide _) as [H|_]; [|reflexivity]. now apply elem_of_nil in H.
  - rewrite lookup_delete. destruct (decide (key x = k)) as [<- | Hne].
    + rewrite decide_True; [reflexivity | apply list_elem_of_here].
    + rewrite IH. destruct (decide (k ∈ map key xs)) as [Hin | Hnin].
      * rewrite decide_True; [reflexivity | now apply list_elem_of_further].
      * rewrite decide_False; [reflexivity|].
        intros [Heq | Hin]%elem_of_cons; [congruence | contradiction].
Qed.

Lemma lookup_forget (key : option (list N)) (m : gmap (list N) (list N)) k :
  Mem.forget key m !! k = if decide (key = Some k) then None else m !! k.
Proof.
  destruct key as [k'|]; cbn.
  - rewrite lookup_delete. destruct (decide (k' = k)) as [-> | Hne].
    + now rewrite decide_True.
    + rewrite decide_False; [reflexivity | congruence].
  - now rewrite decide_False.
Qed.

Lemma lookup_foldr_forget {A} (key : A -> option (list N)) (xs : list A)
    (m : gmap (list N) (list N)) k :
  foldr (fun x acc => Mem.forget (key x) acc) m xs !! k
  = if decide (Some k ∈ map key xs) then None else m !! k.
Proof.
  induction xs as [|x xs IH]; cbn [foldr map].
  - destruct (decide _) as [H|_]; [|reflexivity]. now apply elem_of_nil in H.
  - rewrite lookup_forget. destruct (decide (key x = Some k)) as [E | Hne].
    + rewrite decide_True; [reflexivity | rewrite E; apply list_elem_of_here].
    + rewrite IH. destruct (decide (Some k ∈ map key xs)) as [Hin | Hnin].
      * rewrite decide_True; [reflexivity | now apply list_elem_of_further].
      * rewrite decide_False; [reflexivity|].
        intros [Heq | Hin]%elem_of_cons; [congruence | contradiction].
Qed.

Lemma value_of_map {V} (m : gmap (list N) V) (v : V) :
  v ∈ map snd (map_to_list m) <-> exists k, m !! k = Some v.
Proof.
  change (map snd (map_to_list m)) with (snd <$> map_to_list m).
  rewrite list_elem_of_fmap. split.
  - intros ([k v'] & -> & Hin). exists k. now apply elem_of_map_to_list.
  - intros (k & Hk). exists (k, v). split; [reflexivity|].
    now apply elem_of_map_to_list.
Qed.

Lemma doomed_link (st : Mem.State) id k l :
  link_keys st -> Mem.sharedLinks st !! k = Some l ->
  (k ∈ map link_id
        (filter (fun l => link_fileId l = id) (map snd (map_to_list (Mem.sharedLinks st))))
   <-> link_fileId l = id).
Proof.
  intros Hkeys Hl. change (map link_id ?x) with (link_id <$> x).
  rewrite list_elem_of_fmap. split.
  - intros (l' & -> & Hin). apply list_elem_of_filter in Hin as [Hf Hin].
    apply value_of_map in Hin as (k' & Hk').
    rewrite (Hkeys _ _ Hk') in Hl. congruence.
  - intros Hf. exists l. split; [now rewrite (Hkeys _ _ Hl)|].
    apply list_elem_of_filter. split; [exact Hf|]. apply value_of_map. eauto.
Qed.

Lemma keys_perform o st :
  link_keys st /\ log_keys st -> link_keys (Mem.perform o st) /\ log_keys (Mem.perform o st).
Proof.
  intros [Hl Hg]. destruct o as [[id now ins | id u now | id] | id now ins | id u | id | id now ins];
    cbn [Mem.perform Mem.call].
  - split; [exact Hl | exact Hg].
  - unfold Mem.updateFile. destruct (Mem.files st !! id); split; assumption.
  - unfold Mem.deleteFile. destruct (Mem.files st !! id); [|split; assumption].
    split; intros k l; cbn [snd Mem.sharedLinks Mem.downloadLogs];
      rewrite lookup_foldr_delete; destruct (decide _); try discriminate; auto.
  - split; [|exact Hg]. intros k l. cbn.
    destruct (decide (id = k)) as [<- | Hne].
    + rewrite lookup_insert_eq. now intros [= <-].
    + rewrite lookup_insert_ne by exact Hne. apply Hl.
  - unfold Mem.updateSharedLink.
    destruct (Mem.sharedLinks st !! id) as [existing|] eqn:Hex; [|split; assumption].
    split; [|exact Hg]. intros k l. cbn.
    destruct (decide (id = k)) as [<- | Hne].
    + rewrite lookup_insert_eq. intros [= <-]. cbn. now apply Hl.
    + rewrite lookup_insert_ne by exact Hne. apply Hl.
  - unfold Mem.deleteSharedLink.
    destruct (Mem.sharedLinks st !! id) as [link|]; [|split; assumption].
    split; [|exact Hg]. intros k l. cbn. intros [_ H]%lookup_delete_Some. now apply Hl.
  - split; [exact Hl|]. intros k l. cbn.
    destruct (decide (id = k)) as [<- | Hne].
    + rewrite lookup_insert_eq. now intros [= <-].
    + rewrite lookup_insert_ne by exact Hne. apply Hg.
Qed.

Lemma tokens_createSharedLink id now ins st :
  Mem.sharedLinks st !! id = None -> token_sound st ->
  token_sound (snd (Mem.createSharedLink id now ins st)).
Proof.
  intros Hfresh Hs t id' Hidx. cbn in *.
  destruct (decide (Mem.i_shareToken ins = t)) as [<- | Hne].
  - rewrite lookup_insert_eq in Hidx. injection Hidx as <-.
    eexists. rewrite lookup_insert_eq. split; reflexivity.
  - rewrite lookup_insert_ne in Hidx by exact Hne.
    destruct (Hs t id' Hidx) as (l & Hl & Ht). exists l. split; [|exact Ht].
    rewrite lookup_insert_ne; [exact Hl | congruence].
Qed.

Lemma tokens_updateSharedLink id u st :
  Mem.keeps_token (Mem.UpdateSharedLink id u) = true -> token_sound st ->
  token_sound (snd (Mem.updateSharedLink id u st)).
Proof.
  intros Hkeep Hs. unfold Mem.updateSharedLink.
  destruct (Mem.sharedLinks st !! id) as [existing|] eqn:Hex; [|exact Hs].
  intros t id' Hidx. cbn [snd Mem.with_links Mem.sharedLinks Mem.shareTokenToLinkId] in *.
  unfold Mem.token_changes, Mem.read_shareToken in Hidx. cbn in Hkeep.
  destruct (Mem.p_shareToken u) as [[[|c tn]|]|] eqn:Hu; try discriminate; cbn in Hidx.
  - (* a new token, or the same one *)
    destruct (bool_decide (Some (c :: tn) = shareToken existing)) eqn:Hsame; cbn in Hidx.
    + apply bool_decide_eq_true in Hsame. destruct (Hs t id' Hidx) as (l & Hl & Ht).
      destruct (decide (id = id')) as [<- | Hne].
      * eexists. rewrite lookup_insert_eq. split; [reflexivity|]. cbn.
        rewrite Hu. cbn. rewrite Hex in Hl. injection Hl as <-. congruence.
      * exists l. now rewrite lookup_insert_ne.
    + destruct (decide (c :: tn = t)) as [<- | Hne].
      * rewrite lookup_insert_eq in Hidx. injection Hidx as <-.
        eexists. rewrite lookup_insert_eq. split; [reflexivity|]. cbn. now rewrite Hu.
      * rewrite lookup_insert_ne in Hidx by exact Hne.
        rewrite lookup_forget in Hidx. destruct (decide _) as [|Hold]; [discriminate|].
        destruct (Hs t id' Hidx) as (l & Hl & Ht).
        exists l. split; [|exact Ht]. rewrite lookup_insert_ne; [exact Hl|].
        intros <-. rewrite Hex in Hl. injection Hl as <-. congruence.
  - (* the token is not part of the update *)
    destruct (Hs t id' Hidx) as (l & Hl & Ht).
    destruct (decide (id = id')) as [<- | Hne].
    + eexists. rewrite lookup_insert_eq. split; [reflexivity|]. cbn.
      rewrite Hu. cbn. rewrite Hex in Hl. injection Hl as <-. exact Ht.
    + exists l. now rewrite lookup_insert_ne.
Qed.

Lemma tokens_deleteSharedLink id st :
  token_sound st -> token_sound (snd (Mem.deleteSharedLink id st)).
Proof.
  intros Hs. unfold Mem.deleteSharedLink.
  destruct (Mem.sharedLinks st !! id) as [link|] eqn:Hex; [|exact Hs].
  intros t id' Hidx. cbn in *. rewrite lookup_forget in Hidx.
  destruct (decide _) as [|Hne]; [discriminate|].
  destruct (Hs t id' Hidx) as (l & Hl & Ht). exists l. split; [|exact Ht].
  rewrite lookup_delete_ne; [exact Hl|].
  intros <-. rewrite Hex in Hl. injection Hl as <-. congruence.
Qed.

Lemma tokens_deleteFile id st :
  link_keys st -> token_sound st -> token_sound (snd (Mem.deleteFile id st)).
Proof.
  intros Hkeys Hs. unfold Mem.deleteFile.
  destruct (Mem.files st !! id) as [file|]; [|exact Hs].
  intros t id' Hidx. cbn [snd Mem.sharedLinks Mem.shareTokenToLinkId] in *.
  rewrite lookup_foldr_forget in Hidx. destruct (decide _) as [|Hkept]; [discriminate|].
  destruct (Hs t id' Hidx) as (l & Hl & Ht). exists l. split; [|exact Ht].
  rewrite lookup_foldr_delete. rewrite decide_False; [exact Hl|].
  intros Hdoomed. apply (doomed_link st id id' l Hkeys Hl) in Hdoomed.
  apply Hkept. change (map shareToken ?x) with (shareToken <$> x).
  apply list_elem_of_fmap. exists l. split; [now rewrite Ht|].
  apply list_elem_of_filter. split; [exact Hdoomed|]. apply value_of_map. eauto.
Qed.

Lemma tokens_perform o st :
  Mem.fresh o st = true -> Mem.keeps_token o = true ->
  link_keys st -> token_sound st -> token_sound (Mem.perform o st).
Proof.
  intros Hfresh Hkeep Hkeys Hs.
  destruct o as [[id now ins | id u now | id] | id now ins | id u | id | id now ins];
    cbn [Mem.perform Mem.call].
  - exact Hs.
  - unfold Mem.updateFile. destruct (Mem.files st !! id); exact Hs.
  - now apply tokens_deleteFile.
  - apply tokens_createSharedLink; [|exact Hs].
    cbn in Hfresh. unfold Mem.unused in Hfresh. now destruct (Mem.sharedLinks st !! id).
  - now apply tokens_updateSharedLink.
  - now apply tokens_deleteSharedLink.
  - exact Hs.
Qed.

Lemma codes_perform o st :
  Mem.fresh o st = true -> index_sound st -> index_sound (Mem.perform o st).
Proof.
  intros Hfresh Hs.
  destruct o as [[id now ins | id u now | id] | id now ins | id u | id | id now ins];
    cbn [Mem.perform Mem.call].
  - apply createFile_sound; [|exact Hs]. cbn in Hfresh. now destruct (Mem.files st !! id).
  - now apply updateFile_sound.
  - now apply deleteFile_sound.
  - exact Hs.
  - unfold Mem.updateSharedLink. destruct (Mem.sharedLinks st !! id); exact Hs.
  - unfold Mem.deleteSharedLink. destruct (Mem.sharedLinks st !! id); exact Hs.
  - exact Hs.
Qed.

Lemma keys_performs os : forall st,
  link_keys st /\ log_keys st ->
  link_keys (Mem.performs os st) /\ log_keys (Mem.performs os st).
Proof.
  induction os as [|o os IH]; intros st H; [exact H|].
  cbn [Mem.performs]. apply IH. now apply keys_perform.
Qed.

Lemma keys_empty : link_keys Mem.empty /\ log_keys Mem.empty.
Proof. split; intros k l H; cbn in H; now rewrite lookup_empty in H. Qed.

Lemma token_sound_empty : token_sound Mem.empty.
Proof. intros t id H. cbn in H. now rewrite lookup_empty in H. Qed.

Lemma tokens_performs os : forall st,
  Mem.all_fresh os st = true -> forallb Mem.keeps_token os = true ->
  link_keys st /\ log_keys st -> token_sound st -> token_sound (Mem.performs os st).
Proof.
  induction os as [|o os IH]; intros st Hfresh Hkeep Hkeys Hs; [exact Hs|].
  cbn in Hfresh, Hkeep. apply andb_true_iff in Hfresh as [Hf Hrest].
  apply andb_true_iff in Hkeep as [Hk Hkrest].
  cbn [Mem.performs]. apply IH; auto.
  - now apply keys_perform.
  - apply tokens_perform; tauto.
Qed.

Lemma codes_performs os : forall st,
  Mem.all_fresh os st = true -> index_sound st -> index_sound (Mem.performs os st).
Proof.
  induction os as [|o os IH]; intros st Hfresh Hs; [exact Hs|].
  cbn in Hfresh. apply andb_true_iff in Hfresh as [Hf Hrest].
  cbn [Mem.performs]. apply IH; [exact Hrest|]. now apply codes_perform.
Qed.

Lemma filter_none {A} (P : A -> Prop) `{forall x, Decision (P x)} (l : list A) :
  (forall x, x ∈ l -> ~ P x) -> filter P l = [].
Proof.
  induction l as [|x l IH]; intros Hnone; [reflexivity|].
  rewrite filter_cons_False by (apply Hnone, list_elem_of_here).
  apply IH. intros y Hy. apply Hnone. now apply list_elem_of_further.
Qed.

Lemma getSharedLink_sound st t l :
  token_sound st -> link_keys st -> Mem.getSharedLink t st = Some l ->
  Mem.sharedLinks st !! link_id l = Some l /\ shareToken l = Some t.
Proof.
  intros Hs Hk. unfold Mem.getSharedLink.
  destruct (Mem.shareTokenToLinkId st !! t) as [[|c id]|] eqn:Hidx; try discriminate.
  intros Hl. destruct (Hs t (c :: id) Hidx) as (l' & Hl' & Ht).
  rewrite Hl in Hl'. injection Hl' as <-. now rewrite (Hk _ _ Hl).
Qed.

(** X1: after any sequence of the seven writing operations on a new
    [MemStorage], in which no update carries a [shareToken] key with
    the empty string or [undefined], a link returned by
    [getSharedLink(t)] is stored under its own id and carries the token
    [t], and a file returned by [getFileByShareCode(c)] is stored and
    carries the code [c]. *)
Theorem lookups_sound (os : list Mem.Op) :
  Mem.all_fresh os Mem.empty = true ->
  forallb Mem.keeps_token os = true ->
  (forall t l,
     Mem.getSharedLink t (Mem.performs os Mem.empty) = Some l ->
     Mem.sharedLinks (Mem.performs os Mem.empty) !! link_id l = Some l
     /\ shareToken l = Some t)
  /\ (forall c f,
        Mem.getFileByShareCode c (Mem.performs os Mem.empty) = Some f ->
        (exists id, Mem.files (Mem.performs os Mem.empty) !! id = Some f)
        /\ shareCode f = Some c).
Proof.
  intros Hfresh Hkeep. split.
  - intros t l. apply getSharedLink_sound.
    + apply tokens_performs; auto using keys_empty, token_sound_empty.
    + apply keys_performs, keys_empty.
  - intros c f. apply getFileByShareCode_sound.
    apply codes_performs; auto using index_sound_empty.
Qed.

(** X2: in any state reached by the writing operations, updating a link
    found under a non-empty token [t] with [{ shareToken: '' }] leaves
    the index entry in place: [getSharedLink(t)] still returns that
    link, whose token is now empty. *)
Theorem empty_token_goes_stale (os : list Mem.Op) (t : jsstring) (l : SharedLink) :
  Mem.getSharedLink t (Mem.performs os Mem.empty) = Some l ->
  exists l',
    Mem.getSharedLink t
      (snd (Mem.updateSharedLink (link_id l) (Mem.set_shareToken (Some []))
              (Mem.performs os Mem.empty)))
    = Some l'
    /\ link_id l' = link_id l /\ shareToken l' = Some [].
Proof.
  destruct (keys_performs os Mem.empty keys_empty) as [Hk _].
  set (st := Mem.performs os Mem.empty) in *.
  unfold Mem.getSharedLink.
  destruct (Mem.shareTokenToLinkId st !! t) as [[|c id]|] eqn:Hidx; try discriminate.
  intros Hl. pose proof (Hk _ _ Hl) as Hid.
  unfold Mem.updateSharedLink. rewrite Hid, Hl.
  cbn [snd Mem.with_links Mem.sharedLinks Mem.shareTokenToLinkId Mem.token_changes
       Mem.read_shareToken Mem.set_shareToken Mem.p_shareToken truthy_str andb].
  rewrite Hidx, lookup_insert_eq. eexists. split; [reflexivity|]. now split.
Qed.

(** X26: the same for an update whose [shareToken] key holds
    [undefined]: the spread puts [undefined] in the stored link while
    the index keeps its entry, so [getSharedLink(t)] returns a link
    that carries no token. *)
Theorem undefined_token_goes_stale (os : list Mem.Op) (t : jsstring) (l : SharedLink) :
  Mem.getSharedLink t (Mem.performs os Mem.empty) = Some l ->
  exists l',
    Mem.getSharedLink t
      (snd (Mem.updateSharedLink (link_id l) (Mem.set_shareToken None)
              (Mem.performs os Mem.empty)))
    = Some l'
    /\ link_id l' = link_id l /\ shareToken l' = None.
Proof.
  destruct (keys_performs os Mem.empty keys_empty) as [Hk _].
  set (st := Mem.performs os Mem.empty) in *.
  unfold Mem.getSharedLink.
  destruct (Mem.shareTokenToLinkId st !! t) as [[|c id]|] eqn:Hidx; try discriminate.
  intros Hl. pose proof (Hk _ _ Hl) as Hid.
  unfold Mem.updateSharedLink. rewrite Hid, Hl.
  cbn [snd Mem.with_links Mem.sharedLinks Mem.shareTokenToLinkId Mem.token_changes
       Mem.read_shareToken Mem.set_shareToken Mem.p_shareToken truthy_str andb].
  rewrite Hidx, lookup_insert_eq. eexists. split; [reflexivity|]. now split.
Qed.

Section DeleteFile.
Context (os : list Mem.Op) (id : jsstring) (f : File).

Local Abbreviation before := (Mem.performs os Mem.empty).
Local Abbreviation after := (snd (Mem.deleteFile id (Mem.performs os Mem.empty))).

(** X3: deleting a stored file removes the file, every link and every
    log of that file, and the token entries of those links. *)
Theorem deleteFile_cascades :
  Mem.files before !! id = Some f ->
  fst (Mem.deleteFile id before) = true
  /\ Mem.getFile id after = None
  /\ Mem.getFileSharedLinks id after = []
  /\ Mem.getFileDownloadLogs id after = []
  /\ (forall k l,
        Mem.sharedLinks before !! k = Some l -> link_fileId l = id ->
        Mem.sharedLinks after !! k = None
        /\ forall t, shareToken l = Some t -> Mem.getSharedLink t after = None).
Proof.
  destruct (keys_performs os Mem.empty keys_empty) as [Hk Hg].
  intros Hf. unfold Mem.deleteFile. rewrite Hf. cbn [fst snd].
  split; [reflexivity|]. split; [apply lookup_delete_eq|].
  split; [|split].
  - apply filter_none. intros l [k Hl]%value_of_map Hfile.
    cbn [Mem.sharedLinks] in Hl. rewrite lookup_foldr_delete in Hl.
    destruct (decide _) as [|Hkept]; [discriminate|].
    apply Hkept. now apply (doomed_link _ id k l Hk Hl).
  - apply filter_none. intros l [k Hl]%value_of_map Hfile.
    cbn [Mem.downloadLogs] in Hl. rewrite lookup_foldr_delete in Hl.
    destruct (decide _) as [|Hkept]; [discriminate|].
    apply Hkept. change (map log_id ?x) with (log_id <$> x).
    apply list_elem_of_fmap. exists l. split; [now rewrite (Hg _ _ Hl)|].
    apply list_elem_of_filter. split; [exact Hfile|]. apply value_of_map. eauto.
  - intros k l Hl Hfile. split.
    + cbn [Mem.sharedLinks]. rewrite lookup_foldr_delete.
      rewrite decide_True; [reflexivity|]. now apply (doomed_link _ id k l Hk Hl).
    + intros t Ht. unfold Mem.getSharedLink. cbn [Mem.shareTokenToLinkId].
      rewrite lookup_foldr_forget, decide_True; [reflexivity|].
      change (map shareToken ?x) with (shareToken <$> x).
      apply list_elem_of_fmap. exists l. split; [now rewrite Ht|].
      apply list_elem_of_filter. split; [exact Hfile|]. apply value_of_map. eauto.
Qed.

(** X4: deleting a stored file leaves every other file, and every link
    and log of another file, stored as it was. *)
Theorem deleteFile_spares_others :
  Mem.files before !! id = Some f ->
  (forall id', id' <> id ->
     Mem.files (snd (Mem.deleteFile id before)) !! id' = Mem.files before !! id')
  /\ (forall k l,
        Mem.sharedLinks before !! k = Some l -> link_fileId l <> id ->
        Mem.sharedLinks (snd (Mem.deleteFile id before)) !! k = Some l)
  /\ (forall k l,
        Mem.downloadLogs before !! k = Some l -> log_fileId (log_entry l) <> id ->
        Mem.downloadLogs (snd (Mem.deleteFile id before)) !! k = Some l).
Proof.
  destruct (keys_performs os Mem.empty keys_empty) as [Hk Hg].
  intros Hf. unfold Mem.deleteFile. rewrite Hf. cbn [snd].
  split; [|split].
  - intros id' Hne. cbn [Mem.files]. now apply lookup_delete_ne.
  - intros k l Hl Hfile. cbn [Mem.sharedLinks]. rewrite lookup_foldr_delete.
    rewrite decide_False; [exact Hl|].
    intros Hd. now apply (doomed_link _ id k l Hk Hl) in Hd.
  - intros k l Hl Hfile. cbn [Mem.downloadLogs]. rewrite lookup_foldr_delete.
    rewrite decide_False; [exact Hl|].
    change (map log_id ?x) with (log_id <$> x).
    intros (l' & Hid & Hin)%list_elem_of_fmap.
    apply list_elem_of_filter in Hin as [Hfile' Hin].
    apply value_of_map in Hin as (k' & Hl').
    rewrite (Hg _ _ Hl') in Hid. subst k'. congruence.
Qed.

End DeleteFile.

(** X5: what was just created is found again: a new link under its
    token, a new file under its id and, when it has one, under its
    share code, whatever was stored before. *)
Theorem created_is_found (id : jsstring) (now : Z) (st : Mem.State) :
  id <> [] ->
  (forall insertLink,
     Mem.getSharedLink (Mem.i_shareToken insertLink)
       (snd (Mem.createSharedLink id now insertLink st))
     = Some (fst (Mem.createSharedLink id now insertLink st)))
  /\ (forall insertFile,
        Mem.getFile id (snd (Mem.createFile id now insertFile st))
        = Some (fst (Mem.createFile id now insertFile st))
        /\ forall c, c <> [] -> Mem.i_shareCode insertFile = Some c ->
           Mem.getFileByShareCode c (snd (Mem.createFile id now insertFile st))
           = Some (fst (Mem.createFile id now insertFile st))).
Proof.
  intros Hid. destruct id as [|a id]; [contradiction|]. split.
  - intros ins. unfold Mem.getSharedLink. cbn.
    now rewrite !lookup_insert_eq.
  - intros ins. split.
    + unfold Mem.getFile. cbn. apply lookup_insert_eq.
    + intros c Hc Hcode. unfold Mem.getFileByShareCode. cbn. rewrite Hcode.
      rewrite (truthy_some c Hc), (or_empty_some c Hc).
      now rewrite !lookup_insert_eq.
Qed.

(** X6: after [updateFile] on a stored file, a lookup by the share code
    the file now carries returns the updated file, whichever file that
    code pointed to before, and a lookup by the code it carried before
    and no longer carries returns nothing. *)
Theorem updateFile_repoints_code (id : jsstring) (u : FileUpdate) (now : Z)
    (st : Mem.State) (existing updated : File) :
  id <> [] ->
  Mem.files st !! id = Some existing ->
  fst (Mem.updateFile id u now st) = Some updated ->
  (forall c, c <> [] -> shareCode updated = Some c ->
     Mem.getFileByShareCode c (snd (Mem.updateFile id u now st)) = Some updated)
  /\ (forall c0, c0 <> [] -> shareCode existing = Some c0 ->
        shareCode updated <> Some c0 ->
        Mem.getFileByShareCode c0 (snd (Mem.updateFile id u now st)) = None).
Proof.
  intros Hid Hex. destruct id as [|a id]; [contradiction|].
  unfold Mem.updateFile. rewrite Hex. cbn [fst snd]. intros [= <-].
  set (updated := touch now (apply_file_update existing u)).
  split.
  - intros c Hc Hcode. unfold Mem.getFileByShareCode.
    cbn [Mem.with_files Mem.files Mem.shareCodeToFileId].
    rewrite Hcode, (truthy_some c Hc), (or_empty_some c Hc).
    now rewrite !lookup_insert_eq.
  - intros c0 Hc0 Hcode0 Hmoved. unfold Mem.getFileByShareCode.
    cbn [Mem.with_files Mem.files Mem.shareCodeToFileId].
    assert (Hdiff : Mem.code_differs u existing = true).
    { unfold Mem.code_differs.
      destruct (u_shareCode u) as [[c|]|] eqn:Hu; try reflexivity.
      apply negb_true_iff. destruct (str_eqb c _) eqn:E; [|reflexivity].
      apply str_eqb_eq in E. rewrite Hcode0, (or_empty_some c0 Hc0) in E. subst c.
      exfalso. apply Hmoved. subst updated. cbn. now rewrite Hu. }
    rewrite Hcode0, (truthy_some c0 Hc0), (or_empty_some c0 Hc0), Hdiff. cbn [andb].
    destruct (truthy_str (shareCode updated)) eqn:Ht.
    + apply truthy_str_spec in Ht as [_ Hc].
      rewrite lookup_insert_ne; [now rewrite lookup_delete_eq|].
      intros E. apply Hmoved. now rewrite Hc, E.
    + now rewrite lookup_delete_eq.
Qed.

(** X7: creating a link under an unused id and an unused token and then
    deleting it gives back the state there was. *)
Theorem create_then_delete_link (id : jsstring) (now : Z)
    (insertLink : Mem.InsertSharedLink) (st : Mem.State) :
  Mem.sharedLinks st !! id = None ->
  Mem.shareTokenToLinkId st !! Mem.i_shareToken insertLink = None ->
  Mem.deleteSharedLink id (snd (Mem.createSharedLink id now insertLink st)) = (true, st).
Proof.
  intros Hid Htok. unfold Mem.deleteSharedLink. cbn.
  rewrite lookup_insert_eq. cbn. unfold Mem.with_links. cbn.
  rewrite !delete_insert_id by assumption. now destruct st.
Qed.

(** ** The public routes together *)

Lemma same_but_counts_refl s : same_but_counts s s.
Proof. repeat split. exists []. now rewrite app_nil_r. Qed.

Lemma same_but_counts_trans s1 s2 s3 :
  same_but_counts s1 s2 -> same_but_counts s2 s3 -> same_but_counts s1 s3.
Proof.
  intros (Hf & Hl & n1 & Hg) (Hf' & Hl' & n2 & Hg'). repeat split; try congruence.
  exists (n1 ++ n2). now rewrite Hg', Hg, app_assoc.
Qed.

Lemma exec_count_write {A} (op : StorageOp A) s :
  is_count_write op -> same_but_counts s (snd (exec op s)).
Proof.
  destruct op as [code | id | token | l | id u | id u]; cbn [exec snd];
    intros Hop; try apply same_but_counts_refl.
  - repeat split. now exists [l].
  - destruct Hop as [n ->]. repeat split; [|now exists []; rewrite app_nil_r].
    cbn. rewrite map_map. apply map_ext. intros f. now destruct (Db.has_id id f).
  - destruct Hop as [n ->]. repeat split; [|now exists []; rewrite app_nil_r].
    cbn. rewrite map_map. apply map_ext. intros l. now destruct (Db.has_link_id id l).
Qed.

Lemma counts_only_run_faulty h : forall faults s,
  counts_only h -> same_but_counts s (snd (run_faulty faults h s)).
Proof.
  induction h as [r|A op k IH]; intros faults s Hc; [apply same_but_counts_refl|].
  destruct Hc as [Hop Hk]. cbn [run_faulty].
  pose proof (exec_count_write op s Hop) as Hs.
  destruct (exec op s) as [a s'] eqn:E. cbn [snd] in Hs.
  destruct faults as [|[|] rest]; cbn [snd];
    try apply same_but_counts_refl;
    (eapply same_but_counts_trans; [exact Hs | now apply IH]).
Qed.

Ltac count_writes :=
  repeat first
    [ exact I
    | match goal with
      | |- counts_only (if ?b then _ else _) => destruct b
      | |- counts_only (match ?x with Some _ => _ | None => _ end) => destruct x
      | |- forall _, _ => intro
      | |- _ /\ _ => split
      | |- exists n, set_downloadCount _ = set_downloadCount n => eexists; reflexivity
      | |- exists n, mkLinkUpdate _ _ = mkLinkUpdate (Some n) None => eexists; reflexivity
      end
    | progress cbn ].

Lemma public_routes_count_only bcrypt env id req :
  Forall counts_only (public_routes bcrypt env id req).
Proof. repeat constructor; count_writes. Qed.

(** X8: whichever of its storage calls throws, each of the six public
    routes leaves every row of [files] and [shared_links] as it was up
    to [downloadCount], adds and removes no row, and only appends to
    [download_logs]. *)
Theorem routes_touch_counters_only (bcrypt : Bcrypt) (env : Env) (id : jsstring)
    (req : Request) (faults : list bool) (s : Db.Store) :
  Forall (fun h => same_but_counts s (snd (run_faulty faults h s)))
         (public_routes bcrypt env id req).
Proof.
  eapply Forall_impl; [apply public_routes_count_only|].
  intros h Hh. now apply counts_only_run_faulty.
Qed.

Lemma validators_agree bcrypt p h :
  DbPassword.validateFilePassword bcrypt p h = DbPassword.validatePassword bcrypt p h.
Proof. reflexivity. Qed.

Ltac split_ifs_in H :=
  repeat match type of H with
         | context [if ?b then _ else _] => destruct b eqn:?
         end.


(** X10: on the same store, clock and request, [GET
    /api/public/download/:shareCode] sends the file exactly when [GET
    /api/public/file/:shareCode] describes it and the file is on disk. *)
Theorem public_file_predicts_download (bcrypt : Bcrypt) (env : Env) (code : jsstring)
    (req : Request) (s : Db.Store) :
  serves (fst (run (Routes.public_download bcrypt env code req) s)) = true
  <-> exists f,
        fst (run (Routes.public_file bcrypt env code req) s) = FileInfo f
        /\ existsSync env (storagePath f) = true.
Proof.
  cbn. destruct (Db.getFileByShareCode code s) as [f|]; cbn.
  2: { split; [discriminate | now intros (f & H & _)]. }
  destruct (negb (isPublic f)); cbn; [split; [discriminate | now intros (? & ? & _)]|].
  destruct (isLocked f), (missing (password req)); cbn;
    try (split; [discriminate | now intros (? & ? & _)]);
    try (destruct (DbPassword.validatePassword bcrypt (password req) _); cbn;
         try (split; [discriminate | now intros (? & ? & _)]));
    (destruct (past (now env) (expiresAt f)); cbn;
       [split; [discriminate | now intros (? & ? & _)]|]);
    (destruct (limit_hit _ _); cbn; [split; [discriminate | now intros (? & ? & _)]|]);
    (destruct (existsSync env (storagePath f)) eqn:Hdisk; cbn;
       [split; [intros _; now exists f | reflexivity]
       |split; [discriminate | intros (f' & [= <-] & Hd); congruence]]).
Qed.

Lemma getFileByShareCode_code code f s :
  Db.getFileByShareCode code s = Some f -> shareCode f = Some code.
Proof.
  intros H. apply find_some in H as [_ H]. unfold Db.has_code in H.
  destruct (shareCode f) as [c|]; [|discriminate]. apply str_eqb_eq in H. now subst.
Qed.

(** X11: the two [/api/public] routes let a request through to a locked
    file only if it carries a non-empty password that
    [bcrypt.compareSync] accepts against the share code of the URL, the
    value the routes pass as the hash. *)
Theorem locked_file_password_is_share_code (bcrypt : Bcrypt) (env : Env)
    (code : jsstring) (req : Request) (s : Db.Store) (f : File) :
  Db.getFileByShareCode code s = Some f ->
  isLocked f = true ->
  fst (run (Routes.public_file bcrypt env code req) s) = FileInfo f
  \/ serves (fst (run (Routes.public_download bcrypt env code req) s)) = true ->
  exists p, password req = Some p /\ p <> []
            /\ compareSync bcrypt (Some p) code = Some true.
Proof.
  intros Hf Hlock Hpass.
  assert (Hinfo : exists g, fst (run (Routes.public_file bcrypt env code req) s) = FileInfo g).
  { destruct Hpass as [H | H]; [eauto|].
    apply public_file_predicts_download in H as (g & H & _). eauto. }
  destruct Hinfo as [g Hinfo]. revert Hinfo. cbn. rewrite Hf. cbn.
  pose proof (getFileByShareCode_code _ _ _ Hf) as Hcode.
  rewrite Hlock, Hcode. cbn.
  destruct (negb (isPublic f)); cbn; [discriminate|].
  destruct (password req) as [[|c p]|] eqn:Hp; cbn; try discriminate.
  replace (match code with [] => [] | c0 :: s0 => c0 :: s0 end) with code
    by (now destruct code).
  unfold DbPassword.validatePassword.
  destruct (compareSync bcrypt (Some (c :: p)) code) as [[|]|] eqn:Hcmp; cbn;
    try discriminate.
  intros _. exists (c :: p). repeat split; [discriminate | exact Hcmp].
Qed.

Lemma reads_only_interleave schedule : forall pool s,
  Forall reads_only pool ->
  snd (interleave schedule pool s) = s
  /\ Forall reads_only (fst (interleave schedule pool s)).
Proof.
  induction schedule as [|[i fault] rest IH]; intros pool s Hpool; [now split|].
  cbn [interleave]. destruct (pool !! i) as [h|] eqn:Hi; [|now apply IH].
  assert (Hh : reads_only h) by (eapply Forall_lookup_1; eauto).
  destruct (reads_only_step h fault s Hh) as [Hs Hr].
  destruct (step fault h s) as [h' s'] eqn:E. cbn [fst snd] in *. subst s'.
  apply IH. now apply Forall_insert.
Qed.

(** X12: any number of requests to the two information routes, resumed
    in any order at their awaits and with any of their storage calls
    throwing, leave the store as it was. *)
Theorem info_requests_in_flight (bcrypt : Bcrypt) (env : Env)
    (requests : list (bool * jsstring * Request)) (schedule : list (nat * bool))
    (s : Db.Store) :
  let pool :=
    map (fun '(by_code, id, req) =>
           if by_code : bool then Routes.public_file bcrypt env id req
           else Routes.shared_info bcrypt env id req) requests in
  snd (interleave schedule pool s) = s.
Proof.
  cbv zeta. apply reads_only_interleave.
  apply Forall_forall. intros h Hin.
  apply list_elem_of_In, in_map_iff in Hin as ([[by_code id] req] & <- & _).
  destruct by_code; [apply public_file_reads_only | apply shared_info_reads_only].
Qed.

(** ** The owner's routes *)

Lemma find_filter_none {A} (P Q : A -> bool) (l : list A) :
  (forall x, In x l -> P x = true -> Q x = false) -> find P (List.filter Q l) = None.
Proof.
  induction l as [|x l IH]; intros H; [reflexivity|]. cbn.
  destruct (Q x) eqn:Hq.
  - cbn. destruct (P x) eqn:Hp.
    + rewrite (H x (or_introl eq_refl) Hp) in Hq. discriminate.
    + apply IH. intros y Hy. apply H. now right.
  - apply IH. intros y Hy. apply H. now right.
Qed.

Lemma unknown_code_not_found bcrypt env req code s :
  Db.getFileByShareCode code s = None ->
  fst (run (Routes.download_code env code req) s) = Json 404 FileNotFound
  /\ fst (run (Routes.public_file bcrypt env code req) s) = Json 404 FileNotFound
  /\ fst (run (Routes.public_download bcrypt env code req) s) = Json 404 FileNotFound.
Proof. intros H. cbn. now rewrite H. Qed.

Lemma unknown_token_not_found bcrypt env req token s :
  Db.getSharedLink token s = None ->
  fst (run (Routes.download_link bcrypt env token req) s) = Json 404 ShareLinkNotFound
  /\ fst (run (Routes.shared_info bcrypt env token req) s) = Json 404 SharedLinkNotFound
  /\ fst (run (Routes.download_shared bcrypt env token req) s) = Json 404 SharedLinkNotFound.
Proof. intros H. cbn. now rewrite H. Qed.

(** X13: [GET /api/files/:id], [DELETE /api/files/:id] and [GET
    /api/analytics/downloads/:fileId] answer 500 for an id the database
    does not read as a uuid, and "File not found" for one that is not
    stored or belongs to another user; in both cases the delete changes
    neither the database nor the disk.  [GET /api/files] lists only
    stored files of the user. *)
Theorem only_the_owner_reaches_a_file (uuid_in : jsstring -> option jsstring)
    (user id : jsstring) (w : Account.World) :
  (uuid_in id = None ->
   Account.get_request uuid_in user id w = Account.Threw
   /\ Account.delete_request uuid_in user id w = (Account.Threw, w)
   /\ Account.analytics_request uuid_in user id w = Account.Threw)
  /\ (forall u,
        uuid_in id = Some u ->
        (forall f, Db.getFile u (Account.store w) = Some f -> userId f <> user) ->
        Account.get_request uuid_in user id w = Account.NotFound
        /\ Account.delete_request uuid_in user id w = (Account.NotFound, w)
        /\ Account.analytics_request uuid_in user id w = Account.NotFound)
  /\ (forall u,
        uuid_in user = Some u ->
        exists fs, Account.list_request uuid_in user w = Account.FilesJson fs
                   /\ Forall (fun f => userId f = u /\ In f (Db.files (Account.store w))) fs).
Proof.
  unfold Account.get_request, Account.delete_request, Account.analytics_request,
    Account.list_request.
  split; [|split].
  - now intros ->.
  - intros u -> Hown.
    assert (Hno : Account.not_owned user (Db.getFile u (Account.store w)) = true).
    { destruct (Db.getFile u (Account.store w)) as [f|] eqn:Hf; [|reflexivity].
      cbn. apply negb_true_iff. destruct (str_eqb (userId f) user) eqn:E; [|reflexivity].
      apply str_eqb_eq in E. now destruct (Hown f eq_refl). }
    unfold Account.file_get, Account.file_delete, Account.analytics. now rewrite Hno.
  - intros u ->. eexists. split; [reflexivity|].
    apply Forall_forall. intros f Hin. unfold DbAdmin.getUserFiles in Hin.
    apply list_elem_of_In, filter_In in Hin as [Hin Hu]. apply str_eqb_eq in Hu. now split.
Qed.

(** X14: when the owner deletes a stored file, the route answers
    success, the stored path is gone from the disk, no row of [files],
    [shared_links] or [download_logs] refers to the file any more, and
    afterwards every public route answers 404 for a share code or a
    token that led to that file only. *)
Theorem owner_delete_erases_file (bcrypt : Bcrypt) (env : Env) (req : Request)
    (user id : jsstring) (w : Account.World) (f : File) :
  Db.getFile id (Account.store w) = Some f ->
  userId f = user ->
  let after := Account.file_delete user id w in
  let s' := Account.store (snd after) in
  fst after = Account.Success
  /\ Account.disk (snd after) (storagePath f) = false
  /\ Db.getFile id s' = None
  /\ Forall (fun l => link_fileId l <> id) (Db.sharedLinks s')
  /\ Forall (fun g => log_fileId g <> id) (Db.downloadLogs s')
  /\ (forall code,
        (forall g, In g (Db.files (Account.store w)) ->
                   Db.has_code code g = true -> file_id g = id) ->
        fst (run (Routes.download_code env code req) s') = Json 404 FileNotFound
        /\ fst (run (Routes.public_file bcrypt env code req) s') = Json 404 FileNotFound
        /\ fst (run (Routes.public_download bcrypt env code req) s') = Json 404 FileNotFound)
  /\ (forall token,
        (forall l, In l (Db.sharedLinks (Account.store w)) ->
                   Db.has_token token l = true -> link_fileId l = id) ->
        fst (run (Routes.download_link bcrypt env token req) s') = Json 404 ShareLinkNotFound
        /\ fst (run (Routes.shared_info bcrypt env token req) s') = Json 404 SharedLinkNotFound
        /\ fst (run (Routes.download_shared bcrypt env token req) s')
           = Json 404 SharedLinkNotFound).
Proof.
  intros Hf Hu. cbv zeta. unfold Account.file_delete. rewrite Hf.
  assert (Hown : Account.not_owned user (Some f) = false)
    by (cbn; now rewrite Hu, str_eqb_refl).
  rewrite Hown. cbn [fst snd Account.store Account.disk DbAdmin.deleteFile].
  split; [reflexivity|]. split; [unfold Account.unlink; now rewrite str_eqb_refl|].
  split; [|split; [|split; [|split]]].
  - unfold Db.getFile. cbn [Db.files]. apply find_filter_none.
    intros g _ Hg. now rewrite Hg.
  - apply Forall_forall. intros l Hl. cbn [Db.sharedLinks] in Hl.
    apply list_elem_of_In, filter_In in Hl as [_ Hl].
    apply negb_true_iff in Hl. intros E. unfold DbAdmin.of_file in Hl.
    now rewrite E, str_eqb_refl in Hl.
  - apply Forall_forall. intros g Hg. cbn [Db.downloadLogs] in Hg.
    apply list_elem_of_In, in_map_iff in Hg as (g0 & <- & Hg0).
    apply filter_In in Hg0 as [_ Hg0]. apply negb_true_iff in Hg0.
    unfold DbAdmin.logged_for in Hg0.
    assert (Hne : log_fileId g0 <> id) by (intros E; now rewrite E, str_eqb_refl in Hg0).
    now destruct (DbAdmin.refers_to _ g0).
  - intros code Honly.
    assert (Hnone : Db.getFileByShareCode code
                      (snd (DbAdmin.deleteFile id (Account.store w))) = None).
    { unfold Db.getFileByShareCode. cbn [snd DbAdmin.deleteFile Db.files].
      apply find_filter_none. intros g Hg Hc. apply negb_false_iff.
      unfold Db.has_id. rewrite (Honly g Hg Hc). apply str_eqb_refl. }
    apply (unknown_code_not_found bcrypt env req code _ Hnone).
  - intros token Honly.
    assert (Hnone : Db.getSharedLink token
                      (snd (DbAdmin.deleteFile id (Account.store w))) = None).
    { unfold Db.getSharedLink. cbn [snd DbAdmin.deleteFile Db.sharedLinks].
      apply find_filter_none. intros l Hl Ht. apply negb_false_iff.
      unfold DbAdmin.of_file. rewrite (Honly l Hl Ht). apply str_eqb_refl. }
    apply (unknown_token_not_found bcrypt env req token _ Hnone).
Qed.

(** ** Sharing by email *)

Lemma existsb_false_filter {A} (P : A -> bool) (l : list A) :
  existsb P l = false -> List.filter P l = [] /\ List.filter (fun x => negb (P x)) l = l.
Proof.
  induction l as [|x l IH]; [now split|]. cbn.
  intros [Hx Hl]%orb_false_iff. rewrite Hx. cbn. destruct (IH Hl) as [-> ->]. now split.
Qed.

Lemma find_app_last {A} (P : A -> bool) (l : list A) (x : A) :
  existsb P l = false -> P x = true -> find P (l ++ [x]) = Some x.
Proof.
  induction l as [|y l IH]; cbn; intros Hl Hx; [now rewrite Hx|].
  apply orb_false_iff in Hl as [Hy Hl]. rewrite Hy. now apply IH.
Qed.

Lemma createSharedLink_Some row s s1 :
  Share.createSharedLink row s = Some s1 ->
  existsb (Db.has_link_id (link_id row)) (Db.sharedLinks s) = false
  /\ (exists t, shareToken row = Some t
                /\ existsb (Db.has_token t) (Db.sharedLinks s) = false)
  /\ s1 = {| Db.files := Db.files s; Db.sharedLinks := Db.sharedLinks s ++ [row];
             Db.downloadLogs := Db.downloadLogs s |}.
Proof.
  unfold Share.createSharedLink.
  destruct (existsb (Db.has_link_id _) _); cbn; [discriminate|].
  destruct (shareToken row) as [t|]; cbn; [|discriminate].
  destruct (existsb (Db.has_token t) _) eqn:Ht; cbn; [discriminate|].
  destruct (negb _); [discriminate|]. intros [= <-]. eauto.
Qed.

Lemma delete_created_link row s :
  existsb (Db.has_link_id (link_id row)) (Db.sharedLinks s) = false ->
  logs_refer_to_links s ->
  Share.deleteSharedLink (link_id row)
    {| Db.files := Db.files s; Db.sharedLinks := Db.sharedLinks s ++ [row];
       Db.downloadLogs := Db.downloadLogs s |}
  = s.
Proof.
  intros Hnew Hfk. unfold Share.deleteSharedLink. cbn [Db.files Db.sharedLinks Db.downloadLogs].
  destruct (existsb_false_filter _ _ Hnew) as [Hnone Hall].
  rewrite !List.filter_app, Hnone, Hall. cbn.
  unfold Db.has_link_id at 1 2. rewrite str_eqb_refl. cbn. rewrite app_nil_r.
  replace (map _ (Db.downloadLogs s)) with (Db.downloadLogs s); [now destruct s|].
  symmetry. rewrite <- (map_id (Db.downloadLogs s)) at 2. apply map_ext_in.
  intros g Hg. unfold DbAdmin.refers_to.
  destruct (sharedLinkId g) as [lid|] eqn:Hlid; [|reflexivity].
  unfold logs_refer_to_links in Hfk. rewrite Forall_forall in Hfk.
  pose proof (Hfk g (proj2 (list_elem_of_In _ _) Hg) lid Hlid) as Hstored.
  cbn. rewrite orb_false_r. destruct (Db.has_link_id lid row) eqn:E; [|reflexivity].
  apply str_eqb_eq in E. rewrite <- E in Hstored. congruence.
Qed.

Lemma unsent_share bcrypt svc caller body d w :
  logs_refer_to_links (Share.store w) ->
  Email.isConfigured svc = false \/ Share.sendMail_rejects d = true ->
  Share.store (snd (Share.share_email bcrypt svc caller body d w)) = Share.store w
  /\ (forall link url,
        fst (Share.share_email bcrypt svc caller body d w) <> Share.Shared link url)
  /\ (Email.isConfigured svc = false ->
      Share.outbox (snd (Share.share_email bcrypt svc caller body d w)) = Share.outbox w).
Proof.
  intros Hfk Hfail. unfold Share.share_email.
  destruct (Db.getFile _ _) as [file|]; [|repeat split; discriminate].
  destruct (negb (str_eqb _ _)); [repeat split; discriminate|].
  destruct (negb (existsb _ _)); [repeat split; discriminate|].
  destruct (Share.createSharedLink _ _) as [s1|] eqn:Hins; [|repeat split; discriminate].
  apply createSharedLink_Some in Hins as (Hid & _ & ->).
  unfold Email.sendFileShareEmail.
  destruct (Email.isConfigured svc) eqn:Hc, (Email.transporter svc); cbn;
    try (repeat split; try discriminate; now apply delete_created_link).
  destruct Hfail as [? | Hrej]; [discriminate|]. rewrite Hrej. cbn.
  repeat split; try discriminate. now apply delete_created_link.
Qed.

(** X15: when the mail service is not configured, or the mail library
    rejects the message, [POST /api/share/email] does not answer with a
    link, and the database is as it was before the request: the link row
    it had inserted is deleted again. *)
Theorem unsent_share_leaves_no_link (bcrypt : Bcrypt) (svc : Email.Service)
    (caller : Share.Caller) (body : Share.Body) (d : Share.Draw) (w : Share.World) :
  logs_refer_to_links (Share.store w) ->
  Email.isConfigured svc = false \/ Share.sendMail_rejects d = true ->
  Share.store (snd (Share.share_email bcrypt svc caller body d w)) = Share.store w
  /\ (forall link url,
        fst (Share.share_email bcrypt svc caller body d w) <> Share.Shared link url)
  /\ (Email.isConfigured svc = false ->
      Share.outbox (snd (Share.share_email bcrypt svc caller body d w)) = Share.outbox w).
Proof. apply unsent_share. Qed.

Lemma send_when_off svc rejects m outbox :
  Email.isEmailConfigured svc = false ->
  Email.sendFileShareEmail svc rejects m outbox = (false, outbox).
Proof.
  unfold Email.isEmailConfigured, Email.sendFileShareEmail. now intros ->.
Qed.

Lemma share_when_off bcrypt svc caller body d w :
  Email.isEmailConfigured svc = false ->
  (forall link url,
     fst (Share.share_email bcrypt svc caller body d w) <> Share.Shared link url)
  /\ Share.outbox (snd (Share.share_email bcrypt svc caller body d w)) = Share.outbox w.
Proof.
  intros Hoff. unfold Share.share_email.
  destruct (Db.getFile _ _) as [file|]; [|split; [discriminate | reflexivity]].
  destruct (negb (str_eqb _ _)); [split; [discriminate | reflexivity]|].
  destruct (negb (existsb _ _)); [split; [discriminate | reflexivity]|].
  destruct (Share.createSharedLink _ _); [|split; [discriminate | reflexivity]].
  rewrite (send_when_off _ _ _ _ Hoff). cbn. split; [discriminate | reflexivity].
Qed.

Lemma truthy_or_empty x : truthy_str (Some (or_empty x)) = truthy_str x.
Proof. now destruct x as [[|c s]|]. Qed.

(** X18: the mail service is configured exactly when [SMTP_HOST],
    [SMTP_USER] and [SMTP_PASS] are all set and not empty and
    [createTransport] did not throw.  When it is not,
    [sendFileShareEmail] answers [false] without handing anything to
    the mail library, and [POST /api/share/email] answers no link and
    sends nothing. *)
Theorem smtp_settings_decide_sharing (env : Email.Smtp) (createTransport_throws : bool) :
  let svc := Email.initialize env createTransport_throws in
  (Email.isEmailConfigured svc
   = truthy_str (Email.SMTP_HOST env) && truthy_str (Email.SMTP_USER env)
     && truthy_str (Email.SMTP_PASS env) && negb createTransport_throws)
  /\ (Email.isEmailConfigured svc = false ->
      (forall rejects m outbox,
         Email.sendFileShareEmail svc rejects m outbox = (false, outbox))
      /\ forall bcrypt caller body d w,
           (forall link url,
              fst (Share.share_email bcrypt svc caller body d w) <> Share.Shared link url)
           /\ Share.outbox (snd (Share.share_email bcrypt svc caller body d w))
              = Share.outbox w).
Proof.
  cbv zeta. split.
  - unfold Email.initialize, Email.isEmailConfigured. rewrite !truthy_or_empty.
    now destruct (_ && _ && _), createTransport_throws.
  - intros Hoff. split.
    + intros rejects m outbox. now apply send_when_off.
    + intros bcrypt caller body d w. now apply share_when_off.
Qed.


(** X17: whenever [GET /api/shared/:token] gets as far as the limit or
    the password of a link whose file is stored (it describes the file,
    or answers "Download limit exceeded", "Password required" or
    "Invalid password"), [GET /api/shared-links/:token], which takes no
    password, answers with the full file and link rows. *)
Theorem link_rows_need_no_password (bcrypt : Bcrypt) (env : Env) (token : jsstring)
    (req : Request) (s : Db.Store) (l : SharedLink) (f : File) :
  Db.getSharedLink token s = Some l ->
  Db.getFile (link_fileId l) s = Some f ->
  (exists f' l', fst (run (Routes.shared_info bcrypt env token req) s) = SharedInfo f' l')
  \/ is_limit_reached (fst (run (Routes.shared_info bcrypt env token req) s)) = true
  \/ is_password_denial (fst (run (Routes.shared_info bcrypt env token req) s)) = true ->
  Links.rows env token s = Links.Rows f l.
Proof.
  intros Hl Hf. unfold Links.rows. cbn. rewrite Hl, Hf.
  destruct (negb (isActive l)); cbn;
    [intros [(? & ? & ?) | [? | ?]]; discriminate|].
  destruct (past (now env) (link_expiresAt l)); cbn;
    [intros [(? & ? & ?) | [? | ?]]; discriminate|].
  reflexivity.
Qed.

(** X19: [POST /api/shared-links] answers "File not found" and stores
    nothing for a file of another user; when it answers with a link, the
    link is found under its token, and [GET /api/shared/:token]
    describes the file to a request that carries the password given at
    creation, as long as the link is active, not expired and under its
    limit, given that bcrypt accepts the password it hashed. *)
Theorem created_link_opens (bcrypt : Bcrypt) (env : Env) (caller : Share.Caller)
    (data : Mem.InsertSharedLink) (d : Share.Draw) (s : Db.Store) (f : File)
    (req : Request) :
  (forall p, Mem.i_passwordHash data = Some p -> p <> [] ->
     DbPassword.validatePassword bcrypt (Some p)
       (DbPassword.hashPassword bcrypt p (Share.salt d)) = true) ->
  Db.getFile (Mem.i_fileId data) s = Some f ->
  (userId f <> Share.user_id caller ->
   Share.create_link bcrypt caller data d s = (Share.FileNotFound, s))
  /\ (forall link,
        fst (Share.create_link bcrypt caller data d s) = Share.Created link ->
        Mem.i_isActive data = true ->
        past (now env) (Mem.i_link_expiresAt data) = false ->
        limit_hit (Mem.i_link_downloadLimit data) (Mem.i_link_downloadCount data) = false ->
        password req = Mem.i_passwordHash data ->
        let s' := snd (Share.create_link bcrypt caller data d s) in
        Db.getSharedLink (Mem.i_shareToken data) s' = Some link
        /\ fst (run (Routes.shared_info bcrypt env (Mem.i_shareToken data) req) s')
           = SharedInfo f link).
Proof.
  intros Hlib Hf. unfold Share.create_link. rewrite Hf. split.
  - intros Hne. destruct (str_eqb (userId f) (Share.user_id caller)) eqn:E; [|reflexivity].
    apply str_eqb_eq in E. contradiction.
  - intros link. destruct (negb (str_eqb _ _)); [discriminate|].
    destruct (Share.createSharedLink _ _) as [s1|] eqn:Hins; [|discriminate].
    apply createSharedLink_Some in Hins as (Hid & (t & [= <-] & Htok) & ->).
    cbn [fst snd]. intros [= <-] Hact Hexp Hlim Hpw.
    assert (Hlink : Db.getSharedLink (Mem.i_shareToken data)
                      {| Db.files := Db.files s;
                         Db.sharedLinks := Db.sharedLinks s ++ [Share.hashed bcrypt data d];
                         Db.downloadLogs := Db.downloadLogs s |}
                    = Some (Share.hashed bcrypt data d)).
    { unfold Db.getSharedLink. cbn [Db.sharedLinks]. apply find_app_last; [exact Htok|].
      unfold Db.has_token. cbn. apply str_eqb_refl. }
    split; [exact Hlink|].
    cbn [run Routes.shared_info exec]. rewrite Hlink.
    cbn [fst snd Share.hashed isActive negb link_expiresAt link_downloadLimit
         link_downloadCount passwordHash link_fileId link_id].
    rewrite Hact, Hexp, Hlim, Hpw. cbn [negb].
    assert (Hgate :
      forall h, (if truthy_str (Mem.i_passwordHash data)
                 then Some (DbPassword.hashPassword bcrypt
                              (or_empty (Mem.i_passwordHash data)) (Share.salt d))
                 else Mem.i_passwordHash data) = h ->
      truthy_str h && missing (Mem.i_passwordHash data) = false
      /\ truthy_str h
         && negb (DbPassword.validatePassword bcrypt (Mem.i_passwordHash data) (or_empty h))
         = false).
    { intros h <-. destruct (Mem.i_passwordHash data) as [[|c p]|]; cbn; auto.
      destruct (DbPassword.hashPassword bcrypt (c :: p) (Share.salt d)) as [|a h] eqn:Hh;
        [now split|].
      split; [reflexivity|]. cbn. rewrite <- Hh.
      now rewrite (Hlib (c :: p) eq_refl ltac:(discriminate)). }
    destruct (Hgate _ eq_refl) as [-> ->].
    cbn [run exec]. unfold Db.getFile. cbn [Db.files fst snd].
    unfold Db.getFile in Hf. rewrite Hf. reflexivity.
Qed.

(** ** Instances *)

Lemma lookups_sound_witness :
  Mem.all_fresh link_ops Mem.empty = true
  /\ forallb Mem.keeps_token link_ops = true
  /\ forall t l,
       Mem.getSharedLink t (Mem.performs link_ops Mem.empty) = Some l ->
       Mem.sharedLinks (Mem.performs link_ops Mem.empty) !! link_id l = Some l
       /\ shareToken l = Some t.
Proof.
  split; [vm_compute; reflexivity|]. split; [vm_compute; reflexivity|].
  apply (lookups_sound link_ops); vm_compute; reflexivity.
Defined.

Lemma empty_token_goes_stale_witness :
  exists l l',
    Mem.getSharedLink (js "tok-2") (Mem.performs link_ops Mem.empty) = Some l
    /\ Mem.getSharedLink (js "tok-2")
         (snd (Mem.updateSharedLink (link_id l) (Mem.set_shareToken (Some []))
                 (Mem.performs link_ops Mem.empty)))
       = Some l'
    /\ link_id l' = link_id l /\ shareToken l' = Some [].
Proof.
  assert (H : exists l, Mem.getSharedLink (js "tok-2") (Mem.performs link_ops Mem.empty)
                        = Some l) by (vm_compute; eauto).
  destruct H as [l Hl]. exists l.
  destruct (empty_token_goes_stale link_ops (js "tok-2") l Hl) as (l' & H1 & H2 & H3).
  exists l'. auto.
Defined.

Lemma undefined_token_goes_stale_witness :
  exists l l',
    Mem.getSharedLink (js "tok-2") (Mem.performs link_ops Mem.empty) = Some l
    /\ Mem.getSharedLink (js "tok-2")
         (snd (Mem.updateSharedLink (link_id l) (Mem.set_shareToken None)
                 (Mem.performs link_ops Mem.empty)))
       = Some l'
    /\ shareToken l' = None.
Proof.
  assert (H : exists l, Mem.getSharedLink (js "tok-2") (Mem.performs link_ops Mem.empty)
                        = Some l) by (vm_compute; eauto).
  destruct H as [l Hl]. exists l.
  destruct (undefined_token_goes_stale link_ops (js "tok-2") l Hl) as (l' & H1 & H2 & H3).
  exists l'. auto.
Defined.

Lemma deleteFile_cascades_witness :
  exists f,
    Mem.files (Mem.performs link_ops Mem.empty) !! js "id-1" = Some f
    /\ Mem.getFileSharedLinks (js "id-1")
         (snd (Mem.deleteFile (js "id-1") (Mem.performs link_ops Mem.empty))) = []
    /\ Mem.getFileDownloadLogs (js "id-1")
         (snd (Mem.deleteFile (js "id-1") (Mem.performs link_ops Mem.empty))) = [].
Proof.
  assert (H : exists f, Mem.files (Mem.performs link_ops Mem.empty) !! js "id-1" = Some f)
    by (vm_compute; eauto).
  destruct H as [f Hf]. exists f. split; [exact Hf|].
  destruct (deleteFile_cascades link_ops (js "id-1") f Hf) as (_ & _ & H1 & H2 & _).
  now split.
Defined.

Lemma deleteFile_spares_others_witness :
  exists f,
    Mem.files (Mem.performs link_ops Mem.empty) !! js "id-1" = Some f
    /\ Mem.files (snd (Mem.deleteFile (js "id-1") (Mem.performs link_ops Mem.empty)))
       !! js "id-2"
       = Mem.files (Mem.performs link_ops Mem.empty) !! js "id-2".
Proof.
  assert (H : exists f, Mem.files (Mem.performs link_ops Mem.empty) !! js "id-1" = Some f)
    by (vm_compute; eauto).
  destruct H as [f Hf]. exists f. split; [exact Hf|].
  destruct (deleteFile_spares_others link_ops (js "id-1") f Hf) as (H & _).
  apply H. discriminate.
Defined.

Lemma created_is_found_witness :
  Mem.getSharedLink (js "tok-9")
    (snd (Mem.createSharedLink (js "l-9") 9 (insert_link "id-1" "tok-9")
            (Mem.performs link_ops Mem.empty)))
  = Some (fst (Mem.createSharedLink (js "l-9") 9 (insert_link "id-1" "tok-9")
                 (Mem.performs link_ops Mem.empty))).
Proof.
  destruct (created_is_found (js "l-9") 9 (Mem.performs link_ops Mem.empty)) as [H _];
    [discriminate|].
  apply (H (insert_link "id-1" "tok-9")).
Defined.

Lemma updateFile_repoints_code_witness :
  exists existing updated,
    Mem.files (Mem.performs link_ops Mem.empty) !! js "id-1" = Some existing
    /\ Mem.getFileByShareCode (js "CODE0002")
         (snd (Mem.updateFile (js "id-1") (set_shareCode (Some (js "CODE0002"))) 7
                 (Mem.performs link_ops Mem.empty)))
       = Some updated
    /\ file_id updated = js "id-1".
Proof.
  assert (H : exists existing updated,
            Mem.files (Mem.performs link_ops Mem.empty) !! js "id-1" = Some existing
            /\ fst (Mem.updateFile (js "id-1") (set_shareCode (Some (js "CODE0002"))) 7
                      (Mem.performs link_ops Mem.empty)) = Some updated
            /\ shareCode updated = Some (js "CODE0002")
            /\ file_id updated = js "id-1")
    by (vm_compute; eauto 10).
  destruct H as (existing & updated & Hex & Hup & Hcode & Hid).
  exists existing, updated. split; [exact Hex|]. split; [|exact Hid].
  destruct (updateFile_repoints_code (js "id-1") (set_shareCode (Some (js "CODE0002"))) 7
              (Mem.performs link_ops Mem.empty) existing updated) as [H _];
    [discriminate | exact Hex | exact Hup |].
  apply H; [discriminate | exact Hcode].
Defined.

Lemma create_then_delete_link_witness :
  Mem.deleteSharedLink (js "l-9")
    (snd (Mem.createSharedLink (js "l-9") 9 (insert_link "id-1" "tok-9")
            (Mem.performs link_ops Mem.empty)))
  = (true, Mem.performs link_ops Mem.empty).
Proof.
  apply create_then_delete_link; vm_compute; reflexivity.
Defined.

Lemma locked_file_password_is_share_code_witness :
  exists p, password (with_password (js "CODE")) = Some p /\ p <> []
            /\ compareSync toy_bcrypt (Some p) (js "$CODE") = Some true.
Proof.
  apply (locked_file_password_is_share_code toy_bcrypt env0 (js "$CODE")
           (with_password (js "CODE")) (store_of dollar_file []) dollar_file);
    [reflexivity | reflexivity | left; reflexivity].
Defined.

Lemma only_the_owner_reaches_a_file_witness :
  Account.delete_request plain_uuid_in (js "u2") (js "f1") owner_world
  = (Account.NotFound, owner_world)
  /\ Account.delete_request plain_uuid_in (js "u1") (js "no uuid") owner_world
     = (Account.Threw, owner_world).
Proof.
  split.
  - destruct (only_the_owner_reaches_a_file plain_uuid_in (js "u2") (js "f1") owner_world)
      as (_ & H & _).
    apply (H (js "f1") eq_refl). intros f [= <-]. discriminate.
  - destruct (only_the_owner_reaches_a_file plain_uuid_in (js "u1") (js "no uuid") owner_world)
      as (H & _).
    now apply H.
Defined.

Lemma owner_delete_erases_file_witness :
  fst (Account.file_delete (js "u1") (js "f1") owner_world) = Account.Success
  /\ fst (run (Routes.download_shared toy_bcrypt env0 (js "tok") anonymous)
            (Account.store (snd (Account.file_delete (js "u1") (js "f1") owner_world))))
     = Json 404 SharedLinkNotFound.
Proof.
  destruct (owner_delete_erases_file toy_bcrypt env0 anonymous (js "u1") (js "f1")
              owner_world plain_file eq_refl eq_refl) as (H1 & _ & _ & _ & _ & _ & H2).
  split; [exact H1|]. apply (H2 (js "tok")).
  intros l [<- | []] _. reflexivity.
Defined.

Lemma unsent_share_leaves_no_link_witness :
  Share.store (snd (Share.share_email toy_bcrypt (Email.initialize smtp_on false)
                      share_caller share_body (share_draw true) share_world))
  = Share.store share_world.
Proof.
  apply (unsent_share_leaves_no_link toy_bcrypt (Email.initialize smtp_on false)
           share_caller share_body (share_draw true) share_world).
  - constructor.
  - right. reflexivity.
Defined.


Lemma link_rows_need_no_password_witness :
  Links.rows env0 (js "tok") (store_of plain_file [protected_link_until 2000])
  = Links.Rows plain_file (protected_link_until 2000).
Proof.
  apply (link_rows_need_no_password toy_bcrypt env0 (js "tok") anonymous
           (store_of plain_file [protected_link_until 2000]));
    [reflexivity | reflexivity | right; right; reflexivity].
Defined.

Lemma smtp_settings_decide_sharing_witness :
  Email.isEmailConfigured (Email.initialize smtp_off false) = false
  /\ forall rejects m outbox,
       Email.sendFileShareEmail (Email.initialize smtp_off false) rejects m outbox
       = (false, outbox).
Proof.
  destruct (smtp_settings_decide_sharing smtp_off false) as [Hc Hoff].
  split; [exact Hc|]. now apply Hoff.
Defined.

Lemma created_link_opens_witness :
  fst (run (Routes.shared_info toy_bcrypt env0 (js "tok-9") (with_password (js "secret")))
         (snd (Share.create_link toy_bcrypt share_caller protected_insert
                 (share_draw false) (store_of plain_file []))))
  = SharedInfo plain_file (Share.hashed toy_bcrypt protected_insert (share_draw false)).
Proof.
  destruct (created_link_opens toy_bcrypt env0 share_caller protected_insert
              (share_draw false) (store_of plain_file []) plain_file
              (with_password (js "secret")))
    as [_ H]; [intros p [= <-] _; reflexivity | reflexivity |].
  apply (H (Share.hashed toy_bcrypt protected_insert (share_draw false)));
    reflexivity.
Defined.

(** ** Limits, one request after the other *)

Lemma bounded_sequence (h : Handler) (open : Db.Store -> Z -> Prop) (L : Z)
    (ok no : Response) :
  (forall s c, c < L -> open s c -> exists s', run h s = (ok, s') /\ open s' (c + 1)) ->
  (forall s c, L <= c -> open s c -> run h s = (no, s)) ->
  forall n s c, 0 <= c <= L -> open s c ->
  exists s',
    sequential (replicate n h) s
    = (replicate (Nat.min n (Z.to_nat (L - c))) ok
       ++ replicate (n - Nat.min n (Z.to_nat (L - c))) no, s')
    /\ open s' (c + Z.of_nat (Nat.min n (Z.to_nat (L - c)))).
Proof.
  intros Hgrant Hdeny. induction n as [|n IH]; intros s c Hc Hopen.
  - exists s. cbn. split; [reflexivity|]. now rewrite Z.add_0_r.
  - destruct (Z.eq_dec c L) as [-> | Hne].
    + destruct (IH s L Hc Hopen) as (s' & Hseq & Hopen').
      rewrite Z.sub_diag in *. cbn [Z.to_nat] in *.
      rewrite Nat.min_0_r, Nat.sub_0_r in *. cbn [replicate app Z.of_nat] in *.
      exists s'. split; [|exact Hopen'].
      cbn [sequential]. rewrite (Hdeny s L ltac:(lia) Hopen), Hseq. reflexivity.
    + destruct (Hgrant s c ltac:(lia) Hopen) as (s1 & Hrun & Hopen1).
      destruct (IH s1 (c + 1) ltac:(lia) Hopen1) as (s' & Hseq & Hopen').
      exists s'. cbn [replicate sequential]. rewrite Hrun, Hseq.
      replace (Z.to_nat (L - c)) with (S (Z.to_nat (L - (c + 1)))) by lia.
      cbn [Nat.min Nat.sub replicate app]. split; [reflexivity|].
      replace (c + Z.of_nat (S (Nat.min n (Z.to_nat (L - (c + 1))))))
        with (c + 1 + Z.of_nat (Nat.min n (Z.to_nat (L - (c + 1))))) by lia.
      exact Hopen'.
Qed.

Lemma limit_check L c : L <> 0 -> limit_hit (Some L) c = (c >=? L).
Proof.
  intros HL. unfold limit_hit. cbn. now destruct (Z.eqb_spec L 0).
Qed.

Lemma file_open_grant env req code L path name s c :
  L <> 0 -> c < L -> file_open env code L path name s c ->
  exists s', run (Routes.download_code env code req) s = (Download path name, s')
             /\ file_open env code L path name s' (c + 1).
Proof.
  intros HL Hc (f & Hf & He & Hlim & Hcount & Hpath & Hname).
  assert (Hhit : limit_hit (downloadLimit f) (downloadCount f) = false)
    by (rewrite Hlim, Hcount, limit_check by exact HL; lia).
  eexists. split.
  - rewrite (download_code_granted env req s code f Hf He Hhit). now rewrite Hpath, Hname.
  - exists (apply_file_update f (bump_file f)). repeat split; cbn; auto.
    + apply (getFileByShareCode_count code f _ (Db.createDownloadLog (code_log req f) s) Hf).
    + now rewrite Hcount.
Qed.

Lemma file_open_deny env req code L path name s c :
  L <> 0 -> L <= c -> file_open env code L path name s c ->
  run (Routes.download_code env code req) s = (Json 429 DownloadLimitExceeded, s).
Proof.
  intros HL Hc (f & Hf & He & Hlim & Hcount & _). cbn. rewrite Hf, He, Hlim, Hcount.
  rewrite limit_check by exact HL. now replace (c >=? L) with true by lia.
Qed.

(** X20: when [n] requests to [GET /api/download/code/:shareCode] are
    served one after the other against an unexpired file with limit
    [L >= 1] and counter 0, the first [min n L] are sent the file, the
    others are answered 429, and the counter ends at [min n L]. *)
Theorem code_downloads_respect_limit (env : Env) (req : Request)
    (code path name : jsstring) (L : Z) (n : nat) (s : Db.Store) :
  1 <= L ->
  file_open env code L path name s 0 ->
  exists s',
    sequential (replicate n (Routes.download_code env code req)) s
    = (replicate (Nat.min n (Z.to_nat L)) (Download path name)
       ++ replicate (n - Nat.min n (Z.to_nat L)) (Json 429 DownloadLimitExceeded), s')
    /\ file_open env code L path name s' (Z.min (Z.of_nat n) L).
Proof.
  intros HL Hopen.
  destruct (bounded_sequence (Routes.download_code env code req)
              (file_open env code L path name) L
              (Download path name) (Json 429 DownloadLimitExceeded)) with (n := n) (s := s) (c := 0)
    as (s' & Hseq & Hopen'); try lia; try exact Hopen.
  - intros s0 c Hc. apply file_open_grant; lia.
  - intros s0 c Hc. apply file_open_deny; lia.
  - rewrite Z.sub_0_r in *. exists s'. split; [exact Hseq|].
    replace (Z.min (Z.of_nat n) L) with (0 + Z.of_nat (Nat.min n (Z.to_nat L))) by lia.
    exact Hopen'.
Qed.

Lemma shared_open_grant bcrypt env req token L path name type s c :
  L <> 0 -> c < L -> shared_open bcrypt env req token L path name type s c ->
  exists s', run (Routes.download_shared bcrypt env token req) s
             = (SendFile path name type, s')
             /\ shared_open bcrypt env req token L path name type s' (c + 1).
Proof.
  intros HL Hc (l & f & Hl & Ha & He & Hm & Hp & Hlim & Hcount & Hf & Hd & Hpath & Hname & Ht).
  assert (Hhit : limit_hit (link_downloadLimit l) (link_downloadCount l) = false)
    by (rewrite Hlim, Hcount, limit_check by exact HL; lia).
  eexists. split.
  - cbn. rewrite Hl, Ha. cbn [negb]. rewrite He, Hhit, Hm, Hp. cbn.
    rewrite Hf, Hd. cbn. now rewrite Hpath, Hname, Ht.
  - exists (apply_link_update l (bump_link l)), f.
    repeat split; cbn; auto.
    + apply (getSharedLink_update token l (bump_link l) s Hl).
    + now rewrite Hcount.
Qed.

Lemma shared_open_deny bcrypt env req token L path name type s c :
  L <> 0 -> L <= c -> shared_open bcrypt env req token L path name type s c ->
  run (Routes.download_shared bcrypt env token req) s = (Json 410 DownloadLimitExceeded, s).
Proof.
  intros HL Hc (l & f & Hl & Ha & He & _ & _ & Hlim & Hcount & _).
  cbn. rewrite Hl, Ha. cbn [negb]. rewrite He, Hlim, Hcount.
  rewrite limit_check by exact HL. now replace (c >=? L) with true by lia.
Qed.


(** ** Requests in flight *)

Lemma counts_only_step h fault s :
  counts_only h ->
  same_but_counts s (snd (step fault h s)) /\ counts_only (fst (step fault h s)).
Proof.
  destruct h as [r|A op k]; [intros _; split; [apply same_but_counts_refl | exact I]|].
  intros [Hop Hk]. cbn [step]. destruct fault.
  - split; [apply same_but_counts_refl | exact I].
  - pose proof (exec_count_write op s Hop) as Hs.
    destruct (exec op s) as [a s'] eqn:E. cbn [fst snd] in *. split; [exact Hs | apply Hk].
Qed.

Lemma counts_only_interleave schedule : forall pool s,
  Forall counts_only pool -> same_but_counts s (snd (interleave schedule pool s)).
Proof.
  induction schedule as [|[i fault] rest IH]; intros pool s Hpool;
    [apply same_but_counts_refl|].
  cbn [interleave]. destruct (pool !! i) as [h|] eqn:Hi; [|now apply IH].
  assert (Hh : counts_only h) by (eapply Forall_lookup_1; eauto).
  destruct (counts_only_step h fault s Hh) as [Hs Hc].
  destruct (step fault h s) as [h' s'] eqn:E. cbn [fst snd] in *.
  eapply same_but_counts_trans; [exact Hs|]. apply IH. now apply Forall_insert.
Qed.

(** X22: any number of requests to the six public routes in flight
    together, resumed in any order and with any of their storage calls
    throwing, leave every row of [files] and [shared_links] as it was up
    to [downloadCount], add and remove no row, and only append to
    [download_logs]. *)
Theorem requests_in_flight_touch_counters_only (bcrypt : Bcrypt) (pool : list Handler)
    (schedule : list (nat * bool)) (s : Db.Store) :
  public_pool bcrypt pool ->
  same_but_counts s (snd (interleave schedule pool s)).
Proof.
  intros Hpool. apply counts_only_interleave.
  unfold public_pool in Hpool. rewrite Forall_forall in *. intros h Hh.
  destruct (Hpool h Hh) as (env & id & req & Hin).
  pose proof (public_routes_count_only bcrypt env id req) as Hall.
  rewrite Forall_forall in Hall. apply Hall. now apply list_elem_of_In.
Qed.



Lemma code_downloads_respect_limit_witness :
  exists s',
    sequential (replicate 3 (Routes.download_code env0 (js "ABCD1234") anonymous))
      (store_of (with_limit 2 plain_file) [])
    = ([Download (js "uploads/a") (js "a.txt"); Download (js "uploads/a") (js "a.txt");
        Json 429 DownloadLimitExceeded], s')
    /\ file_open env0 (js "ABCD1234") 2 (js "uploads/a") (js "a.txt") s' 2.
Proof.
  apply (code_downloads_respect_limit env0 anonymous (js "ABCD1234") (js "uploads/a")
           (js "a.txt") 2 3 (store_of (with_limit 2 plain_file) [])); [lia|].
  exists (with_limit 2 plain_file). repeat split.
Defined.


Lemma requests_in_flight_touch_counters_only_witness :
  same_but_counts (store_of plain_file [one_shot_link])
    (snd (interleave racing_schedule
            [Routes.download_link toy_bcrypt env0 (js "tok") anonymous;
             Routes.download_link toy_bcrypt env0 (js "tok") anonymous]
            (store_of plain_file [one_shot_link]))).
Proof.
  apply (requests_in_flight_touch_counters_only toy_bcrypt).
  repeat constructor; exists env0, (js "tok"), anonymous; cbn; tauto.
Defined.


(** ** Uploading *)

Lemma createFile_Some row s s1 :
  Upload.createFile row s = Some s1 ->
  existsb (Db.has_id (file_id row)) (Db.files s) = false
  /\ (forall c, shareCode row = Some c -> existsb (Db.has_code c) (Db.files s) = false)
  /\ s1 = {| Db.files := Db.files s ++ [row]; Db.sharedLinks := Db.sharedLinks s;
             Db.downloadLogs := Db.downloadLogs s |}.
Proof.
  unfold Upload.createFile.
  destruct (existsb (Db.has_id _) _); cbn; [discriminate|].
  destruct (shareCode row) as [c|].
  - destruct (existsb (Db.has_code c) _) eqn:E; [discriminate|].
    intros [= <-]. repeat split. now intros c' [= <-].
  - intros [= <-]. repeat split. discriminate.
Qed.

Lemma getProfile_set_count user n w p :
  Upload.getProfile user w = Some p ->
  find (Upload.has_profile_id user) (Upload.set_count user n (Upload.profiles w))
  = Some {| Upload.profile_id := Upload.profile_id p; Upload.dailyUploadCount := n;
            Upload.dailyUploadLimit := Upload.dailyUploadLimit p |}.
Proof.
  unfold Upload.getProfile, Upload.set_count. intros Hp.
  rewrite find_map_stable.
  - rewrite Hp. cbn. apply find_some in Hp as [_ Hp]. now rewrite Hp.
  - intros q. now destruct (Upload.has_profile_id user q) eqn:E.
Qed.


(** X25: a file that was just stored with a share code is sent by [GET
    /api/download/code/:shareCode] under that code, whether or not it
    was made public, as long as its expiry date has not passed and its
    limit is not negative. *)
Theorem uploaded_file_downloads_by_code (env : Env) (req : Request) (user : jsstring)
    (f : Upload.Uploaded) (body : Upload.Body) (d : Upload.Draw) (w : Upload.World)
    (row : File) :
  fst (Upload.upload user (Some f) body d w) = Upload.Stored row ->
  truthy_str (Upload.generateShareCode body) = true ->
  past (now env) (Upload.b_expiresAt body) = false ->
  (forall L, Upload.b_downloadLimit body = Some L -> 0 <= L) ->
  shareCode row = Some (Upload.code d)
  /\ fst (run (Routes.download_code env (Upload.code d) req)
            (Upload.store (snd (Upload.upload user (Some f) body d w))))
     = Download (Upload.path f) (Upload.originalname f).
Proof.
  unfold Upload.upload.
  destruct (Upload.getProfile user w) as [p|]; [|discriminate].
  destruct (_ >=? _); [discriminate|].
  destruct (Upload.createFile _ _) as [s1|] eqn:Hins; [|discriminate].
  apply createFile_Some in Hins as (Hid & Hcode & ->).
  cbn [fst snd Upload.store]. intros [= <-] Hgen Hexp Hlim.
  assert (Hsc : shareCode (Upload.new_file user f body d) = Some (Upload.code d))
    by (cbn; now rewrite Hgen).
  split; [exact Hsc|].
  assert (Hfound : Db.getFileByShareCode (Upload.code d)
                     {| Db.files := Db.files (Upload.store w) ++ [Upload.new_file user f body d];
                        Db.sharedLinks := Db.sharedLinks (Upload.store w);
                        Db.downloadLogs := Db.downloadLogs (Upload.store w) |}
                   = Some (Upload.new_file user f body d)).
  { unfold Db.getFileByShareCode. cbn [Db.files]. apply find_app_last.
    - now apply Hcode.
    - unfold Db.has_code. rewrite Hsc. apply str_eqb_refl. }
  rewrite (download_code_granted env req _ _ _ Hfound); [reflexivity | exact Hexp |].
  cbn [Upload.new_file downloadLimit downloadCount]. unfold limit_hit.
  destruct (Upload.b_downloadLimit body) as [L|] eqn:HL; [|reflexivity].
  specialize (Hlim L eq_refl). cbn. destruct (Z.eqb_spec L 0); cbn; [reflexivity | lia].
Qed.



Lemma uploaded_file_downloads_by_code_witness :
  fst (run (Routes.download_code env0 (js "WXYZ5678") anonymous)
         (Upload.store
            (snd (Upload.upload (js "u1") (Some uploaded_b) upload_body upload_draw
                    upload_world))))
  = Download (js "uploads/b") (js "b.txt").
Proof.
  apply (uploaded_file_downloads_by_code env0 anonymous (js "u1") uploaded_b upload_body
           upload_draw upload_world _ eq_refl eq_refl eq_refl).
  intros L [= <-]. lia.
Defined.
